(** * Energy ingestion engine: write path, buffer, validation and analytics

    A shallow embedding of the TypeScript services of the repository:

    - [telemetry/repositories/*-telemetry.repository.ts]  (batch repositories)
    - [telemetry/ingestion-buffer.service.ts]             (in-memory buffer)
    - [telemetry/dto/ingest-telemetry.dto.ts],
      [telemetry/telemetry.service.ts]                    (validation, dispatch)
    - [analytics/analytics.service.ts]                    (read contracts)
    - [database/schema.sql]                               (column types, view)

    - [common/filters/all-exceptions.filter.ts]           (status of an error)

    Conventions of the embedding.

    - An instant ([Date], [TIMESTAMPTZ]) is a [Z]: milliseconds since the epoch.
    - A finite JavaScript number is the rational it denotes ([Q]); a number
      read back from the database is the binary64 value nearest to the
      decimal ([binary64]).
    - A string is the text in its UTF-8 encoding; column limits count
      characters ([char_length]).
    - A [NUMERIC(p,s)] column value is a [Z] counting units of [10^-s];
      sums are exact, quotients are rounded at the scale PostgreSQL selects
      ([numeric_div]).
    - A table with a primary key on the device identifier is a
      [gmap string row]; an append-only table is a [list row], oldest first.
    - The statements sent through the query runner are given the meaning
      PostgreSQL gives them; each definition quotes the SQL it stands for. *)

From Stdlib Require Import ZArith QArith Qabs Lia Ascii.
From stdpp Require Import gmap strings list sorting pretty.

Open Scope Z_scope.

(* ===================================================================== *)
(** * Part I: the program                                                 *)
(* ===================================================================== *)

(** ** Column types of schema.sql *)

(** The steps a query runner performs. *)
Inductive DbStep :=
  | Connect | StartTransaction | InsertHistory | UpsertCurrent
  | CommitTransaction | RollbackTransaction | Release.

(** Errors the database (or the connection to it) can raise. *)
Inductive pg_error :=
  | StringDataRightTruncation      (* value too long for type character varying(n) *)
  | NumericValueOutOfRange         (* numeric field overflow *)
  | InvalidDatetimeFormat          (* the bound Date is not a timestamp *)
  | CardinalityViolation           (* ON CONFLICT DO UPDATE command cannot affect row a second time *)
  | ConnectionFailure (s : DbStep) (* connectivity loss, statement timeout, ... during step s *).

Inductive result (E A : Type) :=
  | Ok (a : A)
  | Err (e : E).
Arguments Ok {E A} a.
Arguments Err {E A} e.

Definition pg_result := result pg_error.

#[global] Instance DbStep_eq_dec : EqDecision DbStep.
Proof. solve_decision. Defined.

#[global] Instance pg_error_eq_dec : EqDecision pg_error.
Proof. solve_decision. Defined.

(** Nearest integer, ties away from zero: the rounding of [numeric] input
    conversion and of [ROUND(numeric, s)]. *)
Definition round_half_away (q : Q) : Z :=
  let n := Qnum q in
  let d := Z.pos (Qden q) in
  if 0 <=? n then (2 * n + d) / (2 * d)
  else - ((2 * (- n) + d) / (2 * d)).

Definition pow10 (s : nat) : Z := 10 ^ Z.of_nat s.

(** Assignment of a number to a [NUMERIC(p,s)] column: rounded to [s]
    fractional digits, rejected when more than [p - s] integral digits
    remain.  The stored value counts units of [10^-s]. *)
Definition numeric (p s : nat) (q : Q) : pg_result Z :=
  let v := round_half_away (q * inject_Z (pow10 s)) in
  if Z.abs v <? pow10 p then Ok v else Err NumericValueOutOfRange.

(** Division of two [NUMERIC] values.  A value is kept in digits of base
    10000; its weight [w] is the position of its first digit that is not
    zero, [10000^w <= |x| < 10000^(w+1)], and 0 for the value 0.  The two
    searches below look for this position among the non-negative and among
    the negative ones; [n / d] is the magnitude of the value. *)
Fixpoint weight_up (fuel k : nat) (n d : Z) : nat :=
  match fuel with
  | O => k
  | S fuel' => if d * 10000 ^ Z.of_nat (S k) <=? n then weight_up fuel' (S k) n d else k
  end.

Fixpoint weight_down (fuel k : nat) (n d : Z) : nat :=
  match fuel with
  | O => k
  | S fuel' => if d <=? n * 10000 ^ Z.of_nat k then k else weight_down fuel' (S k) n d
  end.

Definition NBASE_weight (x : Q) : Z :=
  let n := Z.abs (Qnum x) in
  let d := Z.pos (Qden x) in
  if n =? 0 then 0
  else if d <=? n then Z.of_nat (weight_up (S (Z.to_nat (Z.log2 n))) 0 n d)
  else - Z.of_nat (weight_down (S (Z.to_nat (Z.log2 d))) 1 n d).

(** The first digit (of base 10000) that is not zero; 0 for the value 0. *)
Definition first_digit (x : Q) : Z :=
  let n := Z.abs (Qnum x) in
  let d := Z.pos (Qden x) in
  let w := NBASE_weight x in
  if 0 <=? w then n / (d * 10000 ^ w) else (n * 10000 ^ (- w)) / d.

(** [select_div_scale]: the scale of a quotient.  It gives at least 16
    significant digits, and no less than the display scale of either
    input. *)
Definition select_div_scale (x y : Q) (dscale_x dscale_y : nat) : nat :=
  let qweight :=
    NBASE_weight x - NBASE_weight y
    - (if first_digit x <=? first_digit y then 1 else 0) in
  let rscale := 16 - qweight * 4 in
  let rscale := Z.max rscale (Z.of_nat dscale_x) in
  let rscale := Z.max rscale (Z.of_nat dscale_y) in
  let rscale := Z.max rscale 0 in
  let rscale := Z.min rscale 1000 in
  Z.to_nat rscale.

(** [x / y] on [NUMERIC] values of the given display scales: the quotient
    rounded to the scale [select_div_scale] selects.  The divisor is not 0
    where the statements modelled here divide. *)
Definition numeric_div (x y : Q) (dscale_x dscale_y : nat) : Q :=
  let rscale := select_div_scale x y dscale_x dscale_y in
  (inject_Z (round_half_away (x / y * inject_Z (pow10 rscale)))
   / inject_Z (pow10 rscale))%Q.

(** Strings are texts in their UTF-8 encoding, as the driver sends them to
    the database: a character is a leading byte followed by its
    continuation bytes (the bytes [0x80] to [0xBF]).  The length limit of a
    [VARCHAR(n)] column counts characters, not bytes. *)
Definition is_continuation (c : ascii) : bool :=
  (128 <=? nat_of_ascii c)%nat && (nat_of_ascii c <? 192)%nat.

(** [char_length(s)] *)
Fixpoint char_length (s : string) : nat :=
  match s with
  | EmptyString => 0%nat
  | String c rest => ((if is_continuation c then 0 else 1) + char_length rest)%nat
  end.

(** The continuation bytes a string starts with, and what follows them. *)
Fixpoint take_continuation (s : string) : string :=
  match s with
  | EmptyString => EmptyString
  | String c rest => if is_continuation c then String c (take_continuation rest)
                     else EmptyString
  end.

Fixpoint skip_continuation (s : string) : string :=
  match s with
  | EmptyString => EmptyString
  | String c rest => if is_continuation c then skip_continuation rest else s
  end.

(** The first [n] characters of a string, and the string without them. *)
Fixpoint take_chars (n : nat) (s : string) : string :=
  match n, s with
  | O, _ => EmptyString
  | S _, EmptyString => EmptyString
  | S n', String c rest =>
      String c (take_continuation rest +:+ take_chars n' (skip_continuation rest))
  end.

Fixpoint drop_chars (n : nat) (s : string) : string :=
  match n, s with
  | O, _ => s
  | S _, EmptyString => EmptyString
  | S n', String c rest => drop_chars n' (skip_continuation rest)
  end.

Fixpoint all_spaces (s : string) : bool :=
  match s with
  | EmptyString => true
  | String c rest => Ascii.eqb c " "%char && all_spaces rest
  end.

(** Assignment of a string to a [VARCHAR(n)] column: a value of more than
    [n] characters is an error unless the excess characters are all spaces,
    in which case the value is truncated to [n] characters. *)
Definition varchar (n : nat) (s : string) : pg_result string :=
  if (char_length s <=? n)%nat then Ok s
  else if all_spaces (drop_chars n s)
       then Ok (take_chars n s)
       else Err StringDataRightTruncation.

(** A bound [Date] parameter: [None] is an invalid Date. *)
Definition timestamptz (d : option Z) : pg_result Z :=
  match d with
  | Some t => Ok t
  | None => Err InvalidDatetimeFormat
  end.

#[global] Instance result_ret {E} : MRet (result E) := fun A a => Ok a.

#[global] Instance result_bind {E} : MBind (result E) := fun A B k r =>
  match r with
  | Ok a => k a
  | Err e => Err e
  end.

(** One row per element, or the first error (a multi-row [VALUES] list). *)
Fixpoint traverse {E A B} (f : A -> result E B) (l : list A) : result E (list B) :=
  match l with
  | [] => Ok []
  | a :: rest =>
      b ← f a;
      bs ← traverse f rest;
      Ok (b :: bs)
  end.

(** ** DTOs (dto/ingest-telemetry.dto.ts) *)

Record VehiclePayloadDto := {
  vehicleId : string;
  soc : Q;
  kwhDeliveredDc : Q;
  batteryTemp : Q;
  v_timestamp : string
}.

Record MeterPayloadDto := {
  meterId : string;
  kwhConsumedAc : Q;
  voltage : Q;
  m_timestamp : string
}.

(** ** Entities (entities/*.entity.ts, schema.sql)

    The identity column [id] of the history tables is left out: no statement
    of the services reads it. *)

Record VehicleTelemetryHistory := {
  vh_vehicle_id : string;        (* VARCHAR(64)    *)
  vh_soc : Z;                    (* NUMERIC(5, 2)  *)
  vh_kwh_delivered_dc : Z;       (* NUMERIC(10, 4) *)
  vh_battery_temp : Z;           (* NUMERIC(5, 2)  *)
  vh_recorded_at : Z;            (* TIMESTAMPTZ    *)
  vh_ingested_at : Z             (* TIMESTAMPTZ DEFAULT NOW() *)
}.

Record VehicleCurrentStatus := {
  vc_vehicle_id : string;
  vc_soc : Z;
  vc_kwh_delivered_dc : Z;
  vc_battery_temp : Z;
  vc_last_seen_at : Z;
  vc_updated_at : Z
}.

Record MeterTelemetryHistory := {
  mh_meter_id : string;          (* VARCHAR(64)    *)
  mh_kwh_consumed_ac : Z;        (* NUMERIC(10, 4) *)
  mh_voltage : Z;                (* NUMERIC(6, 2)  *)
  mh_recorded_at : Z;
  mh_ingested_at : Z
}.

Record MeterCurrentStatus := {
  mc_meter_id : string;
  mc_kwh_consumed_ac : Z;
  mc_voltage : Z;
  mc_last_seen_at : Z;
  mc_updated_at : Z
}.

Record VehicleMeterLink := {
  l_vehicle_id : string;
  l_meter_id : string;
  l_linked_at : Z
}.

(** ** The database as a repository sees it

    Each repository writes the history table (cold store) and the
    current-status table (hot store) of its own device class. *)

Record Tables (H C : Type) := {
  cold : list H;             (* *_telemetry_history, in insertion order *)
  hot : gmap string C        (* *_current_status, keyed by its primary key *)
}.
Arguments cold {H C} _.
Arguments hot {H C} _.

(** What the two repositories share: how a DTO becomes a row of either
    table, and the columns the statements mention. *)
Class Telemetry (D H C V : Type) := {
  history_row : (string -> option Z) -> Z -> D -> pg_result H;
  current_row : (string -> option Z) -> Z -> D -> pg_result C;
  cold_id : H -> string;
  cold_recorded_at : H -> Z;
  cold_values : H -> V;
  hot_id : C -> string;
  hot_last_seen_at : C -> Z;
  hot_values : C -> V
}.

(** The environment of one call: the JavaScript [Date] constructor applied
    to a string ([None] for an invalid Date), the value of [NOW()] in the
    transaction, and the steps at which the connection fails. *)
Record Env := {
  Date : string -> option Z;
  NOW : Z;
  fails : DbStep -> bool
}.

(** A query runner: the committed tables, the working copy of the open
    transaction if there is one, and the steps performed so far. *)
Record QueryRunner (H C : Type) := {
  committed : Tables H C;
  transaction : option (Tables H C);
  steps : list DbStep
}.
Arguments committed {H C} _.
Arguments transaction {H C} _.
Arguments steps {H C} _.

Definition Tx (H C A : Type) : Type :=
  QueryRunner H C -> pg_result A * QueryRunner H C.

#[global] Instance Tx_ret {H C} : MRet (Tx H C) := fun A a q => (Ok a, q).

Definition throw {H C A} (e : pg_error) : Tx H C A := fun q => (Err e, q).

#[global] Instance Tx_bind {H C} : MBind (Tx H C) := fun A B k m q =>
  match m q with
  | (Ok a, q') => k a q'
  | (Err e, q') => (Err e, q')
  end.

(** [try { body } catch (error) { handler error }] *)
Definition try_catch {H C A} (body : Tx H C A) (handler : pg_error -> Tx H C A)
  : Tx H C A :=
  fun q =>
    match body q with
    | (Ok a, q') => (Ok a, q')
    | (Err e, q') => handler e q'
    end.

(** [try { body } finally { fin }] *)
Definition try_finally {H C A} (body : Tx H C A) (fin : Tx H C unit) : Tx H C A :=
  fun q =>
    match body q with
    | (r, q') =>
        match fin q' with
        | (Ok _, q'') => (r, q'')
        | (Err e, q'') => (Err e, q'')
        end
    end.

Definition record_step {H C} (s : DbStep) (q : QueryRunner H C) : QueryRunner H C :=
  {| committed := committed q; transaction := transaction q;
     steps := steps q ++ [s] |}.

(** [await queryRunner.connect()] *)
Definition connect {H C} (env : Env) : Tx H C unit :=
  fun q =>
    let q := record_step Connect q in
    if fails env Connect then (Err (ConnectionFailure Connect), q) else (Ok tt, q).

(** [await queryRunner.startTransaction()] *)
Definition startTransaction {H C} (env : Env) : Tx H C unit :=
  fun q =>
    let q := record_step StartTransaction q in
    if fails env StartTransaction then (Err (ConnectionFailure StartTransaction), q)
    else (Ok tt, {| committed := committed q;
                    transaction := Some (committed q);
                    steps := steps q |}).

(** [await queryRunner.query(sql, params)] for a statement that writes: it
    works on the open transaction, or commits by itself when none is open. *)
Definition query {H C} (env : Env) (s : DbStep)
    (stmt : Tables H C -> pg_result (Tables H C)) : Tx H C unit :=
  fun q =>
    let q := record_step s q in
    if fails env s then (Err (ConnectionFailure s), q)
    else
      match transaction q with
      | Some w =>
          match stmt w with
          | Ok w' => (Ok tt, {| committed := committed q;
                                transaction := Some w';
                                steps := steps q |})
          | Err e => (Err e, q)
          end
      | None =>
          match stmt (committed q) with
          | Ok w' => (Ok tt, {| committed := w';
                                transaction := None;
                                steps := steps q |})
          | Err e => (Err e, q)
          end
      end.

(** [await queryRunner.commitTransaction()] *)
Definition commitTransaction {H C} (env : Env) : Tx H C unit :=
  fun q =>
    let q := record_step CommitTransaction q in
    if fails env CommitTransaction
    then (Err (ConnectionFailure CommitTransaction),
          {| committed := committed q; transaction := None; steps := steps q |})
    else
      (Ok tt, {| committed := default (committed q) (transaction q);
                 transaction := None;
                 steps := steps q |}).

(** [await queryRunner.rollbackTransaction()] *)
Definition rollbackTransaction {H C} (env : Env) : Tx H C unit :=
  fun q =>
    let q := record_step RollbackTransaction q in
    let q' := {| committed := committed q; transaction := None; steps := steps q |} in
    if fails env RollbackTransaction
    then (Err (ConnectionFailure RollbackTransaction), q')
    else (Ok tt, q').

(** [await queryRunner.release()] *)
Definition release {H C} : Tx H C unit :=
  fun q => (Ok tt, record_step Release q).

(** *** The two statements

<<
   INSERT INTO <class>_telemetry_history (<id>, <values...>, recorded_at)
   VALUES ($1, ...), ($k+1, ...), ...
>>
    One row per record, appended in order; [ingested_at] takes its default
    [NOW()].  Any value that does not fit its column fails the statement. *)
Definition insert_history `{Telemetry D H C V} (env : Env) (records : list D)
    (t : Tables H C) : pg_result (Tables H C) :=
  rows ← traverse (history_row (Date env) (NOW env)) records;
  Ok {| cold := cold t ++ rows; hot := hot t |}.

(**
<<
   INSERT INTO <class>_current_status (<id>, <values...>, last_seen_at, updated_at)
   VALUES ($1, ..., NOW()), ...
   ON CONFLICT (<id>) DO UPDATE SET
     <values...>  = EXCLUDED.<values...>,
     last_seen_at = EXCLUDED.last_seen_at,
     updated_at   = NOW()
   WHERE <class>_current_status.last_seen_at < EXCLUDED.last_seen_at
>>
    The proposed rows are taken in order.  A row whose key is absent is
    inserted.  A row whose key is present conflicts with the existing row:
    when that row was inserted or updated earlier by this same statement the
    statement fails, otherwise the existing row is replaced if the [WHERE]
    condition holds and kept if not.  The failure is PostgreSQL's rule that
    [INSERT ... ON CONFLICT DO UPDATE] is deterministic: the command may not
    affect a row more than once, and rows proposed for insertion must not
    duplicate each other on the conflict target; the error is
    [cardinality_violation], "ON CONFLICT DO UPDATE command cannot affect
    row a second time", and it is raised when the conflicting row is found,
    before the [WHERE] condition is looked at.  A row that was only kept (its
    [WHERE] condition was false) has not been affected and may be proposed
    again.  [touched] is the set of keys this statement has inserted or
    updated. *)
Fixpoint on_conflict_do_update `{Telemetry D H C V} (rows : list C)
    (touched : gset string) (t : gmap string C) : pg_result (gmap string C) :=
  match rows with
  | [] => Ok t
  | excluded :: rest =>
      let k := hot_id excluded in
      match t !! k with
      | None =>
          on_conflict_do_update rest ({[k]} ∪ touched) (<[k := excluded]> t)
      | Some existing =>
          if decide (k ∈ touched) then Err CardinalityViolation
          else if hot_last_seen_at existing <? hot_last_seen_at excluded
               then on_conflict_do_update rest ({[k]} ∪ touched) (<[k := excluded]> t)
               else on_conflict_do_update rest touched t
      end
  end.

Definition upsert_current `{Telemetry D H C V} (env : Env) (records : list D)
    (t : Tables H C) : pg_result (Tables H C) :=
  rows ← traverse (current_row (Date env) (NOW env)) records;
  hot' ← on_conflict_do_update rows ∅ (hot t);
  Ok {| cold := cold t; hot := hot' |}.

(** *** ingestBatch (both repositories)

    Bulk insert into the cold store and upsert into the hot store within a
    single transaction. *)
Definition ingestBatch `{Telemetry D H C V} (env : Env) (records : list D)
    : Tx H C unit :=
  if (length records =? 0)%nat then mret tt
  else
    connect env;;
    startTransaction env;;
    try_finally
      (try_catch
         (query env InsertHistory (insert_history env records);;
          query env UpsertCurrent (upsert_current env records);;
          commitTransaction env)
         (fun error => rollbackTransaction env;; throw error))
      release.

(** The tables after a call on a fresh query runner, with its outcome and
    the steps it performed. *)
Definition run_ingestBatch `{Telemetry D H C V} (env : Env) (records : list D)
    (t : Tables H C) : pg_result unit * Tables H C * list DbStep :=
  match ingestBatch env records
          {| committed := t; transaction := None; steps := [] |} with
  | (r, q) => (r, committed q, steps q)
  end.

(** ** The vehicle and the meter repository *)

Module VehicleTelemetryRepository.

(** [(vehicle_id, soc, kwh_delivered_dc, battery_temp, recorded_at)] bound
    to [records[i].vehicleId, .soc, .kwhDeliveredDc, .batteryTemp,
    new Date(records[i].timestamp)]. *)
Definition history_values (date : string -> option Z) (now : Z)
    (r : VehiclePayloadDto) : pg_result VehicleTelemetryHistory :=
  id ← varchar 64 (vehicleId r);
  s ← numeric 5 2 (soc r);
  k ← numeric 10 4 (kwhDeliveredDc r);
  b ← numeric 5 2 (batteryTemp r);
  t ← timestamptz (date (v_timestamp r));
  Ok {| vh_vehicle_id := id; vh_soc := s; vh_kwh_delivered_dc := k;
        vh_battery_temp := b; vh_recorded_at := t; vh_ingested_at := now |}.

(** [(vehicle_id, soc, kwh_delivered_dc, battery_temp, last_seen_at,
    updated_at)] with [updated_at = NOW()]. *)
Definition upsert_values (date : string -> option Z) (now : Z)
    (r : VehiclePayloadDto) : pg_result VehicleCurrentStatus :=
  id ← varchar 64 (vehicleId r);
  s ← numeric 5 2 (soc r);
  k ← numeric 10 4 (kwhDeliveredDc r);
  b ← numeric 5 2 (batteryTemp r);
  t ← timestamptz (date (v_timestamp r));
  Ok {| vc_vehicle_id := id; vc_soc := s; vc_kwh_delivered_dc := k;
        vc_battery_temp := b; vc_last_seen_at := t; vc_updated_at := now |}.

#[global] Instance telemetry :
  Telemetry VehiclePayloadDto VehicleTelemetryHistory VehicleCurrentStatus
            (Z * Z * Z) := {|
  history_row := history_values;
  current_row := upsert_values;
  cold_id := vh_vehicle_id;
  cold_recorded_at := vh_recorded_at;
  cold_values := fun h => (vh_soc h, vh_kwh_delivered_dc h, vh_battery_temp h);
  hot_id := vc_vehicle_id;
  hot_last_seen_at := vc_last_seen_at;
  hot_values := fun c => (vc_soc c, vc_kwh_delivered_dc c, vc_battery_temp c)
|}.

Definition ingestBatch (env : Env) (records : list VehiclePayloadDto)
  : Tx VehicleTelemetryHistory VehicleCurrentStatus unit :=
  ingestBatch env records.

End VehicleTelemetryRepository.

Module MeterTelemetryRepository.

(** [(meter_id, kwh_consumed_ac, voltage, recorded_at)] *)
Definition history_values (date : string -> option Z) (now : Z)
    (r : MeterPayloadDto) : pg_result MeterTelemetryHistory :=
  id ← varchar 64 (meterId r);
  k ← numeric 10 4 (kwhConsumedAc r);
  v ← numeric 6 2 (voltage r);
  t ← timestamptz (date (m_timestamp r));
  Ok {| mh_meter_id := id; mh_kwh_consumed_ac := k; mh_voltage := v;
        mh_recorded_at := t; mh_ingested_at := now |}.

(** [(meter_id, kwh_consumed_ac, voltage, last_seen_at, updated_at)] *)
Definition upsert_values (date : string -> option Z) (now : Z)
    (r : MeterPayloadDto) : pg_result MeterCurrentStatus :=
  id ← varchar 64 (meterId r);
  k ← numeric 10 4 (kwhConsumedAc r);
  v ← numeric 6 2 (voltage r);
  t ← timestamptz (date (m_timestamp r));
  Ok {| mc_meter_id := id; mc_kwh_consumed_ac := k; mc_voltage := v;
        mc_last_seen_at := t; mc_updated_at := now |}.

#[global] Instance telemetry :
  Telemetry MeterPayloadDto MeterTelemetryHistory MeterCurrentStatus
            (Z * Z) := {|
  history_row := history_values;
  current_row := upsert_values;
  cold_id := mh_meter_id;
  cold_recorded_at := mh_recorded_at;
  cold_values := fun h => (mh_kwh_consumed_ac h, mh_voltage h);
  hot_id := mc_meter_id;
  hot_last_seen_at := mc_last_seen_at;
  hot_values := fun c => (mc_kwh_consumed_ac c, mc_voltage c)
|}.

Definition ingestBatch (env : Env) (records : list MeterPayloadDto)
  : Tx MeterTelemetryHistory MeterCurrentStatus unit :=
  ingestBatch env records.

End MeterTelemetryRepository.

Definition VehicleTables := Tables VehicleTelemetryHistory VehicleCurrentStatus.
Definition MeterTables := Tables MeterTelemetryHistory MeterCurrentStatus.

(** ** IngestionBufferService (ingestion-buffer.service.ts)

    [flushVehicles] and [flushMeters] are asynchronous: a call runs up to
    [await repo.ingestBatch(batch)], is suspended there while other pushes
    and flushes run, and is resumed with the outcome of the repository.
    [vehicleFlushes] and [meterFlushes] hold the batches of the suspended
    calls, oldest first. *)

Record IngestionBufferService := {
  vehicleBuffer : list VehiclePayloadDto;
  meterBuffer : list MeterPayloadDto;
  flushTimer : bool;                  (* the interval timer is armed *)
  FLUSH_SIZE : option Z;              (* parseInt(...): [None] is NaN *)
  vehicleFlushes : list (list VehiclePayloadDto);
  meterFlushes : list (list MeterPayloadDto)
}.

Definition set_vehicleBuffer (l : list VehiclePayloadDto) (b : IngestionBufferService) :=
  {| vehicleBuffer := l; meterBuffer := meterBuffer b; flushTimer := flushTimer b;
     FLUSH_SIZE := FLUSH_SIZE b; vehicleFlushes := vehicleFlushes b;
     meterFlushes := meterFlushes b |}.

Definition set_meterBuffer (l : list MeterPayloadDto) (b : IngestionBufferService) :=
  {| vehicleBuffer := vehicleBuffer b; meterBuffer := l; flushTimer := flushTimer b;
     FLUSH_SIZE := FLUSH_SIZE b; vehicleFlushes := vehicleFlushes b;
     meterFlushes := meterFlushes b |}.

Definition set_vehicleFlushes (l : list (list VehiclePayloadDto)) (b : IngestionBufferService) :=
  {| vehicleBuffer := vehicleBuffer b; meterBuffer := meterBuffer b;
     flushTimer := flushTimer b; FLUSH_SIZE := FLUSH_SIZE b;
     vehicleFlushes := l; meterFlushes := meterFlushes b |}.

Definition set_meterFlushes (l : list (list MeterPayloadDto)) (b : IngestionBufferService) :=
  {| vehicleBuffer := vehicleBuffer b; meterBuffer := meterBuffer b;
     flushTimer := flushTimer b; FLUSH_SIZE := FLUSH_SIZE b;
     vehicleFlushes := vehicleFlushes b; meterFlushes := l |}.

Definition set_flushTimer (t : bool) (b : IngestionBufferService) :=
  {| vehicleBuffer := vehicleBuffer b; meterBuffer := meterBuffer b;
     flushTimer := t; FLUSH_SIZE := FLUSH_SIZE b;
     vehicleFlushes := vehicleFlushes b; meterFlushes := meterFlushes b |}.

(** The constructor; [flush_size] is [parseInt(process.env.BUFFER_FLUSH_SIZE
    ?? '500', 10)]. *)
Definition new_IngestionBufferService (flush_size : option Z) : IngestionBufferService :=
  {| vehicleBuffer := []; meterBuffer := []; flushTimer := false;
     FLUSH_SIZE := flush_size; vehicleFlushes := []; meterFlushes := [] |}.

(** [length >= this.FLUSH_SIZE]; a comparison with NaN is false. *)
Definition reaches_FLUSH_SIZE (len : nat) (b : IngestionBufferService) : bool :=
  match FLUSH_SIZE b with
  | Some n => n <=? Z.of_nat len
  | None => false
  end.

(** [flushVehicles], up to the [await]: return on an empty buffer, otherwise
    swap the buffer for a fresh one and call the repository with the batch. *)
Definition flushVehicles (b : IngestionBufferService) : IngestionBufferService :=
  if (length (vehicleBuffer b) =? 0)%nat then b
  else
    let batch := vehicleBuffer b in
    let b := set_vehicleBuffer [] b in
    set_vehicleFlushes (vehicleFlushes b ++ [batch]) b.

(** [flushVehicles], after the [await]: on an error the batch is put back in
    front of whatever the buffer holds by then. *)
Definition flushVehicles_resume (batch : list VehiclePayloadDto)
    (outcome : pg_result unit) (b : IngestionBufferService) : IngestionBufferService :=
  match outcome with
  | Ok _ => b
  | Err _ => set_vehicleBuffer (batch ++ vehicleBuffer b) b
  end.

Definition flushMeters (b : IngestionBufferService) : IngestionBufferService :=
  if (length (meterBuffer b) =? 0)%nat then b
  else
    let batch := meterBuffer b in
    let b := set_meterBuffer [] b in
    set_meterFlushes (meterFlushes b ++ [batch]) b.

Definition flushMeters_resume (batch : list MeterPayloadDto)
    (outcome : pg_result unit) (b : IngestionBufferService) : IngestionBufferService :=
  match outcome with
  | Ok _ => b
  | Err _ => set_meterBuffer (batch ++ meterBuffer b) b
  end.

(** [flushAll]: both flushes are started, in this order. *)
Definition flushAll (b : IngestionBufferService) : IngestionBufferService :=
  flushMeters (flushVehicles b).

Definition pushVehicle (record : VehiclePayloadDto) (b : IngestionBufferService)
  : IngestionBufferService :=
  let b := set_vehicleBuffer (vehicleBuffer b ++ [record]) b in
  if reaches_FLUSH_SIZE (length (vehicleBuffer b)) b then flushVehicles b else b.

Definition pushMeter (record : MeterPayloadDto) (b : IngestionBufferService)
  : IngestionBufferService :=
  let b := set_meterBuffer (meterBuffer b ++ [record]) b in
  if reaches_FLUSH_SIZE (length (meterBuffer b)) b then flushMeters b else b.

Definition getBufferDepth (b : IngestionBufferService) : nat * nat :=
  (length (vehicleBuffer b), length (meterBuffer b)).

Definition onModuleInit (b : IngestionBufferService) : IngestionBufferService :=
  set_flushTimer true b.

(** [onModuleDestroy], up to the [await]: stop the timer, start the drain. *)
Definition onModuleDestroy (b : IngestionBufferService) : IngestionBufferService :=
  flushAll (set_flushTimer false b).

(** ** The running process: the buffer service and the database *)

Record System := {
  buffer : IngestionBufferService;
  vehicle_tables : VehicleTables;
  meter_tables : MeterTables
}.

Inductive Event :=
  | PushVehicle (record : VehiclePayloadDto)
  | PushMeter (record : MeterPayloadDto)
  | TimerFires
  | VehicleFlushSettles (i : nat) (env : Env)   (* the i-th suspended flushVehicles *)
  | MeterFlushSettles (i : nat) (env : Env)
  | Shutdown.

(** What an event makes the repositories do: the calls that return. *)
Inductive RepositoryCall :=
  | VehicleBatch (batch : list VehiclePayloadDto) (outcome : pg_result unit)
      (steps : list DbStep)
  | MeterBatch (batch : list MeterPayloadDto) (outcome : pg_result unit)
      (steps : list DbStep).

Definition step (e : Event) (s : System) : System * list RepositoryCall :=
  match e with
  | PushVehicle r =>
      ({| buffer := pushVehicle r (buffer s);
          vehicle_tables := vehicle_tables s; meter_tables := meter_tables s |}, [])
  | PushMeter r =>
      ({| buffer := pushMeter r (buffer s);
          vehicle_tables := vehicle_tables s; meter_tables := meter_tables s |}, [])
  | TimerFires =>
      if flushTimer (buffer s)
      then ({| buffer := flushAll (buffer s);
               vehicle_tables := vehicle_tables s; meter_tables := meter_tables s |}, [])
      else (s, [])
  | VehicleFlushSettles i env =>
      match vehicleFlushes (buffer s) !! i with
      | None => (s, [])
      | Some batch =>
          match run_ingestBatch env batch (vehicle_tables s) with
          | (outcome, tables, trace) =>
              let b := set_vehicleFlushes (delete i (vehicleFlushes (buffer s))) (buffer s) in
              ({| buffer := flushVehicles_resume batch outcome b;
                  vehicle_tables := tables; meter_tables := meter_tables s |},
               [VehicleBatch batch outcome trace])
          end
      end
  | MeterFlushSettles i env =>
      match meterFlushes (buffer s) !! i with
      | None => (s, [])
      | Some batch =>
          match run_ingestBatch env batch (meter_tables s) with
          | (outcome, tables, trace) =>
              let b := set_meterFlushes (delete i (meterFlushes (buffer s))) (buffer s) in
              ({| buffer := flushMeters_resume batch outcome b;
                  vehicle_tables := vehicle_tables s; meter_tables := tables |},
               [MeterBatch batch outcome trace])
          end
      end
  | Shutdown =>
      ({| buffer := onModuleDestroy (buffer s);
          vehicle_tables := vehicle_tables s; meter_tables := meter_tables s |}, [])
  end.

Fixpoint run (events : list Event) (s : System) : System * list RepositoryCall :=
  match events with
  | [] => (s, [])
  | e :: rest =>
      let '(s', calls) := step e s in
      let '(s'', calls') := run rest s' in
      (s'', calls ++ calls')
  end.

(** ** Validation (dto/ingest-telemetry.dto.ts, class-validator)

    A request body is JSON: its property values are JavaScript values. *)

Inductive number :=
  | Finite (q : Q)
  | NaN
  | PosInfinity
  | NegInfinity.

Inductive JsValue :=
  | JsUndefined
  | JsNull
  | JsBoolean (b : bool)
  | JsNumber (n : number)
  | JsString (s : string)
  | JsObject.                 (* any other object or array *)

(** A plain object: its own properties; an absent one reads [undefined]. *)
Definition property (o : gmap string JsValue) (name : string) : JsValue :=
  default JsUndefined (o !! name).

(** The decorators the DTOs use. *)
Inductive Decorator :=
  | IsString
  | IsNotEmpty
  | IsNumber
  | Min (n : Z)
  | Max (n : Z)
  | IsDateString.

(** Whether a value passes a decorator.  [isISO8601] is the string test of
    the validator library behind [@IsDateString()]. *)
Definition passes (isISO8601 : string -> bool) (d : Decorator) (v : JsValue) : bool :=
  match d, v with
  | IsString, JsString _ => true
  | IsString, _ => false
  | IsNotEmpty, JsString s => negb (String.eqb s EmptyString)
  | IsNotEmpty, JsNull => false
  | IsNotEmpty, JsUndefined => false
  | IsNotEmpty, _ => true
  | IsNumber, JsNumber (Finite _) => true
  | IsNumber, _ => false
  | Min n, JsNumber (Finite q) => Qle_bool (inject_Z n) q
  | Min n, JsNumber PosInfinity => true
  | Min n, _ => false
  | Max n, JsNumber (Finite q) => Qle_bool q (inject_Z n)
  | Max n, JsNumber NegInfinity => true
  | Max n, _ => false
  | IsDateString, JsString s => isISO8601 s
  | IsDateString, _ => false
  end.

(** The default message of a failed decorator. *)
Definition defaultMessage (d : Decorator) (property : string) : string :=
  match d with
  | IsString => property +:+ " must be a string"
  | IsNotEmpty => property +:+ " should not be empty"
  | IsNumber => property +:+ " must be a number conforming to the specified constraints"
  | Min n => property +:+ " must not be less than " +:+ pretty n
  | Max n => property +:+ " must not be greater than " +:+ pretty n
  | IsDateString => property +:+ " must be a valid ISO 8601 date string"
  end.

Record ValidationError := {
  ve_property : option string;    (* [None] is [undefined] *)
  constraints : list string       (* Object.values(e.constraints) *)
}.

(** The decorated properties of a DTO class. *)
Definition Metadata := list (string * list Decorator).

Definition VehiclePayloadDto_metadata : Metadata :=
  [ ("vehicleId", [IsString; IsNotEmpty]);
    ("soc", [IsNumber; Min 0; Max 100]);
    ("kwhDeliveredDc", [IsNumber; Min 0]);
    ("batteryTemp", [IsNumber]);
    ("timestamp", [IsDateString]) ]%string.

Definition MeterPayloadDto_metadata : Metadata :=
  [ ("meterId", [IsString; IsNotEmpty]);
    ("kwhConsumedAc", [IsNumber; Min 0]);
    ("voltage", [IsNumber; Min 0]);
    ("timestamp", [IsDateString]) ]%string.

(** The validation of an instance of a decorated class: one error per
    property with a failed decorator. *)
Definition validate (isISO8601 : string -> bool) (meta : Metadata)
    (o : gmap string JsValue) : list ValidationError :=
  flat_map
    (fun '(name, decorators) =>
       let failed :=
         filter (fun d => passes isISO8601 d (property o name) = false) decorators in
       match failed with
       | [] => []
       | _ => [ {| ve_property := Some name;
                   constraints := map (fun d => defaultMessage d name) failed |} ]
       end)
    meta.

(** The validated object at its TypeScript type. *)
Definition as_string (v : JsValue) : option string :=
  match v with JsString s => Some s | _ => None end.

Definition as_number (v : JsValue) : option Q :=
  match v with JsNumber (Finite q) => Some q | _ => None end.

Definition as_VehiclePayloadDto (o : gmap string JsValue) : option VehiclePayloadDto :=
  id ← as_string (property o "vehicleId");
  s ← as_number (property o "soc");
  k ← as_number (property o "kwhDeliveredDc");
  b ← as_number (property o "batteryTemp");
  t ← as_string (property o "timestamp");
  Some {| vehicleId := id; soc := s; kwhDeliveredDc := k; batteryTemp := b;
          v_timestamp := t |}.

Definition as_MeterPayloadDto (o : gmap string JsValue) : option MeterPayloadDto :=
  id ← as_string (property o "meterId");
  k ← as_number (property o "kwhConsumedAc");
  v ← as_number (property o "voltage");
  t ← as_string (property o "timestamp");
  Some {| meterId := id; kwhConsumedAc := k; voltage := v; m_timestamp := t |}.

(** ** Exceptions and the exception filter (all-exceptions.filter.ts) *)

Inductive HttpException :=
  | BadRequestException (message : string) (errors : list string)    (* 400 *)
  | NotFoundException (message : string).                            (* 404 *)

Definition getStatus (e : HttpException) : Z :=
  match e with
  | BadRequestException _ _ => 400
  | NotFoundException _ => 404
  end.

Definition http_result := result HttpException.

(** What a request handler can throw: an [HttpException], or an error of
    the runtime. *)
Inductive Exception :=
  | Http (e : HttpException)
  | TypeError (message : string).

Module AllExceptionsFilter.

(** [catch]: the status of the response and its [error] field, [None]
    standing for ['Internal server error']. *)
Definition catch (exception : Exception) : Z * option HttpException :=
  match exception with
  | Http e => (getStatus e, Some e)
  | _ => (500, None)
  end.

End AllExceptionsFilter.

(** ** The payload of a request

    The [payload] of [IngestTelemetryDto] is only asked to be non-empty, and
    the service takes it as [unknown]: it is any JSON value. *)

Inductive Payload :=
  | PObject (o : gmap string JsValue)     (* a plain object *)
  | PArray (items : list JsValue)
  | PString (s : string)
  | PNumber (n : number)
  | PBoolean (b : bool)
  | PNull
  | PUndefined.

(** [plainToInstance(cls, plain)] (class-transformer).  A plain object
    becomes [new cls()] with the properties of the object; an array becomes
    the array of its transformed items and every other value is returned as
    it is: none of these is an instance of the class. *)
Inductive Transformed :=
  | Instance (cls : Metadata) (o : gmap string JsValue)
  | NotAnInstance (plain : Payload).

Definition plainToInstance (cls : Metadata) (plain : Payload) : Transformed :=
  match plain with
  | PObject o => Instance cls o
  | _ => NotAnInstance plain
  end.

(** The error of a value whose constructor has no validation metadata. *)
Definition unknownValue : ValidationError :=
  {| ve_property := None;
     constraints := ["an unknown value was passed to the validate function"%string] |}.

(** [validate(object)] (class-validator 0.14, default options).  A string in the
    first position is taken for a schema name, and the object to validate
    is then the missing second argument; reading [object.constructor] of
    [undefined] or [null] throws a TypeError.  A value whose constructor
    (Array, Number, Boolean) has no validation metadata is an unknown value
    ([forbidUnknownValues] is on unless it is switched off).  An instance of
    a decorated class is validated against its decorators. *)
Definition class_validate (isISO8601 : string -> bool) (object : Transformed)
  : result Exception (list ValidationError) :=
  match object with
  | Instance [] _ => Ok [unknownValue]
  | Instance cls o => Ok (validate isISO8601 cls o)
  | NotAnInstance (PString _) | NotAnInstance PUndefined =>
      Err (TypeError "Cannot read properties of undefined (reading 'constructor')")
  | NotAnInstance PNull =>
      Err (TypeError "Cannot read properties of null (reading 'constructor')")
  | NotAnInstance _ => Ok [unknownValue]
  end.

(** ** TelemetryService (telemetry.service.ts) *)

Module TelemetryService.

(** [ingestVehicle]: transform, validate, then push.  The last two branches
    are not reachable: a value without validation errors is an instance
    whose properties have the types of the DTO (lemma
    [validated_vehicle_is_typed]). *)
Definition ingestVehicle (isISO8601 : string -> bool) (payload : Payload)
    (b : IngestionBufferService) : result Exception IngestionBufferService :=
  let vehicleDto := plainToInstance VehiclePayloadDto_metadata payload in
  errors ← class_validate isISO8601 vehicleDto;
  if (0 <? length errors)%nat then
    let messages := flat_map constraints errors in
    Err (Http (BadRequestException "Invalid VEHICLE payload" messages))
  else
    match vehicleDto with
    | Instance _ o =>
        match as_VehiclePayloadDto o with
        | Some dto => Ok (pushVehicle dto b)
        | None => Ok b
        end
    | NotAnInstance _ => Ok b
    end.

Definition ingestMeter (isISO8601 : string -> bool) (payload : Payload)
    (b : IngestionBufferService) : result Exception IngestionBufferService :=
  let meterDto := plainToInstance MeterPayloadDto_metadata payload in
  errors ← class_validate isISO8601 meterDto;
  if (0 <? length errors)%nat then
    let messages := flat_map constraints errors in
    Err (Http (BadRequestException "Invalid METER payload" messages))
  else
    match meterDto with
    | Instance _ o =>
        match as_MeterPayloadDto o with
        | Some dto => Ok (pushMeter dto b)
        | None => Ok b
        end
    | NotAnInstance _ => Ok b
    end.

(** [ingest]: dispatch on the discriminator. *)
Definition ingest (isISO8601 : string -> bool) (type : string)
    (payload : Payload) (b : IngestionBufferService)
  : result Exception IngestionBufferService :=
  if String.eqb type "VEHICLE" then ingestVehicle isISO8601 payload b
  else if String.eqb type "METER" then ingestMeter isISO8601 payload b
  else Err (Http (BadRequestException
                    ("Unknown telemetry type: " +:+ type
                       +:+ ". Expected METER or VEHICLE.")
                    [])).

Definition getBufferStatus (b : IngestionBufferService) : nat * nat :=
  getBufferDepth b.

End TelemetryService.

(** ** AnalyticsService (analytics.service.ts)

    The service reads committed data through [dataSource.query]; every call
    is recorded with the statement it sends. *)

Record Database := {
  vehicles : VehicleTables;
  meters : MeterTables;
  vehicle_meter_link : gmap string VehicleMeterLink    (* primary key vehicle_id *)
}.

Inductive Query :=
  | SelectVehicleHistory (deviceId : string) (from to : Z) (limit : nat)
  | SelectMeterHistory (deviceId : string) (from to : Z) (limit : nat)
  | SelectVehicleCurrentStatus (deviceId : string)
  | SelectMeterCurrentStatus (deviceId : string)
  | SelectVehicleHourlyStats (from to : Z)
  | SelectMeterHourlyStats (from to : Z)
  | SelectVehicleMeterLink (vehicleId : string)
  | SelectPerformance (vehicleId meterId : string).

Inductive StatusRow :=
  | VehicleStatus (row : VehicleCurrentStatus)
  | MeterStatus (row : MeterCurrentStatus).

Inductive HistoryRows :=
  | VehicleHistory (rows : list (string * Z * Z * Z * Z))
  | MeterHistory (rows : list (string * Z * Z * Z)).

Record VehiclePerformance := {
  p_vehicleId : string;
  p_meterId : string;
  totalAcConsumed : number;
  totalDcDelivered : number;
  efficiencyRatio : number;
  averageBatteryTemp : number
}.

Definition double_quote : string := String (ascii_of_nat 34) EmptyString.

(** [INTERVAL '24 hours'] in milliseconds. *)
Definition hours_24 : Z := 24 * 60 * 60 * 1000.

(** A [NUMERIC(_, s)] column value as the number it stands for. *)
Definition of_numeric (s : nat) (v : Z) : Q := inject_Z v / inject_Z (pow10 s).

(** [SUM(col)]: NULL over no rows. *)
Definition SUM (l : list Q) : option Q :=
  match l with
  | [] => None
  | _ => Some (foldr Qplus 0%Q l)
  end.

(** [AVG(col)] for a column of display scale [dscale]: NULL over no rows,
    and otherwise the sum divided by the number of rows, as [NUMERIC]
    values. *)
Definition AVG (dscale : nat) (l : list Q) : option Q :=
  match l with
  | [] => None
  | _ => Some (numeric_div (foldr Qplus 0%Q l) (inject_Z (Z.of_nat (length l)))
                           dscale 0)
  end.

Definition COALESCE (v : option Q) (d : Q) : Q := default d v.

(** The display scale of [COALESCE(SUM(col), 0)] for a column of display
    scale [dscale]: that of the sum, or that of the literal. *)
Definition COALESCE_dscale {A} (rows : list A) (dscale : nat) : nat :=
  match rows with
  | [] => 0%nat
  | _ => dscale
  end.

(** [ROUND(x, 2)] *)
Definition ROUND2 (x : Q) : Q :=
  (inject_Z (round_half_away (x * 100)) / 100)%Q.

(** The Number value for a real number (IEEE 754 binary64, round to
    nearest, ties to even): the nearest [m * 2^e] with [|m| <= 2^53] and
    [e >= -1074], and an infinity from [2^1024 - 2^970] on. *)
Definition round_half_even (n d : Z) : Z :=
  let q := n / d in
  let r := n mod d in
  if 2 * r <? d then q
  else if d <? 2 * r then q + 1
  else if Z.even q then q else q + 1.

(** [n / (d * 2^e)] as a fraction of integers. *)
Definition scaled (n d e : Z) : Z * Z :=
  if 0 <=? e then (n, d * 2 ^ e) else (n * 2 ^ (- e), d).

Definition binary64 (x : Q) : number :=
  let x := Qred x in
  let n := Z.abs (Qnum x) in
  let d := Z.pos (Qden x) in
  if n =? 0 then Finite 0
  else
    let k := Z.log2 n - Z.log2 d in              (* 2^(k-1) < n/d < 2^(k+1) *)
    let l := let '(a, c) := scaled n d k in if c <=? a then k else k - 1 in
    let e := Z.max (l - 52) (-1074) in
    let m := let '(a, c) := scaled n d e in round_half_even a c in
    if 2 ^ 1024 <=? m * 2 ^ Z.max e 0 then
      if 0 <=? Qnum x then PosInfinity else NegInfinity
    else
      Finite (Qred (inject_Z (Z.sgn (Qnum x) * m)
                    * (if 0 <=? e then inject_Z (2 ^ e)
                       else 1 # Z.to_pos (2 ^ (- e))))).

(** [parseFloat] of a column of the result row, which the driver returns
    as a decimal string; NULL gives NaN. *)
Definition parseFloat (v : option Q) : number :=
  match v with
  | Some q => binary64 q
  | None => NaN
  end.

Module AnalyticsService.

Definition newer_first {A} (at_ : A -> Z) (x y : A) : Prop := at_ y <= at_ x.

#[global] Instance newer_first_dec {A} (at_ : A -> Z) x y :
  Decision (newer_first at_ x y).
Proof. unfold newer_first. apply _. Defined.

(** [getDeviceHistory]; [from] and [to] are the instants the two strings
    denote. *)
Definition getDeviceHistory (db : Database) (deviceType deviceId : string)
    (from to : Z) (limit : nat) : http_result HistoryRows * list Query :=
  if String.eqb deviceType "VEHICLE" then
    let rows :=
      filter (fun r => vh_vehicle_id r = deviceId
                       /\ from <= vh_recorded_at r /\ vh_recorded_at r < to)
             (cold (vehicles db)) in
    let rows := merge_sort (newer_first vh_recorded_at) rows in
    (Ok (VehicleHistory
           (map (fun r => (vh_vehicle_id r, vh_soc r, vh_kwh_delivered_dc r,
                           vh_battery_temp r, vh_recorded_at r))
                (take limit rows))),
     [SelectVehicleHistory deviceId from to limit])
  else if String.eqb deviceType "METER" then
    let rows :=
      filter (fun r => mh_meter_id r = deviceId
                       /\ from <= mh_recorded_at r /\ mh_recorded_at r < to)
             (cold (meters db)) in
    let rows := merge_sort (newer_first mh_recorded_at) rows in
    (Ok (MeterHistory
           (map (fun r => (mh_meter_id r, mh_kwh_consumed_ac r, mh_voltage r,
                           mh_recorded_at r))
                (take limit rows))),
     [SelectMeterHistory deviceId from to limit])
  else
    (Err (BadRequestException ("Unknown device type: " +:+ deviceType) []), []).

(** [getLiveStatus]; [None] is [null]. *)
Definition getLiveStatus (db : Database) (deviceType deviceId : string)
  : http_result (option StatusRow) * list Query :=
  if String.eqb deviceType "VEHICLE" then
    let rows := option_list (hot (vehicles db) !! deviceId) in
    (Ok (VehicleStatus <$> head rows), [SelectVehicleCurrentStatus deviceId])
  else
    let rows := option_list (hot (meters db) !! deviceId) in
    (Ok (MeterStatus <$> head rows), [SelectMeterCurrentStatus deviceId]).

(** [getFleetSummary].  The rollup tables are filled outside these
    services; [rollup] gives the rows the database returns for the
    statement. *)
Definition getFleetSummary {R} (rollup : Query -> list R) (deviceType : string)
    (from to : Z) : http_result (list R) * list Query :=
  if String.eqb deviceType "VEHICLE" then
    (Ok (rollup (SelectVehicleHourlyStats from to)), [SelectVehicleHourlyStats from to])
  else if String.eqb deviceType "METER" then
    (Ok (rollup (SelectMeterHourlyStats from to)), [SelectMeterHourlyStats from to])
  else
    (Err (BadRequestException ("Unknown device type: " +:+ deviceType) []), []).

(** The rows of the two CTEs of the performance statement. *)
Definition vehicle_stats_rows (db : Database) (now : Z) (vehicleId : string)
  : list VehicleTelemetryHistory :=
  filter (fun r => vh_vehicle_id r = vehicleId /\ now - hours_24 <= vh_recorded_at r)
         (cold (vehicles db)).

Definition meter_stats_rows (db : Database) (now : Z) (meterId : string)
  : list MeterTelemetryHistory :=
  filter (fun r => mh_meter_id r = meterId /\ now - hours_24 <= mh_recorded_at r)
         (cold (meters db)).

Definition total_dc_delivered (db : Database) (now : Z) (vehicleId : string) : Q :=
  COALESCE (SUM (map (fun r => of_numeric 4 (vh_kwh_delivered_dc r))
                     (vehicle_stats_rows db now vehicleId))) 0.

Definition avg_battery_temp (db : Database) (now : Z) (vehicleId : string) : option Q :=
  ROUND2 <$> AVG 2 (map (fun r => of_numeric 2 (vh_battery_temp r))
                        (vehicle_stats_rows db now vehicleId)).

Definition total_ac_consumed (db : Database) (now : Z) (meterId : string) : Q :=
  COALESCE (SUM (map (fun r => of_numeric 4 (mh_kwh_consumed_ac r))
                     (meter_stats_rows db now meterId))) 0.

(** [getVehiclePerformance]; [now] is [NOW()] when the statement runs. *)
Definition getVehiclePerformance (db : Database) (now : Z) (vehicleId : string)
  : http_result VehiclePerformance * list Query :=
  let linkRows := option_list (l_meter_id <$> vehicle_meter_link db !! vehicleId) in
  match linkRows with
  | [] =>
      (Err (NotFoundException
              ("Vehicle " +:+ double_quote +:+ vehicleId +:+ double_quote
                 +:+ " not found or has no linked meter")),
       [SelectVehicleMeterLink vehicleId])
  | meterId :: _ =>
      let dc := total_dc_delivered db now vehicleId in
      let ac := total_ac_consumed db now meterId in
      let dc_dscale := COALESCE_dscale (vehicle_stats_rows db now vehicleId) 4 in
      let ac_dscale := COALESCE_dscale (meter_stats_rows db now meterId) 4 in
      let ratio :=
        if Qlt_le_dec 0 ac
        then ROUND2 (numeric_div dc ac dc_dscale ac_dscale * 100)
        else 0%Q in
      (Ok {| p_vehicleId := vehicleId;
             p_meterId := meterId;
             totalAcConsumed := parseFloat (Some ac);
             totalDcDelivered := parseFloat (Some dc);
             efficiencyRatio := parseFloat (Some ratio);
             averageBatteryTemp := parseFloat (avg_battery_temp db now vehicleId) |},
       [SelectVehicleMeterLink vehicleId; SelectPerformance vehicleId meterId])
  end.

End AnalyticsService.

(** ** Notions the properties below are stated with *)

(** The two statements of a repository build their rows from a record in
    the same way. *)
Definition same_reading `{Telemetry D H C V} (h : H) (c : C) : Prop :=
  cold_id h = hot_id c
  /\ cold_recorded_at h = hot_last_seen_at c
  /\ cold_values h = hot_values c.

(** The law the two instances satisfy: for one record the history row and
    the current row either both exist and agree on identifier, timestamp
    and values, or both fail with the same error. *)
Class TelemetryLaws `(T : Telemetry D H C V) := {
  rows_agree : forall date now r,
    match history_row date now r, current_row date now r with
    | Ok h, Ok c => same_reading h c
    | Err e, Err e' => e = e'
    | _, _ => False
    end
}.

(** Latest wins: every current row carries the greatest [recorded_at] among
    the persisted readings of its device, with the values of a reading that
    has this timestamp; and every device with a persisted reading has a
    current row. *)
Definition latest_wins `{Telemetry D H C V} (t : Tables H C) : Prop :=
  (forall d c, hot t !! d = Some c ->
     hot_id c = d
     /\ (exists h, h ∈ cold t /\ cold_id h = d /\ same_reading h c)
     /\ (forall h, h ∈ cold t -> cold_id h = d ->
           cold_recorded_at h <= hot_last_seen_at c))
  /\ (forall h, h ∈ cold t -> is_Some (hot t !! cold_id h)).

Definition empty_tables {H C} : Tables H C := {| cold := []; hot := ∅ |}.

(** A sequence of repository calls, each in its own environment. *)
Fixpoint ingest_all `{Telemetry D H C V} (calls : list (Env * list D))
    (t : Tables H C) : Tables H C :=
  match calls with
  | [] => t
  | (env, records) :: rest => ingest_all rest (run_ingestBatch env records t).1.2
  end.

(** A proposed row is stale when the table holds a row of its device that
    is at least as recent. *)
Definition stale `{Telemetry D H C V} (t : gmap string C) (c : C) : Prop :=
  exists existing, t !! hot_id c = Some existing
                   /\ hot_last_seen_at c <= hot_last_seen_at existing.

(** The [try] block of [ingestBatch]. *)
Definition writes `{Telemetry D H C V} (env : Env) (records : list D) : Tx H C unit :=
  query env InsertHistory (insert_history env records);;
  query env UpsertCurrent (upsert_current env records);;
  commitTransaction env.

(** The query runner once [startTransaction] has returned. *)
Definition started {H C} (t : Tables H C) : QueryRunner H C :=
  {| committed := t; transaction := Some t; steps := [Connect; StartTransaction] |}.

(** All or nothing.  When [ingestBatch] returns, the transaction was
    committed, the history table has one more row per record and every one
    of these readings is covered by the current row of its device.  When it
    throws, both tables are as before; if the transaction had been started
    it was rolled back, and the error thrown is the one the [try] block
    raised (as long as the rollback itself goes through). *)
Definition all_or_nothing `{Telemetry D H C V} (env : Env) (records : list D)
    (t : Tables H C) : Prop :=
  match run_ingestBatch env records t with
  | (Ok _, t', s) =>
      (exists hs, traverse (history_row (Date env) (NOW env)) records = Ok hs
                  /\ cold t' = cold t ++ hs
                  /\ forall h, h ∈ hs ->
                       exists c, hot t' !! cold_id h = Some c
                                 /\ cold_recorded_at h <= hot_last_seen_at c)
      /\ CommitTransaction ∈ s
  | (Err e, t', s) =>
      t' = t
      /\ (fails env Connect = false -> fails env StartTransaction = false ->
          RollbackTransaction ∈ s
          /\ (fails env RollbackTransaction = false ->
              exists q, writes env records (started t) = (Err e, q)))
  end.





(** A device has a reading that is at most 24 hours old. *)
Definition has_reading_24h {A} (id_of : A -> string) (at_ : A -> Z) (table : list A)
    (device : string) (now : Z) : Prop :=
  exists r, r ∈ table /\ id_of r = device /\ now - 86400000 <= at_ r.

(** The status of the response to [POST /v1/telemetry]: 202 when the
    service returns, the status the exception filter sets otherwise. *)
Definition status_of (r : result Exception IngestionBufferService) : Z :=
  match r with
  | Ok _ => 202
  | Err e => (AllExceptionsFilter.catch e).1
  end.

(** ** Sample data

    Two instants of 12 February 2026 as [new Date] reads them, a call
    environment without connection failures, and readings of vehicle
    [V001] and meter [M001]. *)

Definition sample_Date (s : string) : option Z :=
  if String.eqb s "2026-02-12T10:00:00Z" then Some 1770890400000
  else if String.eqb s "2026-02-12T10:00:30Z" then Some 1770890430000
  else None.

Definition sample_isISO8601 (s : string) : bool :=
  String.eqb s "2026-02-12T10:00:00Z" || String.eqb s "2026-02-12T10:00:30Z".

Definition sample_env : Env :=
  {| Date := sample_Date; NOW := 1770890460000; fails := fun _ => false |}.

(** The same environment with the connection lost while the history rows
    are inserted. *)
Definition failing_env : Env :=
  {| Date := sample_Date; NOW := 1770890460000;
     fails := fun s => bool_decide (s = InsertHistory) |}.

Definition V001_at_10_00_00 : VehiclePayloadDto :=
  {| vehicleId := "V001"; soc := 72.5; kwhDeliveredDc := 3.21; batteryTemp := 31.4;
     v_timestamp := "2026-02-12T10:00:00Z" |}.

Definition V001_at_10_00_30 : VehiclePayloadDto :=
  {| vehicleId := "V001"; soc := 73; kwhDeliveredDc := 3.4; batteryTemp := 31.6;
     v_timestamp := "2026-02-12T10:00:30Z" |}.

Definition V002_at_10_00_00 : VehiclePayloadDto :=
  {| vehicleId := "V002"; soc := 85.3; kwhDeliveredDc := 5.45; batteryTemp := 29.8;
     v_timestamp := "2026-02-12T10:00:00Z" |}.

Definition M001_at_10_00_00 : MeterPayloadDto :=
  {| meterId := "M001"; kwhConsumedAc := 4.15; voltage := 232.1;
     m_timestamp := "2026-02-12T10:00:00Z" |}.

Definition M001_at_10_00_30 : MeterPayloadDto :=
  {| meterId := "M001"; kwhConsumedAc := 4.3; voltage := 231.9;
     m_timestamp := "2026-02-12T10:00:30Z" |}.

(** The vehicle tables once [V001_at_10_00_30] has been ingested. *)
Definition vehicle_tables_after_10_00_30 : VehicleTables :=
  (run_ingestBatch sample_env [V001_at_10_00_30] empty_tables).1.2.

Definition meter_tables_after_10_00_30 : MeterTables :=
  (run_ingestBatch sample_env [M001_at_10_00_30] empty_tables).1.2.

(** A process with the default threshold, its timer armed, and the same
    process while a flush of [V001_at_10_00_00] is suspended and
    [V002_at_10_00_00] has been pushed since. *)
Definition sample_system : System :=
  {| buffer := onModuleInit (new_IngestionBufferService (Some 500));
     vehicle_tables := empty_tables;
     meter_tables := empty_tables |}.

Definition system_during_flush : System :=
  (run [PushVehicle V001_at_10_00_00; TimerFires; PushVehicle V002_at_10_00_00]
       sample_system).1.

(** A process started with [BUFFER_FLUSH_SIZE = flush_size]. *)
Definition started_system (flush_size : nat) (tv : VehicleTables) (tm : MeterTables)
  : System :=
  {| buffer := onModuleInit (new_IngestionBufferService (Some (Z.of_nat flush_size)));
     vehicle_tables := tv;
     meter_tables := tm |}.

(** [flush_size + 1] pushes into the empty buffer of a class, the
    repository call succeeding: one flush is started, by the push that
    fills the buffer; it hands the first [flush_size] records to the
    repository; the last record stays in the fresh buffer, also once the
    flush has settled. *)
Definition one_vehicle_size_flush (flush_size : nat) : Prop :=
  forall (rs : list VehiclePayloadDto) (tv : VehicleTables) (tm : MeterTables) env,
    length rs = S flush_size ->
    (run_ingestBatch env (take flush_size rs) tv).1.1 = Ok () ->
    let pushed := run (map PushVehicle rs) (started_system flush_size tv tm) in
    let settled := step (VehicleFlushSettles 0 env) pushed.1 in
    pushed.2 = []
    /\ vehicleFlushes (buffer pushed.1) = [take flush_size rs]
    /\ vehicleBuffer (buffer pushed.1) = drop flush_size rs
    /\ (exists trace, settled.2 = [VehicleBatch (take flush_size rs) (Ok ()) trace])
    /\ vehicleFlushes (buffer settled.1) = []
    /\ vehicleBuffer (buffer settled.1) = drop flush_size rs.

Definition one_meter_size_flush (flush_size : nat) : Prop :=
  forall (rs : list MeterPayloadDto) (tv : VehicleTables) (tm : MeterTables) env,
    length rs = S flush_size ->
    (run_ingestBatch env (take flush_size rs) tm).1.1 = Ok () ->
    let pushed := run (map PushMeter rs) (started_system flush_size tv tm) in
    let settled := step (MeterFlushSettles 0 env) pushed.1 in
    pushed.2 = []
    /\ meterFlushes (buffer pushed.1) = [take flush_size rs]
    /\ meterBuffer (buffer pushed.1) = drop flush_size rs
    /\ (exists trace, settled.2 = [MeterBatch (take flush_size rs) (Ok ()) trace])
    /\ meterFlushes (buffer settled.1) = []
    /\ meterBuffer (buffer settled.1) = drop flush_size rs.

Definition exactly_one_size_flush (flush_size : nat) : Prop :=
  one_vehicle_size_flush flush_size /\ one_meter_size_flush flush_size.

(** What the validation of a VEHICLE payload is meant to accept, leaving
    the length of the identifier aside. *)
Definition well_formed_vehicle (isISO8601 : string -> bool) (o : gmap string JsValue)
  : Prop :=
  (exists id, property o "vehicleId" = JsString id /\ id <> EmptyString)
  /\ (exists q, property o "soc" = JsNumber (Finite q) /\ (0 <= q /\ q <= 100)%Q)
  /\ (exists q, property o "kwhDeliveredDc" = JsNumber (Finite q) /\ (0 <= q)%Q)
  /\ (exists q, property o "batteryTemp" = JsNumber (Finite q))
  /\ (exists ts, property o "timestamp" = JsString ts /\ isISO8601 ts = true).

(** A VEHICLE payload with the given identifier and otherwise the values of
    [V001_at_10_00_00]. *)
Definition vehicle_payload (id : string) : gmap string JsValue :=
  list_to_map
    [ ("vehicleId", JsString id);
      ("soc", JsNumber (Finite 72.5));
      ("kwhDeliveredDc", JsNumber (Finite 3.21));
      ("batteryTemp", JsNumber (Finite 31.4));
      ("timestamp", JsString "2026-02-12T10:00:00Z") ]%string.

(** An identifier of 65 characters. *)
Definition overlong_vehicleId : string :=
  "V0000000000000000000000000000000000000000000000000000000000000001".

Definition overlong_vehicle : VehiclePayloadDto :=
  {| vehicleId := overlong_vehicleId; soc := 72.5; kwhDeliveredDc := 3.21;
     batteryTemp := 31.4; v_timestamp := "2026-02-12T10:00:00Z" |}.

(** A database in which [V001] is linked to [M001] and both have two
    readings, ingested one batch at a time. *)
Definition sample_database : Database :=
  {| vehicles :=
       ingest_all [(sample_env, [V001_at_10_00_00]); (sample_env, [V001_at_10_00_30])]
                  empty_tables;
     meters :=
       ingest_all [(sample_env, [M001_at_10_00_00]); (sample_env, [M001_at_10_00_30])]
                  empty_tables;
     vehicle_meter_link :=
       {[ "V001" := {| l_vehicle_id := "V001"; l_meter_id := "M001";
                       l_linked_at := 1770804000000 |} ]} |}.

(** ** The materialized view of schema.sql

<<
   CREATE MATERIALIZED VIEW mv_vehicle_performance_24h AS
   SELECT vml.vehicle_id, vml.meter_id,
          COALESCE(SUM(m.kwh_consumed_ac), 0)  AS total_ac_consumed,
          COALESCE(SUM(v.kwh_delivered_dc), 0) AS total_dc_delivered,
          CASE WHEN SUM(m.kwh_consumed_ac) > 0
               THEN ROUND(SUM(v.kwh_delivered_dc) / SUM(m.kwh_consumed_ac) * 100, 2)
               ELSE 0 END                      AS efficiency_ratio,
          ROUND(AVG(v.battery_temp), 2)        AS avg_battery_temp
   FROM vehicle_meter_link vml
   JOIN vehicle_telemetry_history v
     ON v.vehicle_id = vml.vehicle_id AND v.recorded_at >= NOW() - INTERVAL '24 hours'
   JOIN meter_telemetry_history m
     ON m.meter_id = vml.meter_id AND m.recorded_at >= NOW() - INTERVAL '24 hours'
   GROUP BY vml.vehicle_id, vml.meter_id
>>
    The view is keyed by [vehicle_id]; [now] is [NOW()] at the refresh.  A
    group is made of the joined rows of one link: every pair of a vehicle
    reading and a meter reading of the two windows.  A link without joined
    rows has no group, hence no row in the view.  A column is [None] when
    it is NULL. *)

Record MvVehiclePerformance := {
  mv_vehicle_id : string;
  mv_meter_id : string;
  mv_total_ac_consumed : Q;
  mv_total_dc_delivered : Q;
  mv_efficiency_ratio : option Q;
  mv_avg_battery_temp : option Q
}.

Definition mv_joined_rows (db : Database) (now : Z) (vehicleId meterId : string)
  : list (VehicleTelemetryHistory * MeterTelemetryHistory) :=
  flat_map
    (fun v => map (fun m => (v, m)) (AnalyticsService.meter_stats_rows db now meterId))
    (AnalyticsService.vehicle_stats_rows db now vehicleId).

Definition mv_vehicle_performance_24h (db : Database) (now : Z) (vehicleId : string)
  : option MvVehiclePerformance :=
  link ← vehicle_meter_link db !! vehicleId;
  let group := mv_joined_rows db now vehicleId (l_meter_id link) in
  match group with
  | [] => None
  | _ =>
      let sum_ac := SUM (map (fun p => of_numeric 4 (mh_kwh_consumed_ac p.2)) group) in
      let sum_dc := SUM (map (fun p => of_numeric 4 (vh_kwh_delivered_dc p.1)) group) in
      Some {| mv_vehicle_id := vehicleId;
              mv_meter_id := l_meter_id link;
              mv_total_ac_consumed := COALESCE sum_ac 0;
              mv_total_dc_delivered := COALESCE sum_dc 0;
              mv_efficiency_ratio :=
                match sum_ac with
                | Some ac =>
                    if Qlt_le_dec 0 ac
                    then dc ← sum_dc; Some (ROUND2 (numeric_div dc ac 4 4 * 100))
                    else Some 0%Q
                | None => Some 0%Q
                end;
              mv_avg_battery_temp :=
                ROUND2 <$> AVG 2 (map (fun p => of_numeric 2 (vh_battery_temp p.1))
                                      group) |}
  end.

(** ** Notions the further properties are stated with *)

(** The records the buffer service holds: in a buffer, or in the batch of
    a suspended flush. *)
Definition held_vehicles (b : IngestionBufferService) : list VehiclePayloadDto :=
  vehicleBuffer b ++ mjoin (vehicleFlushes b).

Definition held_meters (b : IngestionBufferService) : list MeterPayloadDto :=
  meterBuffer b ++ mjoin (meterFlushes b).

(** The records a sequence of events pushes. *)
Definition pushed_vehicles (events : list Event) : list VehiclePayloadDto :=
  flat_map (fun e => match e with PushVehicle r => [r] | _ => [] end) events.

Definition pushed_meters (events : list Event) : list MeterPayloadDto :=
  flat_map (fun e => match e with PushMeter r => [r] | _ => [] end) events.

(** The records of the batches the repositories have committed. *)
Definition committed_vehicles (calls : list RepositoryCall) : list VehiclePayloadDto :=
  flat_map (fun c => match c with VehicleBatch batch (Ok _) _ => batch | _ => [] end)
           calls.

Definition committed_meters (calls : list RepositoryCall) : list MeterPayloadDto :=
  flat_map (fun c => match c with MeterBatch batch (Ok _) _ => batch | _ => [] end)
           calls.

(** Events of one device class. *)
Definition vehicle_event (e : Event) : bool :=
  match e with
  | PushVehicle _ | VehicleFlushSettles _ _ => true
  | _ => false
  end.

Definition meter_event (e : Event) : bool :=
  match e with
  | PushMeter _ | MeterFlushSettles _ _ => true
  | _ => false
  end.

(** [rows] are the newest readings of a device in a range, at most
    [limit] of them: rows of the table, none taken twice, of this device and
    of the range [from, to), newest first; a reading of the device and the
    range that is left out is no newer than any row, and then the limit is
    reached. *)
Definition newest_in_range {A} (id_of : A -> string) (at_ : A -> Z) (table : list A)
    (deviceId : string) (from to : Z) (limit : nat) (rows : list A) : Prop :=
  rows ⊆+ table
  /\ Forall (fun r => id_of r = deviceId /\ from <= at_ r /\ at_ r < to) rows
  /\ StronglySorted (AnalyticsService.newer_first at_) rows
  /\ (length rows <= limit)%nat
  /\ forall h, h ∈ table -> id_of h = deviceId -> from <= at_ h -> at_ h < to ->
       h ∈ rows
       \/ (length rows = limit /\ Forall (fun r => at_ h <= at_ r) rows).

(** The payloads on which [validate] throws: it has no object to read the
    constructor of. *)
Definition not_an_object_to_validate (payload : Payload) : bool :=
  match payload with
  | PString _ | PNull | PUndefined => true
  | _ => false
  end.

(** What the decorators of [MeterPayloadDto] ask for. *)
Definition well_formed_meter (isISO8601 : string -> bool) (o : gmap string JsValue)
  : Prop :=
  (exists id, property o "meterId" = JsString id /\ id <> EmptyString)
  /\ (exists q, property o "kwhConsumedAc" = JsNumber (Finite q) /\ (0 <= q)%Q)
  /\ (exists q, property o "voltage" = JsNumber (Finite q) /\ (0 <= q)%Q)
  /\ (exists ts, property o "timestamp" = JsString ts /\ isISO8601 ts = true).

(** All steps of a call go through. *)
Definition no_failure (env : Env) : Prop := forall s, fails env s = false.

(** The steps of a call that commits. *)
Definition committed_steps : list DbStep :=
  [Connect; StartTransaction; InsertHistory; UpsertCurrent; CommitTransaction; Release].

(** More sample data: a METER payload, a vehicle reading that validation
    accepts and the [battery_temp] column does not, and a database whose
    meter has one reading against two of the vehicle. *)
Definition meter_payload (id : string) : gmap string JsValue :=
  list_to_map
    [ ("meterId", JsString id);
      ("kwhConsumedAc", JsNumber (Finite 4.15));
      ("voltage", JsNumber (Finite 232.1));
      ("timestamp", JsString "2026-02-12T10:00:00Z") ]%string.

Definition V003_overheated : VehiclePayloadDto :=
  {| vehicleId := "V003"; soc := 50; kwhDeliveredDc := 1; batteryTemp := 1000;
     v_timestamp := "2026-02-12T10:00:00Z" |}.



(** An identifier of 33 characters in 66 bytes: 33 times U+00E9. *)
Definition two_byte_identifier : string :=
  Nat.iter 33 (fun s => String (ascii_of_nat 195) (String (ascii_of_nat 169) s))
           EmptyString.

Definition unbalanced_database : Database :=
  {| vehicles := vehicles sample_database;
     meters := ingest_all [(sample_env, [M001_at_10_00_00])] empty_tables;
     vehicle_meter_link := vehicle_meter_link sample_database |}.

(* ===================================================================== *)
(** * Part II: properties                                                 *)
(* ===================================================================== *)

(** ** Results and traversals *)

Lemma bind_Ok_inv {E A B} (r : result E A) (k : A -> result E B) (b : B) :
  r ≫= k = Ok b -> exists a, r = Ok a /\ k a = Ok b.
Proof. destruct r as [a|e]; simpl; [eauto | discriminate]. Qed.

Lemma traverse_Ok_Forall2 {E A B} (f : A -> result E B) (l : list A) (bs : list B) :
  traverse f l = Ok bs -> Forall2 (fun a b => f a = Ok b) l bs.
Proof.
  revert bs. induction l as [|a l IH]; intros bs Htr; simpl in Htr.
  - injection Htr as <-. constructor.
  - apply bind_Ok_inv in Htr as (b & Hb & Htr).
    apply bind_Ok_inv in Htr as (bs' & Hbs & Htr).
    injection Htr as <-. constructor; auto.
Qed.

(** ** The transaction *)

Section Repository.
Context `{L : TelemetryLaws D H C V}.

(** Rows built for the two tables from the same records agree pairwise. *)
Lemma rows_agree_all date now (records : list D) (hs : list H) (cs : list C) :
  traverse (history_row date now) records = Ok hs ->
  traverse (current_row date now) records = Ok cs ->
  Forall2 same_reading hs cs.
Proof.
  revert hs cs. induction records as [|r records IH]; intros hs cs Hh Hc; simpl in *.
  - injection Hh as <-. injection Hc as <-. constructor.
  - apply bind_Ok_inv in Hh as (h & Hh1 & Hh).
    apply bind_Ok_inv in Hh as (hs' & Hh2 & Hh). injection Hh as <-.
    apply bind_Ok_inv in Hc as (c & Hc1 & Hc).
    apply bind_Ok_inv in Hc as (cs' & Hc2 & Hc). injection Hc as <-.
    constructor; [|auto].
    pose proof (rows_agree date now r) as Hag. rewrite Hh1, Hc1 in Hag. exact Hag.
Qed.

(** What the [try] block does on a freshly started transaction. *)
Lemma writes_spec env (records : list D) (t : Tables H C) s0 r q :
  writes env records {| committed := t; transaction := Some t; steps := s0 |} = (r, q) ->
  match r with
  | Ok _ =>
      exists hs cs hot',
        traverse (history_row (Date env) (NOW env)) records = Ok hs
        /\ traverse (current_row (Date env) (NOW env)) records = Ok cs
        /\ on_conflict_do_update cs ∅ (hot t) = Ok hot'
        /\ committed q = {| cold := cold t ++ hs; hot := hot' |}
        /\ transaction q = None
  | Err e => committed q = t /\ transaction q <> None
                                \/ committed q = t /\ e = ConnectionFailure CommitTransaction
  end.
Proof.
  unfold writes, mbind, Tx_bind, query, commitTransaction, record_step,
    insert_history, upsert_current. simpl.
  intros Hw.
  repeat (case_match; simplify_eq/=); try (left; split; [reflexivity|discriminate]);
    try (right; split; reflexivity).
  match goal with
  | Hh : _ ≫= _ = Ok ?t0, Hc : _ ≫= _ = Ok ?a |- _ =>
      apply bind_Ok_inv in Hh as (hs & Hhs & Hh); injection Hh as <-;
      apply bind_Ok_inv in Hc as (cs & Hcs & Hc);
      apply bind_Ok_inv in Hc as (hot' & Hup & Hc); injection Hc as <-
  end.
  exists hs, cs, hot'. simpl in *. auto.
Qed.

(** The outcome of [ingestBatch]: either it returns and the tables hold
    what the two statements wrote, or it throws and the tables are as
    before. *)
Lemma run_ingestBatch_spec env (records : list D) (t : Tables H C) r t' s :
  run_ingestBatch env records t = (r, t', s) ->
  match r with
  | Ok _ =>
      exists hs cs hot',
        traverse (history_row (Date env) (NOW env)) records = Ok hs
        /\ traverse (current_row (Date env) (NOW env)) records = Ok cs
        /\ on_conflict_do_update cs ∅ (hot t) = Ok hot'
        /\ t' = {| cold := cold t ++ hs; hot := hot' |}
  | Err e => t' = t
  end.
Proof.
  unfold run_ingestBatch, ingestBatch.
  destruct records as [|r0 records]; simpl.
  - intros [= <- <- <-]. exists [], [], (hot t). simpl.
    rewrite app_nil_r. destruct t; auto.
  - set (rs := r0 :: records).
    change (query env InsertHistory (insert_history env rs);;
            query env UpsertCurrent (upsert_current env rs);;
            commitTransaction env) with (writes env rs).
    unfold mbind, Tx_bind, connect, startTransaction, try_finally, try_catch,
      release, rollbackTransaction, throw, record_step. cbn -[writes].
    destruct (fails env Connect); [intros [= <- <- <-]; reflexivity|].
    destruct (fails env StartTransaction); [intros [= <- <- <-]; reflexivity|].
    destruct (writes env rs _) as [[u|e] q] eqn:Hw; apply writes_spec in Hw.
    + intros [= <- <- <-]. cbn.
      destruct Hw as (hs & cs & hot' & ? & ? & ? & ? & ?). eauto 10.
    + destruct (fails env RollbackTransaction); intros [= <- <- <-]; cbn;
        destruct Hw as [[? ?]|[? ?]]; assumption.
Qed.

(** The steps of a call and the error it throws. *)
Lemma run_ingestBatch_trace env (records : list D) (t : Tables H C) r t' s :
  records <> [] ->
  run_ingestBatch env records t = (r, t', s) ->
  match r with
  | Ok _ => CommitTransaction ∈ s
  | Err e =>
      fails env Connect = false -> fails env StartTransaction = false ->
      RollbackTransaction ∈ s
      /\ (fails env RollbackTransaction = false ->
          exists q, writes env records (started t) = (Err e, q))
  end.
Proof.
  unfold run_ingestBatch, ingestBatch.
  destruct records as [|r0 records]; [contradiction|]. intros _. simpl.
  set (rs := r0 :: records).
  change (query env InsertHistory (insert_history env rs);;
          query env UpsertCurrent (upsert_current env rs);;
          commitTransaction env) with (writes env rs).
  unfold mbind, Tx_bind, connect, startTransaction, try_finally, try_catch,
    release, rollbackTransaction, throw, record_step. cbn -[writes].
  destruct (fails env Connect); [intros [= <- <- <-]; discriminate|].
  destruct (fails env StartTransaction); [intros [= <- <- <-]; discriminate|].
  cbn -[writes]. fold (@started H C t).
  destruct (writes env rs (started t)) as [[u|e] q] eqn:Hw.
  - intros [= <- <- <-]. cbn.
    revert Hw. unfold writes, mbind, Tx_bind, query, commitTransaction, record_step.
    cbn. intros Hw.
    repeat (case_match; simplify_eq/=). repeat constructor.
  - destruct (fails env RollbackTransaction); intros [= <- <- <-]; cbn;
      intros _ _; (split; [|intros ?; try discriminate; eauto]);
      rewrite !elem_of_app, !list_elem_of_singleton; auto.
Qed.

(** ** The upsert keeps the latest reading *)

Lemma latest_wins_empty : latest_wins (empty_tables : Tables H C).
Proof.
  split.
  - intros d c Hd. simpl in Hd. rewrite lookup_empty in Hd. discriminate.
  - intros h Hh. simpl in Hh. apply not_elem_of_nil in Hh. contradiction.
Qed.

(** A proposed row that is inserted, or that replaces an older row. *)
Lemma latest_wins_write (c0 : list H) (m : gmap string C) h c :
  latest_wins {| cold := c0; hot := m |} ->
  same_reading h c ->
  (forall existing, m !! hot_id c = Some existing ->
     hot_last_seen_at existing < hot_last_seen_at c) ->
  latest_wins {| cold := c0 ++ [h]; hot := <[hot_id c := c]> m |}.
Proof.
  intros [Hrow Hdev] Hhc Hnew. pose proof Hhc as (Hid & Hat & Hval).
  split; simpl in *.
  - intros d c1 Hd. destruct (decide (hot_id c = d)) as [<-|Hne].
    + rewrite lookup_insert_eq in Hd. injection Hd as <-.
      split; [reflexivity|]. split.
      * exists h. rewrite elem_of_app, list_elem_of_singleton. auto.
      * intros h1 Hh1 Hk. rewrite elem_of_app, list_elem_of_singleton in Hh1.
        destruct Hh1 as [Hh1| ->]; [|lia].
        destruct (Hdev _ Hh1) as [ex Hex]. rewrite Hk in Hex.
        destruct (Hrow _ _ Hex) as (_ & _ & Hmax).
        specialize (Hmax _ Hh1 Hk). specialize (Hnew _ Hex). lia.
    + rewrite lookup_insert_ne in Hd by assumption.
      destruct (Hrow _ _ Hd) as (Hk & (h1 & Hin & Hk1 & Hsame) & Hmax).
      split; [assumption|]. split.
      * exists h1. rewrite elem_of_app. auto.
      * intros h2 Hh2 Hk2. rewrite elem_of_app, list_elem_of_singleton in Hh2.
        destruct Hh2 as [Hh2| ->]; [auto|congruence].
  - intros h1 Hh1. rewrite elem_of_app, list_elem_of_singleton in Hh1.
    destruct Hh1 as [Hh1| ->].
    + destruct (decide (hot_id c = cold_id h1)) as [<-|Hne].
      * rewrite lookup_insert_eq. eauto.
      * rewrite lookup_insert_ne by assumption. auto.
    + rewrite Hid, lookup_insert_eq. eauto.
Qed.

(** A proposed row that loses against the existing row. *)
Lemma latest_wins_keep (c0 : list H) (m : gmap string C) h c existing :
  latest_wins {| cold := c0; hot := m |} ->
  same_reading h c ->
  m !! hot_id c = Some existing ->
  hot_last_seen_at c <= hot_last_seen_at existing ->
  latest_wins {| cold := c0 ++ [h]; hot := m |}.
Proof.
  intros [Hrow Hdev] (Hid & Hat & Hval) Hex Hle. split; simpl in *.
  - intros d c1 Hd.
    destruct (Hrow _ _ Hd) as (Hk & (h1 & Hin & Hk1 & Hsame) & Hmax).
    split; [assumption|]. split.
    + exists h1. rewrite elem_of_app. auto.
    + intros h2 Hh2 Hk2. rewrite elem_of_app, list_elem_of_singleton in Hh2.
      destruct Hh2 as [Hh2| ->]; [auto|].
      assert (c1 = existing) as -> by congruence. lia.
  - intros h1 Hh1. rewrite elem_of_app, list_elem_of_singleton in Hh1.
    destruct Hh1 as [Hh1| ->]; [auto|]. rewrite Hid. eauto.
Qed.

Lemma upsert_keeps_latest (hs : list H) (cs : list C) :
  Forall2 same_reading hs cs ->
  forall touched (c0 : list H) (m m' : gmap string C),
    latest_wins {| cold := c0; hot := m |} ->
    on_conflict_do_update cs touched m = Ok m' ->
    latest_wins {| cold := c0 ++ hs; hot := m' |}.
Proof.
  induction 1 as [|h c hs cs Hhc _ IH]; intros touched c0 m m' Hinv Hup; simpl in Hup.
  - injection Hup as <-. rewrite app_nil_r. assumption.
  - rewrite (cons_middle h c0 hs), app_assoc.
    destruct (m !! hot_id c) as [existing|] eqn:Hex.
    + destruct (decide (hot_id c ∈ touched)); [discriminate|].
      destruct (Z.ltb_spec (hot_last_seen_at existing) (hot_last_seen_at c)).
      * eapply IH; [|exact Hup]. apply latest_wins_write; auto.
        intros ? ?; simplify_eq; assumption.
      * eapply IH; [|exact Hup]. eapply latest_wins_keep; eauto.
    + eapply IH; [|exact Hup]. apply latest_wins_write; auto.
      intros ? ?; simplify_eq.
Qed.

(** The statement never lowers the timestamp of a device and never
    removes a device. *)
Lemma upsert_monotone (cs : list C) :
  forall touched (m m' : gmap string C) k c,
    on_conflict_do_update cs touched m = Ok m' ->
    m !! k = Some c ->
    exists c', m' !! k = Some c' /\ hot_last_seen_at c <= hot_last_seen_at c'.
Proof.
  induction cs as [|x cs IH]; intros touched m m' k c Hup Hk; simpl in Hup.
  - injection Hup as <-. exists c. split; [assumption|lia].
  - destruct (m !! hot_id x) as [existing|] eqn:Hex.
    + destruct (decide (hot_id x ∈ touched)); [discriminate|].
      destruct (Z.ltb_spec (hot_last_seen_at existing) (hot_last_seen_at x)).
      * destruct (decide (hot_id x = k)) as [<-|Hne].
        -- assert (existing = c) as -> by congruence.
           destruct (IH _ _ _ (hot_id x) x Hup) as (c' & ? & ?);
             [apply lookup_insert_eq|].
           exists c'. split; [assumption|lia].
        -- eapply IH; [exact Hup|]. rewrite lookup_insert_ne; assumption.
      * eapply IH; eauto.
    + destruct (decide (hot_id x = k)) as [<-|Hne]; [congruence|].
      eapply IH; [exact Hup|]. rewrite lookup_insert_ne; assumption.
Qed.

(** After the statement every proposed row is covered by the current row
    of its device. *)
Lemma upsert_rows_visible (cs : list C) :
  forall touched (m m' : gmap string C),
    on_conflict_do_update cs touched m = Ok m' ->
    forall x, x ∈ cs ->
      exists c', m' !! hot_id x = Some c'
                 /\ hot_last_seen_at x <= hot_last_seen_at c'.
Proof.
  induction cs as [|y cs IH]; intros touched m m' Hup x Hx.
  - apply not_elem_of_nil in Hx. contradiction.
  - apply elem_of_cons in Hx as [->|Hx]; simpl in Hup.
    + destruct (m !! hot_id y) as [existing|] eqn:Hex.
      * destruct (decide (hot_id y ∈ touched)); [discriminate|].
        destruct (Z.ltb_spec (hot_last_seen_at existing) (hot_last_seen_at y)).
        -- eapply upsert_monotone; [exact Hup|apply lookup_insert_eq].
        -- destruct (upsert_monotone _ _ _ _ _ _ Hup Hex) as (c' & ? & ?).
           exists c'. split; [assumption|lia].
      * eapply upsert_monotone; [exact Hup|apply lookup_insert_eq].
    + destruct (m !! hot_id y) as [existing|] eqn:Hex.
      * destruct (decide (hot_id y ∈ touched)); [discriminate|].
        destruct (hot_last_seen_at existing <? hot_last_seen_at y);
          eapply IH; eauto.
      * eapply IH; eauto.
Qed.

(** Rows that are all stale change nothing. *)
Lemma upsert_stale_noop (cs : list C) (m : gmap string C) :
  Forall (stale m) cs ->
  on_conflict_do_update cs ∅ m = Ok m.
Proof.
  induction 1 as [|x cs (existing & Hex & Hle) _ IH]; simpl; [reflexivity|].
  rewrite Hex. destruct (decide (hot_id x ∈ ∅)) as [Hin|_];
    [apply not_elem_of_empty in Hin; contradiction|].
  destruct (Z.ltb_spec (hot_last_seen_at existing) (hot_last_seen_at x)); [lia|].
  exact IH.
Qed.

(** Once a device has been written by the statement, a further row for it
    fails the statement. *)
Lemma upsert_second_time_fails (cs : list C) :
  forall touched (m : gmap string C) k,
    k ∈ touched -> is_Some (m !! k) ->
    (exists x, x ∈ cs /\ hot_id x = k) ->
    on_conflict_do_update cs touched m = Err CardinalityViolation.
Proof.
  induction cs as [|y cs IH]; intros touched m k Hk Hm (x & Hx & Hxk).
  - apply not_elem_of_nil in Hx. contradiction.
  - simpl. destruct (decide (hot_id y = k)) as [Hy|Hy].
    + rewrite Hy. destruct Hm as [c ->].
      destruct (decide (k ∈ touched)); [reflexivity|contradiction].
    + apply elem_of_cons in Hx as [->|Hx]; [contradiction|].
      assert (exists x, x ∈ cs /\ hot_id x = k) as Hrest by eauto.
      destruct (m !! hot_id y) as [existing|] eqn:Hex.
      * destruct (decide (hot_id y ∈ touched)); [reflexivity|].
        destruct (hot_last_seen_at existing <? hot_last_seen_at y).
        -- apply IH with k; [apply elem_of_union_r; assumption| |assumption].
           rewrite lookup_insert_ne; assumption.
        -- apply IH with k; assumption.
      * apply IH with k; [apply elem_of_union_r; assumption| |assumption].
        rewrite lookup_insert_ne; assumption.
Qed.

(** Two rows for a device that has no current row yet: the first is
    inserted, the second fails the statement. *)
Lemma upsert_duplicate_fails (cs : list C) :
  forall touched (m : gmap string C) k x1 x2 l1 l2 l3,
    cs = l1 ++ x1 :: l2 ++ x2 :: l3 ->
    hot_id x1 = k -> hot_id x2 = k ->
    m !! k = None ->
    on_conflict_do_update cs touched m = Err CardinalityViolation.
Proof.
  induction cs as [|y cs IH]; intros touched m k x1 x2 l1 l2 l3 Hcs H1 H2 Hm.
  - destruct l1; discriminate.
  - simpl. destruct l1 as [|z l1]; simpl in Hcs; injection Hcs as -> ->.
    + rewrite H1, Hm.
      apply upsert_second_time_fails with k.
      * apply elem_of_union_l, elem_of_singleton. reflexivity.
      * rewrite lookup_insert_eq. eauto.
      * exists x2. split; [|assumption].
        apply elem_of_app. right. left.
    + destruct (decide (hot_id z = k)) as [Hz|Hz].
      * rewrite Hz, Hm.
        apply upsert_second_time_fails with k.
        -- apply elem_of_union_l, elem_of_singleton. reflexivity.
        -- rewrite lookup_insert_eq. eauto.
        -- exists x1. split; [|assumption].
           apply elem_of_app. right. left.
      * destruct (m !! hot_id z) as [existing|] eqn:Hex.
        -- destruct (decide (hot_id z ∈ touched)); [reflexivity|].
           destruct (hot_last_seen_at existing <? hot_last_seen_at z).
           ++ eapply IH; [reflexivity| | |]; [eassumption..|].
              rewrite lookup_insert_ne; assumption.
           ++ eapply IH; [reflexivity| | |]; eassumption.
        -- eapply IH; [reflexivity| | |]; [eassumption..|].
           rewrite lookup_insert_ne; assumption.
Qed.

(** ** Every call of [ingestBatch] keeps the latest reading *)

Lemma latest_wins_ingestBatch env (records : list D) (t : Tables H C) :
  latest_wins t -> latest_wins (run_ingestBatch env records t).1.2.
Proof.
  intros Hinv.
  destruct (run_ingestBatch env records t) as [[r t'] s] eqn:Hrun.
  apply run_ingestBatch_spec in Hrun. simpl.
  destruct r as [u|e]; [|subst; assumption].
  destruct Hrun as (hs & cs & hot' & Hhs & Hcs & Hup & ->).
  eapply upsert_keeps_latest; [eapply rows_agree_all; eassumption| |exact Hup].
  destruct t; assumption.
Qed.

Lemma latest_wins_ingest_all (calls : list (Env * list D)) (t : Tables H C) :
  latest_wins t -> latest_wins (ingest_all calls t).
Proof.
  revert t. induction calls as [|[env records] calls IH]; intros t Hinv; simpl.
  - assumption.
  - apply IH, latest_wins_ingestBatch, Hinv.
Qed.

(** A batch of stale readings leaves the current table as it is. *)
Lemma stale_batch_keeps_current env (records : list D) (t : Tables H C) cs :
  traverse (current_row (Date env) (NOW env)) records = Ok cs ->
  Forall (stale (hot t)) cs ->
  hot (run_ingestBatch env records t).1.2 = hot t.
Proof.
  intros Hcs Hst.
  destruct (run_ingestBatch env records t) as [[r t'] s] eqn:Hrun.
  apply run_ingestBatch_spec in Hrun. simpl.
  destruct r as [u|e]; [|subst; reflexivity].
  destruct Hrun as (hs & cs' & hot' & Hhs & Hcs' & Hup & ->). simpl.
  assert (cs' = cs) as -> by congruence.
  rewrite (upsert_stale_noop _ _ Hst) in Hup. congruence.
Qed.

(** ** [ingestBatch] is all or nothing *)

Lemma ingestBatch_all_or_nothing env (records : list D) (t : Tables H C) :
  records <> [] -> all_or_nothing env records t.
Proof.
  intros Hne. unfold all_or_nothing.
  destruct (run_ingestBatch env records t) as [[r t'] s] eqn:Hrun.
  pose proof (run_ingestBatch_spec _ _ _ _ _ _ Hrun) as Hspec.
  pose proof (run_ingestBatch_trace _ _ _ _ _ _ Hne Hrun) as Htrace.
  destruct r as [u|e]; [|auto].
  split; [|assumption].
  destruct Hspec as (hs & cs & hot' & Hhs & Hcs & Hup & ->).
  exists hs. split; [assumption|]. split; [reflexivity|].
  intros h Hh. simpl.
  pose proof (rows_agree_all _ _ _ _ _ Hhs Hcs) as Hag.
  apply list_elem_of_lookup in Hh as [i Hi].
  destruct (Forall2_lookup_l _ _ _ _ _ Hag Hi) as (c & Hc & Hid & Hat & _).
  rewrite Hid, Hat.
  eapply upsert_rows_visible; [exact Hup|].
  apply list_elem_of_lookup. eauto.
Qed.

End Repository.

(** ** The two repositories satisfy the laws *)

#[global] Instance vehicle_laws : TelemetryLaws VehicleTelemetryRepository.telemetry.
Proof.
  constructor. intros date now r. simpl.
  unfold VehicleTelemetryRepository.history_values,
    VehicleTelemetryRepository.upsert_values.
  destruct (varchar 64 (vehicleId r)); simpl; [|reflexivity].
  destruct (numeric 5 2 (soc r)); simpl; [|reflexivity].
  destruct (numeric 10 4 (kwhDeliveredDc r)); simpl; [|reflexivity].
  destruct (numeric 5 2 (batteryTemp r)); simpl; [|reflexivity].
  destruct (timestamptz (date (v_timestamp r))); simpl; [|reflexivity].
  repeat split.
Qed.

#[global] Instance meter_laws : TelemetryLaws MeterTelemetryRepository.telemetry.
Proof.
  constructor. intros date now r. simpl.
  unfold MeterTelemetryRepository.history_values,
    MeterTelemetryRepository.upsert_values.
  destruct (varchar 64 (meterId r)); simpl; [|reflexivity].
  destruct (numeric 10 4 (kwhConsumedAc r)); simpl; [|reflexivity].
  destruct (numeric 6 2 (voltage r)); simpl; [|reflexivity].
  destruct (timestamptz (date (m_timestamp r))); simpl; [|reflexivity].
  repeat split.
Qed.

(** ** Claims about the batch repositories *)

(** C1.  Starting from empty tables, after any sequence of [ingestBatch]
    calls (whatever their batches, environments and outcomes), every
    current-status row has [last_seen_at] equal to the greatest
    [recorded_at] among the persisted readings of its device and carries
    the values of a persisted reading with that timestamp, and every device
    with a persisted reading has a current row.  In particular a batch
    whose readings are not newer than the stored [last_seen_at] of their
    devices leaves the current table unchanged.  Both hold for the vehicle
    and for the meter repository. *)
Theorem C1_current_row_is_latest_reading :
  (forall calls : list (Env * list VehiclePayloadDto),
      latest_wins (ingest_all calls (empty_tables : VehicleTables)))
  /\ (forall calls : list (Env * list MeterPayloadDto),
      latest_wins (ingest_all calls (empty_tables : MeterTables)))
  /\ (forall env (records : list VehiclePayloadDto) (t : VehicleTables) rows,
      traverse (current_row (Date env) (NOW env)) records = Ok rows ->
      Forall (stale (hot t)) rows ->
      hot (run_ingestBatch env records t).1.2 = hot t)
  /\ (forall env (records : list MeterPayloadDto) (t : MeterTables) rows,
      traverse (current_row (Date env) (NOW env)) records = Ok rows ->
      Forall (stale (hot t)) rows ->
      hot (run_ingestBatch env records t).1.2 = hot t).
Proof.
  split; [|split; [|split]].
  - intros calls. apply latest_wins_ingest_all, latest_wins_empty.
  - intros calls. apply latest_wins_ingest_all, latest_wins_empty.
  - intros env records t rows. apply stale_batch_keeps_current.
  - intros env records t rows. apply stale_batch_keeps_current.
Qed.

(** The older reading of [V001] arrives after the newer one: the current
    row stays. *)
Lemma C1_older_reading_keeps_current_row :
  hot (run_ingestBatch sample_env [V001_at_10_00_00]
         vehicle_tables_after_10_00_30).1.2
  = hot vehicle_tables_after_10_00_30.
Proof.
  eapply (proj1 (proj2 (proj2 C1_current_row_is_latest_reading))).
  - vm_compute. reflexivity.
  - repeat constructor. eexists. split.
    + vm_compute. reflexivity.
    + vm_compute. discriminate.
Defined.

(** The same holds in the running process, whatever the pushes, timer
    ticks and settled flushes: the tables only change through
    [ingestBatch]. *)
Lemma latest_wins_step (e : Event) (s : System) :
  latest_wins (vehicle_tables s) -> latest_wins (meter_tables s) ->
  latest_wins (vehicle_tables (step e s).1)
  /\ latest_wins (meter_tables (step e s).1).
Proof.
  intros Hv Hm. destruct e as [r|r| |i env|i env|]; simpl; auto.
  - destruct (flushTimer (buffer s)); simpl; auto.
  - destruct (vehicleFlushes (buffer s) !! i) as [batch|]; simpl; auto.
    pose proof (latest_wins_ingestBatch env batch (vehicle_tables s) Hv) as Hv'.
    destruct (run_ingestBatch env batch (vehicle_tables s)) as [[o t'] tr].
    simpl in *. auto.
  - destruct (meterFlushes (buffer s) !! i) as [batch|]; simpl; auto.
    pose proof (latest_wins_ingestBatch env batch (meter_tables s) Hm) as Hm'.
    destruct (run_ingestBatch env batch (meter_tables s)) as [[o t'] tr].
    simpl in *. auto.
Qed.

Lemma latest_wins_run (events : list Event) (s : System) :
  latest_wins (vehicle_tables s) -> latest_wins (meter_tables s) ->
  latest_wins (vehicle_tables (run events s).1)
  /\ latest_wins (meter_tables (run events s).1).
Proof.
  revert s. induction events as [|e events IH]; intros s Hv Hm; simpl; [auto|].
  destruct (latest_wins_step e s Hv Hm) as [Hv' Hm'].
  destruct (step e s) as [s' c]. simpl in *.
  specialize (IH s' Hv' Hm').
  destruct (run events s') as [s'' c']. exact IH.
Qed.

(** C2.  For a non-empty batch [ingestBatch] is all or nothing across the
    history and the current table: when it returns, the transaction was
    committed, the history table holds one more row per record and every
    reading is covered by the current row of its device; when it throws,
    both tables are unchanged, a started transaction was rolled back and
    the error of the failed step is the one thrown. *)
Theorem C2_ingestBatch_all_or_nothing :
  (forall env (records : list VehiclePayloadDto) (t : VehicleTables),
      records <> [] -> all_or_nothing env records t)
  /\ (forall env (records : list MeterPayloadDto) (t : MeterTables),
      records <> [] -> all_or_nothing env records t).
Proof.
  split; intros env records t; apply ingestBatch_all_or_nothing.
Qed.

Lemma C2_all_or_nothing_witness :
  all_or_nothing sample_env [V001_at_10_00_00; V002_at_10_00_00]
    (empty_tables : VehicleTables)
  /\ all_or_nothing failing_env [M001_at_10_00_00] meter_tables_after_10_00_30.
Proof.
  split.
  - apply (proj1 C2_ingestBatch_all_or_nothing). discriminate.
  - apply (proj2 C2_ingestBatch_all_or_nothing). discriminate.
Defined.

Section DuplicateDevices.
Context `{L : TelemetryLaws D H C V}.

(** A batch with two readings of a device that has no current row yet
    cannot be ingested: the upsert statement fails on the second one. *)
Lemma ingestBatch_duplicate_device_fails env (records : list D) (t : Tables H C)
    l1 x1 l2 x2 l3 :
  traverse (current_row (Date env) (NOW env)) records
    = Ok (l1 ++ x1 :: l2 ++ x2 :: l3) ->
  hot_id x1 = hot_id x2 ->
  hot t !! hot_id x1 = None ->
  exists e, (run_ingestBatch env records t).1.1 = Err e
            /\ (run_ingestBatch env records t).1.2 = t.
Proof.
  intros Hcs Hsame Hnew.
  destruct (run_ingestBatch env records t) as [[r t'] s] eqn:Hrun.
  apply run_ingestBatch_spec in Hrun. simpl.
  destruct r as [u|e]; [|eauto].
  destruct Hrun as (hs & cs & hot' & _ & Hcs' & Hup & _).
  rewrite Hcs in Hcs'. injection Hcs' as <-.
  erewrite upsert_duplicate_fails in Hup; [discriminate|reflexivity| | |];
    [reflexivity|symmetry; exact Hsame|exact Hnew].
Qed.
End DuplicateDevices.

(** C3.  The batch [V001 at 10:00:00, V001 at 10:00:30] for a vehicle that
    has no current row: the upsert statement is rejected because it would
    affect the row of [V001] a second time, the transaction is rolled back,
    [ingestBatch] throws and nothing is persisted.  The claim expects the
    call to succeed with the 10:00:30 reading as current row. *)
Theorem C3_duplicate_device_batch_is_rejected :
  run_ingestBatch sample_env [V001_at_10_00_00; V001_at_10_00_30]
    (empty_tables : VehicleTables)
  = (Err CardinalityViolation, empty_tables,
     [Connect; StartTransaction; InsertHistory; UpsertCurrent;
      RollbackTransaction; Release]).
Proof. vm_compute. reflexivity. Qed.

(** The same batch, one reading per call, is ingested and leaves the
    10:00:30 reading as current row. *)
Lemma separate_batches_keep_latest :
  hot (ingest_all [(sample_env, [V001_at_10_00_00]); (sample_env, [V001_at_10_00_30])]
         (empty_tables : VehicleTables)) !! "V001"
  = Some {| vc_vehicle_id := "V001"; vc_soc := 7300; vc_kwh_delivered_dc := 34000;
            vc_battery_temp := 3160; vc_last_seen_at := 1770890430000;
            vc_updated_at := 1770890460000 |}.
Proof. vm_compute. reflexivity. Qed.

(** The newer reading first, the older one in a later batch: the current
    row stays at 10:00:30 and both readings are in the history. *)
Lemma older_reading_arrives_late :
  let t := ingest_all [(sample_env, [V001_at_10_00_30]); (sample_env, [V001_at_10_00_00])]
                      (empty_tables : VehicleTables) in
  (vc_last_seen_at <$> hot t !! "V001") = Some 1770890430000
  /\ map vh_recorded_at (cold t) = [1770890430000; 1770890400000].
Proof. vm_compute. split; reflexivity. Qed.

(** ** Claims about the ingestion buffer *)

Lemma flushVehicles_detaches (b : IngestionBufferService) :
  vehicleBuffer b <> [] ->
  vehicleBuffer (flushVehicles b) = []
  /\ vehicleFlushes (flushVehicles b) = vehicleFlushes b ++ [vehicleBuffer b]
  /\ meterBuffer (flushVehicles b) = meterBuffer b
  /\ meterFlushes (flushVehicles b) = meterFlushes b
  /\ FLUSH_SIZE (flushVehicles b) = FLUSH_SIZE b.
Proof.
  intros Hne. unfold flushVehicles.
  destruct (vehicleBuffer b) as [|r l] eqn:Hb; [contradiction|]. simpl.
  auto.
Qed.

Lemma flushMeters_detaches (b : IngestionBufferService) :
  meterBuffer b <> [] ->
  meterBuffer (flushMeters b) = []
  /\ meterFlushes (flushMeters b) = meterFlushes b ++ [meterBuffer b]
  /\ vehicleBuffer (flushMeters b) = vehicleBuffer b
  /\ vehicleFlushes (flushMeters b) = vehicleFlushes b
  /\ FLUSH_SIZE (flushMeters b) = FLUSH_SIZE b.
Proof.
  intros Hne. unfold flushMeters.
  destruct (meterBuffer b) as [|r l] eqn:Hb; [contradiction|]. simpl.
  auto.
Qed.

Lemma flushVehicles_empty (b : IngestionBufferService) :
  vehicleBuffer b = [] -> flushVehicles b = b.
Proof. intros Hb. unfold flushVehicles. rewrite Hb. reflexivity. Qed.

Lemma flushMeters_empty (b : IngestionBufferService) :
  meterBuffer b = [] -> flushMeters b = b.
Proof. intros Hb. unfold flushMeters. rewrite Hb. reflexivity. Qed.

(** C4.  A suspended flush whose repository call throws puts its whole
    batch back in front of the buffer of its class, ahead of the records
    pushed since the buffer was swapped: the depth of the class grows by
    the size of the batch, the tables and the other class are untouched,
    and the next flush of the class hands the batch (followed by the newer
    records) to the repository again. *)
Theorem C4_failed_flush_requeues_batch :
  (forall (s : System) i env batch e,
      vehicleFlushes (buffer s) !! i = Some batch ->
      (run_ingestBatch env batch (vehicle_tables s)).1.1 = Err e ->
      let s' := (step (VehicleFlushSettles i env) s).1 in
      vehicleBuffer (buffer s') = batch ++ vehicleBuffer (buffer s)
      /\ (getBufferDepth (buffer s')).1
         = (length batch + (getBufferDepth (buffer s)).1)%nat
      /\ (forall r, r ∈ batch -> r ∈ vehicleBuffer (buffer s'))
      /\ vehicle_tables s' = vehicle_tables s
      /\ meter_tables s' = meter_tables s
      /\ meterBuffer (buffer s') = meterBuffer (buffer s)
      /\ (batch <> [] ->
          vehicleFlushes (flushVehicles (buffer s'))
          = delete i (vehicleFlushes (buffer s)) ++ [batch ++ vehicleBuffer (buffer s)]))
  /\ (forall (s : System) i env batch e,
      meterFlushes (buffer s) !! i = Some batch ->
      (run_ingestBatch env batch (meter_tables s)).1.1 = Err e ->
      let s' := (step (MeterFlushSettles i env) s).1 in
      meterBuffer (buffer s') = batch ++ meterBuffer (buffer s)
      /\ (getBufferDepth (buffer s')).2
         = (length batch + (getBufferDepth (buffer s)).2)%nat
      /\ (forall r, r ∈ batch -> r ∈ meterBuffer (buffer s'))
      /\ vehicle_tables s' = vehicle_tables s
      /\ meter_tables s' = meter_tables s
      /\ vehicleBuffer (buffer s') = vehicleBuffer (buffer s)
      /\ (batch <> [] ->
          meterFlushes (flushMeters (buffer s'))
          = delete i (meterFlushes (buffer s)) ++ [batch ++ meterBuffer (buffer s)])).
Proof.
  split.
  - intros s i env batch e Hi Herr. simpl. rewrite Hi.
    destruct (run_ingestBatch env batch (vehicle_tables s)) as [[r t'] tr] eqn:Hrun.
    simpl in Herr. subst r.
    pose proof (run_ingestBatch_spec _ _ _ _ _ _ Hrun) as Ht. simpl in Ht. subst t'.
    simpl. rewrite length_app.
    repeat split; try reflexivity.
    + intros r Hr. apply elem_of_app. auto.
    + intros Hne.
      match goal with |- vehicleFlushes (flushVehicles ?b) = _ =>
        destruct (flushVehicles_detaches b) as (_ & Hfl & _) end.
      * simpl. destruct batch; [contradiction|discriminate].
      * rewrite Hfl. reflexivity.
  - intros s i env batch e Hi Herr. simpl. rewrite Hi.
    destruct (run_ingestBatch env batch (meter_tables s)) as [[r t'] tr] eqn:Hrun.
    simpl in Herr. subst r.
    pose proof (run_ingestBatch_spec _ _ _ _ _ _ Hrun) as Ht. simpl in Ht. subst t'.
    simpl. rewrite length_app.
    repeat split; try reflexivity.
    + intros r Hr. apply elem_of_app. auto.
    + intros Hne.
      match goal with |- meterFlushes (flushMeters ?b) = _ =>
        destruct (flushMeters_detaches b) as (_ & Hfl & _) end.
      * simpl. destruct batch; [contradiction|discriminate].
      * rewrite Hfl. reflexivity.
Qed.

Lemma C4_failed_flush_witness :
  vehicleFlushes (buffer system_during_flush) !! 0%nat = Some [V001_at_10_00_00]
  /\ vehicleBuffer (buffer system_during_flush) = [V002_at_10_00_00]
  /\ vehicleBuffer (buffer (step (VehicleFlushSettles 0 failing_env)
                                 system_during_flush).1)
     = [V001_at_10_00_00; V002_at_10_00_00].
Proof.
  split; [vm_compute; reflexivity|]. split; [vm_compute; reflexivity|].
  eapply (proj1 C4_failed_flush_requeues_batch system_during_flush 0%nat failing_env
            [V001_at_10_00_00] (ConnectionFailure InsertHistory)).
  - vm_compute. reflexivity.
  - vm_compute. reflexivity.
Defined.

(** Pushes that stay below the threshold only append. *)
Lemma run_pushes_below (rs : list VehiclePayloadDto) :
  forall (s : System) n,
    FLUSH_SIZE (buffer s) = Some n ->
    Z.of_nat (length (vehicleBuffer (buffer s)) + length rs) < n ->
    run (map PushVehicle rs) s
    = ({| buffer := set_vehicleBuffer (vehicleBuffer (buffer s) ++ rs) (buffer s);
          vehicle_tables := vehicle_tables s;
          meter_tables := meter_tables s |}, []).
Proof.
  induction rs as [|r rs IH]; intros s n Hn Hlt.
  - simpl. rewrite app_nil_r. destruct s as [[] ? ?]. reflexivity.
  - cbn [map run step]. unfold pushVehicle, reaches_FLUSH_SIZE.
    cbn [FLUSH_SIZE set_vehicleBuffer vehicleBuffer]. rewrite Hn, length_app.
    cbn [length] in *.
    destruct (Z.leb_spec n (Z.of_nat (length (vehicleBuffer (buffer s)) + 1))); [lia|].
    erewrite IH; cbn [buffer vehicleBuffer FLUSH_SIZE set_vehicleBuffer
                      vehicle_tables meter_tables].
    + rewrite <- app_assoc. reflexivity.
    + exact Hn.
    + rewrite length_app. cbn [length]. lia.
Qed.

(** The push that fills the buffer starts a flush of everything. *)
Lemma pushVehicle_reaching_size (r : VehiclePayloadDto) (b : IngestionBufferService) n :
  FLUSH_SIZE b = Some n ->
  n <= Z.of_nat (length (vehicleBuffer b)) + 1 ->
  pushVehicle r b
  = set_vehicleFlushes (vehicleFlushes b ++ [vehicleBuffer b ++ [r]])
                       (set_vehicleBuffer [] b).
Proof.
  intros Hn Hle. unfold pushVehicle, reaches_FLUSH_SIZE.
  cbn [FLUSH_SIZE set_vehicleBuffer vehicleBuffer]. rewrite Hn, length_app.
  cbn [length].
  destruct (Z.leb_spec n (Z.of_nat (length (vehicleBuffer b) + 1))); [|lia].
  unfold flushVehicles. cbn [vehicleBuffer set_vehicleBuffer].
  rewrite length_app. cbn [length]. rewrite Nat.add_1_r. reflexivity.
Qed.

(** The same for the meter buffer. *)
Lemma run_meter_pushes_below (rs : list MeterPayloadDto) :
  forall (s : System) n,
    FLUSH_SIZE (buffer s) = Some n ->
    Z.of_nat (length (meterBuffer (buffer s)) + length rs) < n ->
    run (map PushMeter rs) s
    = ({| buffer := set_meterBuffer (meterBuffer (buffer s) ++ rs) (buffer s);
          vehicle_tables := vehicle_tables s;
          meter_tables := meter_tables s |}, []).
Proof.
  induction rs as [|r rs IH]; intros s n Hn Hlt.
  - simpl. rewrite app_nil_r. destruct s as [[] ? ?]. reflexivity.
  - cbn [map run step]. unfold pushMeter, reaches_FLUSH_SIZE.
    cbn [FLUSH_SIZE set_meterBuffer meterBuffer]. rewrite Hn, length_app.
    cbn [length] in *.
    destruct (Z.leb_spec n (Z.of_nat (length (meterBuffer (buffer s)) + 1))); [lia|].
    erewrite IH; cbn [buffer meterBuffer FLUSH_SIZE set_meterBuffer
                      vehicle_tables meter_tables].
    + rewrite <- app_assoc. reflexivity.
    + exact Hn.
    + rewrite length_app. cbn [length]. lia.
Qed.

Lemma pushMeter_reaching_size (r : MeterPayloadDto) (b : IngestionBufferService) n :
  FLUSH_SIZE b = Some n ->
  n <= Z.of_nat (length (meterBuffer b)) + 1 ->
  pushMeter r b
  = set_meterFlushes (meterFlushes b ++ [meterBuffer b ++ [r]])
                       (set_meterBuffer [] b).
Proof.
  intros Hn Hle. unfold pushMeter, reaches_FLUSH_SIZE.
  cbn [FLUSH_SIZE set_meterBuffer meterBuffer]. rewrite Hn, length_app.
  cbn [length].
  destruct (Z.leb_spec n (Z.of_nat (length (meterBuffer b) + 1))); [|lia].
  unfold flushMeters. cbn [meterBuffer set_meterBuffer].
  rewrite length_app. cbn [length]. rewrite Nat.add_1_r. reflexivity.
Qed.

Lemma run_app (e1 e2 : list Event) (s : System) :
  run (e1 ++ e2) s
  = let '(s1, c1) := run e1 s in
    let '(s2, c2) := run e2 s1 in
    (s2, c1 ++ c2).
Proof.
  revert s. induction e1 as [|e e1 IH]; intros s; simpl.
  - destruct (run e2 s). reflexivity.
  - destruct (step e s) as [s' c]. rewrite IH.
    destruct (run e1 s') as [s1 c1]. destruct (run e2 s1) as [s2 c2].
    rewrite app_assoc. reflexivity.
Qed.

(** [flush_size + 1] pushes into the buffer of a freshly started process. *)
Lemma run_pushes_past_size (flush_size : nat) front r1 r2 tv tm :
  (2 <= flush_size)%nat ->
  length front = (flush_size - 1)%nat ->
  run (map PushVehicle (front ++ [r1; r2])) (started_system flush_size tv tm)
  = ({| buffer :=
          {| vehicleBuffer := [r2]; meterBuffer := []; flushTimer := true;
             FLUSH_SIZE := Some (Z.of_nat flush_size);
             vehicleFlushes := [front ++ [r1]]; meterFlushes := [] |};
        vehicle_tables := tv;
        meter_tables := tm |}, []).
Proof.
  intros Hsize Hfront.
  rewrite map_app, run_app.
  erewrite run_pushes_below; [|reflexivity|cbn; lia].
  cbn [map run step buffer vehicle_tables meter_tables started_system].
  rewrite (pushVehicle_reaching_size r1 _ (Z.of_nat flush_size));
    [|reflexivity|cbn; lia].
  unfold pushVehicle, reaches_FLUSH_SIZE. cbn.
  destruct (Z.leb_spec (Z.of_nat flush_size) (Z.of_nat 1)); [lia|]. reflexivity.
Qed.

Lemma run_meter_pushes_past_size (flush_size : nat) front r1 r2 tv tm :
  (2 <= flush_size)%nat ->
  length front = (flush_size - 1)%nat ->
  run (map PushMeter (front ++ [r1; r2])) (started_system flush_size tv tm)
  = ({| buffer :=
          {| vehicleBuffer := []; meterBuffer := [r2]; flushTimer := true;
             FLUSH_SIZE := Some (Z.of_nat flush_size);
             vehicleFlushes := []; meterFlushes := [front ++ [r1]] |};
        vehicle_tables := tv;
        meter_tables := tm |}, []).
Proof.
  intros Hsize Hfront.
  rewrite map_app, run_app.
  erewrite run_meter_pushes_below; [|reflexivity|cbn; lia].
  cbn [map run step buffer vehicle_tables meter_tables started_system].
  rewrite (pushMeter_reaching_size r1 _ (Z.of_nat flush_size));
    [|reflexivity|cbn; lia].
  unfold pushMeter, reaches_FLUSH_SIZE. cbn.
  destruct (Z.leb_spec (Z.of_nat flush_size) (Z.of_nat 1)); [lia|]. reflexivity.
Qed.

Lemma one_vehicle_size_flush_holds (flush_size : nat) :
  (2 <= flush_size)%nat -> one_vehicle_size_flush flush_size.
Proof.
  intros Hsize rs tv tm env Hlen Hok.
  assert (exists front r1 r2,
             rs = front ++ [r1; r2] /\ length front = (flush_size - 1)%nat)
    as (front & r1 & r2 & -> & Hfront).
  { destruct (rev rs) as [|r2 [|r1 tl]] eqn:Hrev;
      apply (f_equal length) in Hrev as Hl; rewrite length_rev in Hl;
      cbn [length] in Hl; try lia.
    exists (rev tl), r1, r2. split.
    - rewrite <- (rev_involutive rs), Hrev. cbn [rev]. rewrite <- app_assoc.
      reflexivity.
    - rewrite length_rev. lia. }
  assert (take flush_size (front ++ [r1; r2]) = front ++ [r1]) as Htake.
  { rewrite (cons_middle r1 front [r2]), app_assoc.
    apply take_app_length'. rewrite length_app. cbn [length]. lia. }
  assert (drop flush_size (front ++ [r1; r2]) = [r2]) as Hdrop.
  { rewrite (cons_middle r1 front [r2]), app_assoc.
    apply drop_app_length'. rewrite length_app. cbn [length]. lia. }
  rewrite Htake in Hok. cbv zeta.
  rewrite Htake, Hdrop, run_pushes_past_size by assumption.
  cbn.
  destruct (run_ingestBatch env (front ++ [r1]) tv) as [[o t'] tr] eqn:Hrun.
  simpl in Hok. subst o. cbn.
  repeat split; eauto.
Qed.

Lemma one_meter_size_flush_holds (flush_size : nat) :
  (2 <= flush_size)%nat -> one_meter_size_flush flush_size.
Proof.
  intros Hsize rs tv tm env Hlen Hok.
  assert (exists front r1 r2,
             rs = front ++ [r1; r2] /\ length front = (flush_size - 1)%nat)
    as (front & r1 & r2 & -> & Hfront).
  { destruct (rev rs) as [|r2 [|r1 tl]] eqn:Hrev;
      apply (f_equal length) in Hrev as Hl; rewrite length_rev in Hl;
      cbn [length] in Hl; try lia.
    exists (rev tl), r1, r2. split.
    - rewrite <- (rev_involutive rs), Hrev. cbn [rev]. rewrite <- app_assoc.
      reflexivity.
    - rewrite length_rev. lia. }
  assert (take flush_size (front ++ [r1; r2]) = front ++ [r1]) as Htake.
  { rewrite (cons_middle r1 front [r2]), app_assoc.
    apply take_app_length'. rewrite length_app. cbn [length]. lia. }
  assert (drop flush_size (front ++ [r1; r2]) = [r2]) as Hdrop.
  { rewrite (cons_middle r1 front [r2]), app_assoc.
    apply drop_app_length'. rewrite length_app. cbn [length]. lia. }
  rewrite Htake in Hok. cbv zeta.
  rewrite Htake, Hdrop, run_meter_pushes_past_size by assumption.
  cbn.
  destruct (run_ingestBatch env (front ++ [r1]) tm) as [[o t'] tr] eqn:Hrun.
  simpl in Hok. subst o. cbn.
  repeat split; eauto.
Qed.

(** C5 (amended).  With a threshold of at least two, [FLUSH_SIZE + 1]
    pushes into the empty buffer of a class start exactly one flush: the push
    that brings the buffer to [FLUSH_SIZE] swaps the buffer for an empty one
    and hands exactly the first [FLUSH_SIZE] records to the repository, and
    the last record stays in the fresh buffer until the next trigger. *)
Theorem C5_one_size_triggered_flush (flush_size : nat) :
  (2 <= flush_size)%nat -> exactly_one_size_flush flush_size.
Proof.
  intros Hsize. split.
  - apply one_vehicle_size_flush_holds, Hsize.
  - apply one_meter_size_flush_holds, Hsize.
Qed.

Lemma C5_one_size_triggered_flush_witness :
  let rs := [V001_at_10_00_00; V002_at_10_00_00; V001_at_10_00_30] in
  let pushed := run (map PushVehicle rs) (started_system 2 empty_tables empty_tables) in
  vehicleFlushes (buffer pushed.1) = [[V001_at_10_00_00; V002_at_10_00_00]]
  /\ vehicleBuffer (buffer pushed.1) = [V001_at_10_00_30].
Proof.
  assert (2 <= 2)%nat as Hsize by lia.
  destruct (proj1 (C5_one_size_triggered_flush 2 Hsize)
              [V001_at_10_00_00; V002_at_10_00_00; V001_at_10_00_30]
              empty_tables empty_tables sample_env)
    as (_ & Hflushes & Hbuffer & _).
  - reflexivity.
  - vm_compute. reflexivity.
  - split; assumption.
Defined.

(** C5 as stated fails for a threshold of one: every push then fills the
    buffer, so the second push starts a second flush and nothing stays
    behind. *)
Lemma C5_threshold_one_flushes_every_push :
  ~ exactly_one_size_flush 1.
Proof.
  intros [Hclaim _].
  destruct (Hclaim [V001_at_10_00_00; V002_at_10_00_00] empty_tables empty_tables
              sample_env eq_refl eq_refl) as (_ & Hflushes & _).
  vm_compute in Hflushes. discriminate.
Qed.

(** C9.  [ingestBatch] on an empty list returns at once: the query runner
    is exactly as before, so no connection was taken and no transaction
    started.  A flush of an empty buffer returns the service unchanged, and
    a timer tick on two empty buffers changes nothing and calls no
    repository. *)
Theorem C9_empty_batch_and_empty_buffer :
  (forall env q, VehicleTelemetryRepository.ingestBatch env [] q = (Ok (), q))
  /\ (forall env q, MeterTelemetryRepository.ingestBatch env [] q = (Ok (), q))
  /\ (forall env (t : VehicleTables),
        run_ingestBatch env ([] : list VehiclePayloadDto) t = (Ok (), t, []))
  /\ (forall b, vehicleBuffer b = [] -> flushVehicles b = b)
  /\ (forall b, meterBuffer b = [] -> flushMeters b = b)
  /\ (forall s, vehicleBuffer (buffer s) = [] -> meterBuffer (buffer s) = [] ->
        step TimerFires s = (s, [])).
Proof.
  repeat split; try reflexivity.
  - apply flushVehicles_empty.
  - apply flushMeters_empty.
  - intros s Hv Hm. simpl. unfold flushAll.
    rewrite (flushVehicles_empty _ Hv), (flushMeters_empty _ Hm).
    destruct s. destruct (flushTimer _); reflexivity.
Qed.

Lemma C9_empty_buffer_witness :
  step TimerFires sample_system = (sample_system, []).
Proof.
  apply (proj2 (proj2 (proj2 (proj2 (proj2 C9_empty_batch_and_empty_buffer)))));
    reflexivity.
Defined.

(** ** Claims about validation *)

Lemma validate_nil_iff isISO8601 (meta : Metadata) (o : gmap string JsValue) :
  validate isISO8601 meta o = []
  <-> Forall (fun entry =>
                Forall (fun d => passes isISO8601 d (property o entry.1) = true) entry.2)
             meta.
Proof.
  unfold validate. induction meta as [|[name ds] meta IH]; simpl.
  - split; [constructor|reflexivity].
  - rewrite Forall_cons, <- IH. simpl.
    destruct (filter _ ds) as [|d0 failed] eqn:Hf; simpl.
    + split; [|intros [_ ?]; assumption]. intros Hrest. split; [|assumption].
      apply Forall_forall. intros d Hd.
      destruct (passes isISO8601 d (property o name)) eqn:Hp; [reflexivity|].
      assert (d ∈ filter (fun d => passes isISO8601 d (property o name) = false) ds)
        as Hin by (apply list_elem_of_filter; auto).
      rewrite Hf in Hin. apply not_elem_of_nil in Hin. contradiction.
    + split; [discriminate|]. intros [Hall _]. exfalso.
      assert (d0 ∈ filter (fun d => passes isISO8601 d (property o name) = false) ds)
        as Hin by (rewrite Hf; left).
      apply list_elem_of_filter in Hin as [Hfail Hin].
      rewrite Forall_forall in Hall. rewrite (Hall _ Hin) in Hfail. discriminate.
Qed.

(** Every validation error carries at least one message. *)
Lemma validate_errors_have_messages isISO8601 (meta : Metadata) o :
  Forall (fun e => constraints e <> []) (validate isISO8601 meta o).
Proof.
  unfold validate. induction meta as [|[name ds] meta IH]; simpl; [constructor|].
  apply Forall_app. split; [|assumption].
  destruct (filter _ ds) as [|d0 failed]; constructor; [|constructor].
  simpl. discriminate.
Qed.

Lemma validate_messages_nonempty isISO8601 (meta : Metadata) o :
  validate isISO8601 meta o <> [] ->
  flat_map constraints (validate isISO8601 meta o) <> [].
Proof.
  pose proof (validate_errors_have_messages isISO8601 meta o) as Hall.
  destruct (validate isISO8601 meta o) as [|e errors]; [contradiction|].
  intros _. apply Forall_cons in Hall as [He _]. simpl.
  destruct (constraints e); [contradiction|discriminate].
Qed.

(** The decorators of [VehiclePayloadDto] accept exactly the well-formed
    payloads; the identifier may have any length. *)
Lemma validate_vehicle_accepts isISO8601 (o : gmap string JsValue) :
  validate isISO8601 VehiclePayloadDto_metadata o = []
  <-> well_formed_vehicle isISO8601 o.
Proof.
  rewrite validate_nil_iff. unfold VehiclePayloadDto_metadata, well_formed_vehicle.
  rewrite !Forall_cons, !Forall_nil. cbn [fst snd].
  rewrite !Forall_cons, !Forall_nil.
  split.
  - intros ((Hid1 & Hid2 & _) & (Hs1 & Hs2 & Hs3 & _) & (Hk1 & Hk2 & _)
            & (Hb & _) & (Ht & _) & _).
    repeat split.
    + destruct (property o "vehicleId"); try discriminate. eexists. split; [reflexivity|].
      simpl in Hid2. intros ->. discriminate.
    + destruct (property o "soc") as [| | |[]| |]; try discriminate.
      simpl in Hs2, Hs3. apply Qle_bool_iff in Hs2, Hs3. eauto.
    + destruct (property o "kwhDeliveredDc") as [| | |[]| |]; try discriminate.
      simpl in Hk2. apply Qle_bool_iff in Hk2. eauto.
    + destruct (property o "batteryTemp") as [| | |[]| |]; try discriminate. eauto.
    + destruct (property o "timestamp"); try discriminate. simpl in Ht. eauto.
  - intros ((id & -> & Hid) & (q1 & -> & Hq1 & Hq1') & (q2 & -> & Hq2)
            & (q3 & ->) & (ts & -> & Hts)).
    simpl. repeat split; try assumption; try (apply Qle_bool_iff; assumption).
    destruct id; [contradiction|reflexivity].
Qed.

(** An object without validation errors has the property types of the DTO. *)
Lemma validated_vehicle_is_typed isISO8601 (o : gmap string JsValue) :
  validate isISO8601 VehiclePayloadDto_metadata o = [] ->
  is_Some (as_VehiclePayloadDto o).
Proof.
  intros Hv. apply validate_vehicle_accepts in Hv
    as ((id & Hid & _) & (q1 & Hq1 & _) & (q2 & Hq2 & _) & (q3 & Hq3) & (ts & Hts & _)).
  unfold as_VehiclePayloadDto. rewrite Hid, Hq1, Hq2, Hq3, Hts. simpl. eauto.
Qed.

(** [ingestVehicle] buffers the well-formed plain objects and answers every
    other plain object with a 400 and at least one message, without
    buffering. *)
Lemma ingestVehicle_outcome isISO8601 (o : gmap string JsValue)
    (b : IngestionBufferService) :
  (well_formed_vehicle isISO8601 o ->
   exists dto, as_VehiclePayloadDto o = Some dto
               /\ TelemetryService.ingestVehicle isISO8601 (PObject o) b
                  = Ok (pushVehicle dto b))
  /\ (~ well_formed_vehicle isISO8601 o ->
      exists messages,
        TelemetryService.ingestVehicle isISO8601 (PObject o) b
        = Err (Http (BadRequestException "Invalid VEHICLE payload" messages))
        /\ messages <> []).
Proof.
  unfold TelemetryService.ingestVehicle. cbn [plainToInstance class_validate
    VehiclePayloadDto_metadata]. fold VehiclePayloadDto_metadata.
  cbn [mbind result_bind]. split.
  - intros Hwf. apply validate_vehicle_accepts in Hwf.
    destruct (validated_vehicle_is_typed _ _ Hwf) as [dto Hdto].
    exists dto. rewrite Hwf, Hdto. simpl. auto.
  - intros Hwf. rewrite <- validate_vehicle_accepts in Hwf.
    pose proof (validate_messages_nonempty _ _ _ Hwf) as Hmsg.
    destruct (validate isISO8601 VehiclePayloadDto_metadata o) as [|e errors] eqn:Hv;
      [contradiction|].
    simpl. eauto.
Qed.

(** A record whose identifier does not fit [VARCHAR(64)] fails every batch
    it is part of. *)
Lemma overlong_identifier_fails_batch env (records : list VehiclePayloadDto)
    (t : VehicleTables) r :
  r ∈ records ->
  varchar 64 (vehicleId r) = Err StringDataRightTruncation ->
  exists e, (run_ingestBatch env records t).1.1 = Err e
            /\ (run_ingestBatch env records t).1.2 = t.
Proof.
  intros Hr Hlong.
  destruct (run_ingestBatch env records t) as [[o t'] s] eqn:Hrun.
  apply run_ingestBatch_spec in Hrun. simpl.
  destruct o as [u|e]; [|eauto].
  destruct Hrun as (hs & _ & _ & Hhs & _).
  apply traverse_Ok_Forall2 in Hhs.
  apply list_elem_of_lookup in Hr as [i Hi].
  destruct (Forall2_lookup_l _ _ _ _ _ Hhs Hi) as (h & _ & Hrow).
  simpl in Hrow. unfold VehicleTelemetryRepository.history_values in Hrow.
  rewrite Hlong in Hrow. discriminate.
Qed.

(** C6.  A VEHICLE payload whose identifier has 65 characters and whose
    other fields are valid passes validation and is buffered (the request
    is answered 202), although no [vehicle_id] column can hold it: the
    batch that contains the record fails in the database, here with the
    record alone in the batch.  The claim expects a 400. *)
Theorem C6_overlong_identifier_is_accepted :
  String.length overlong_vehicleId = 65%nat
  /\ TelemetryService.ingest sample_isISO8601 "VEHICLE"
       (PObject (vehicle_payload overlong_vehicleId)) (buffer sample_system)
     = Ok (pushVehicle overlong_vehicle (buffer sample_system))
  /\ status_of (TelemetryService.ingest sample_isISO8601 "VEHICLE"
                  (PObject (vehicle_payload overlong_vehicleId))
                  (buffer sample_system)) = 202
  /\ vehicleBuffer (pushVehicle overlong_vehicle (buffer sample_system))
     = [overlong_vehicle]
  /\ run_ingestBatch sample_env [overlong_vehicle] (empty_tables : VehicleTables)
     = (Err StringDataRightTruncation, empty_tables,
        [Connect; StartTransaction; InsertHistory; RollbackTransaction; Release]).
Proof. vm_compute. repeat split; reflexivity. Qed.

(** ** Claims about the analytics service *)



Lemma of_numeric_nonneg (s : nat) (v : Z) : 0 <= v -> (0 <= of_numeric s v)%Q.
Proof.
  intros Hv. unfold of_numeric, Qdiv.
  apply Qmult_le_0_compat.
  - unfold Qle. simpl. lia.
  - apply Qinv_le_0_compat. unfold Qle, pow10. simpl.
    pose proof (Z.pow_nonneg 10 (Z.of_nat s)). lia.
Qed.

Lemma sum_nonneg (l : list Q) :
  Forall (fun q => (0 <= q)%Q) l -> (0 <= foldr Qplus 0%Q l)%Q.
Proof.
  induction 1 as [|q l Hq _ IH]; simpl.
  - apply Qle_refl.
  - replace 0%Q with (0 + 0)%Q by reflexivity. apply Qplus_le_compat; assumption.
Qed.

Lemma COALESCE_SUM_nonneg (l : list Q) :
  Forall (fun q => (0 <= q)%Q) l -> (0 <= COALESCE (SUM l) 0)%Q.
Proof.
  intros Hl. destruct l as [|q l]; [apply Qle_refl|].
  apply (sum_nonneg (q :: l) Hl).
Qed.

Lemma total_ac_consumed_nonneg (db : Database) now meterId :
  (forall r, r ∈ cold (meters db) -> 0 <= mh_kwh_consumed_ac r) ->
  (0 <= AnalyticsService.total_ac_consumed db now meterId)%Q.
Proof.
  intros Hrows. unfold AnalyticsService.total_ac_consumed.
  apply COALESCE_SUM_nonneg.
  apply Forall_forall. intros x Hx.
  apply list_elem_of_fmap in Hx as (r & -> & Hr).
  apply of_numeric_nonneg, Hrows.
  unfold AnalyticsService.meter_stats_rows in Hr.
  apply list_elem_of_filter in Hr as [_ Hr]. exact Hr.
Qed.

Lemma round_half_away_nonneg (q : Q) : (0 <= q)%Q -> 0 <= round_half_away q.
Proof.
  destruct q as [n d]. unfold Qle, round_half_away. cbn [Qnum Qden]. intros Hn.
  destruct (Z.leb_spec 0 n); [|lia].
  apply Z.div_pos; lia.
Qed.

Lemma numeric_nonneg (p s : nat) (q : Q) (v : Z) :
  numeric p s q = Ok v -> (0 <= q)%Q -> 0 <= v.
Proof.
  unfold numeric. intros Hv Hq.
  destruct (Z.abs _ <? pow10 p); [|discriminate]. injection Hv as <-.
  apply round_half_away_nonneg, Qmult_le_0_compat; [assumption|].
  unfold Qle, pow10. simpl. pose proof (Z.pow_nonneg 10 (Z.of_nat s)). lia.
Qed.

(** The write path keeps the meter history free of negative energy
    readings: validation asks for [kwhConsumedAc >= 0] and the column keeps
    the sign. *)
Lemma meter_history_stays_nonneg env (records : list MeterPayloadDto) (t : MeterTables) :
  Forall (fun r => (0 <= kwhConsumedAc r)%Q) records ->
  (forall h, h ∈ cold t -> 0 <= mh_kwh_consumed_ac h) ->
  forall h, h ∈ cold (run_ingestBatch env records t).1.2 -> 0 <= mh_kwh_consumed_ac h.
Proof.
  intros Hrec Hold h.
  destruct (run_ingestBatch env records t) as [[o t'] s] eqn:Hrun.
  apply run_ingestBatch_spec in Hrun. simpl.
  destruct o as [u|e]; [|subst; apply Hold].
  destruct Hrun as (hs & cs & hot' & Hhs & _ & _ & ->). simpl.
  rewrite elem_of_app. intros [Hh|Hh]; [apply Hold, Hh|].
  apply traverse_Ok_Forall2 in Hhs.
  apply list_elem_of_lookup in Hh as [i Hi].
  destruct (Forall2_lookup_r _ _ _ _ _ Hhs Hi) as (r & Hr & Hrow).
  rewrite Forall_forall in Hrec.
  assert (0 <= kwhConsumedAc r)%Q as Hq
      by (apply Hrec, list_elem_of_lookup; eauto).
  simpl in Hrow. unfold MeterTelemetryRepository.history_values in Hrow.
  destruct (varchar 64 (meterId r)); [|discriminate]. simpl in Hrow.
  destruct (numeric 10 4 (kwhConsumedAc r)) as [k|] eqn:Hk; [|discriminate].
  simpl in Hrow.
  destruct (numeric 6 2 (voltage r)); [|discriminate]. simpl in Hrow.
  destruct (timestamptz _); [|discriminate]. simpl in Hrow.
  injection Hrow as <-. simpl. eapply numeric_nonneg; eassumption.
Qed.





(** [binary64] depends on the value alone. *)
Lemma binary64_proper (x y : Q) : (x == y)%Q -> binary64 x = binary64 y.
Proof. intros Hxy. unfold binary64. rewrite (Qred_complete x y Hxy). reflexivity. Qed.

Lemma binary64_zero (x : Q) : (x == 0)%Q -> binary64 x = Finite 0.
Proof. intros Hx. rewrite (binary64_proper x 0 Hx). reflexivity. Qed.







Lemma pow10000_pos (k : nat) : 0 < 10000 ^ Z.of_nat k.
Proof. apply Z.pow_pos_nonneg; lia. Qed.

Lemma weight_up_spec (fuel : nat) :
  forall (k : nat) (n d : Z),
    0 < d ->
    d * 10000 ^ Z.of_nat k <= n ->
    n < d * 10000 ^ Z.of_nat (k + fuel) ->
    d * 10000 ^ Z.of_nat (weight_up fuel k n d) <= n
    /\ n < d * 10000 ^ Z.of_nat (S (weight_up fuel k n d)).
Proof.
  induction fuel as [|fuel IH]; intros k n d Hd Hlow Hhigh; cbn [weight_up].
  - rewrite Nat.add_0_r in Hhigh. lia.
  - destruct (Z.leb_spec (d * 10000 ^ Z.of_nat (S k)) n) as [Hle|Hlt].
    + apply IH; [assumption|assumption|].
      replace (S k + fuel)%nat with (k + S fuel)%nat by lia. assumption.
    + split; assumption.
Qed.

Lemma weight_down_spec (fuel : nat) :
  forall (k : nat) (n d : Z),
    (1 <= k)%nat ->
    n * 10000 ^ Z.of_nat (k - 1) < d ->
    (1 <= weight_down fuel k n d)%nat
    /\ n * 10000 ^ Z.of_nat (weight_down fuel k n d - 1) < d.
Proof.
  induction fuel as [|fuel IH]; intros k n d Hk Hlow; cbn [weight_down].
  - split; assumption.
  - destruct (Z.leb_spec d (n * 10000 ^ Z.of_nat k)) as [Hle|Hlt].
    + split; assumption.
    + apply IH; [lia|]. replace (S k - 1)%nat with k by lia. assumption.
Qed.

Lemma log2_fuel (n : Z) : 0 < n -> n < 10000 ^ Z.of_nat (S (Z.to_nat (Z.log2 n))).
Proof.
  intros Hn.
  pose proof (Z.log2_spec n Hn) as [_ Hlt].
  pose proof (Z.log2_nonneg n) as Hnn.
  rewrite Nat2Z.inj_succ, Z2Nat.id by assumption.
  eapply Z.lt_le_trans; [exact Hlt|].
  apply Z.pow_le_mono_l. lia.
Qed.

Lemma weight_down_reaches (fuel : nat) :
  forall (k : nat) (n d : Z),
    0 < n -> (1 <= k)%nat ->
    n * 10000 ^ Z.of_nat (k - 1) < d ->
    d <= n * 10000 ^ Z.of_nat (k + fuel - 1) ->
    d <= n * 10000 ^ Z.of_nat (weight_down fuel k n d).
Proof.
  induction fuel as [|fuel IH]; intros k n d Hn Hk Hlow Hhigh; cbn [weight_down].
  - rewrite Nat.add_0_r in Hhigh. lia.
  - destruct (Z.leb_spec d (n * 10000 ^ Z.of_nat k)) as [Hle|Hlt]; [assumption|].
    apply IH; [assumption|lia| |].
    + replace (S k - 1)%nat with k by lia. assumption.
    + replace (S k + fuel - 1)%nat with (k + S fuel - 1)%nat by lia. assumption.
Qed.

(** The weight [w] of a value [n / d] that is not zero: the position with
    [10000^w <= n / d < 10000^(w+1)]. *)
Lemma NBASE_weight_spec (x : Q) :
  ~ (x == 0)%Q ->
  let n := Z.abs (Qnum x) in
  let d := Z.pos (Qden x) in
  let w := NBASE_weight x in
  (0 <= w -> d * 10000 ^ w <= n /\ n < d * 10000 ^ (w + 1))
  /\ (w < 0 -> n * 10000 ^ (- w - 1) < d /\ d <= n * 10000 ^ (- w)).
Proof.
  intros Hx n d w. subst w. unfold NBASE_weight. fold n d.
  assert (0 < d) as Hd by (unfold d; lia).
  assert (0 < n) as Hn.
  { assert (Qnum x <> 0) by (intros Hz; apply Hx; unfold Qeq; simpl; lia).
    unfold n. lia. }
  destruct (Z.eqb_spec n 0) as [|_]; [lia|].
  destruct (Z.leb_spec d n) as [Hle|Hlt].
  - destruct (weight_up_spec (S (Z.to_nat (Z.log2 n))) 0 n d Hd) as [Hlow Hhigh].
    { simpl. lia. }
    { pose proof (log2_fuel n Hn) as Hf. cbn [Nat.add].
      pose proof (pow10000_pos (S (Z.to_nat (Z.log2 n)))). nia. }
    split; [|lia]. intros _. split; [assumption|].
    rewrite Nat2Z.inj_succ in Hhigh. exact Hhigh.
  - destruct (weight_down_spec (S (Z.to_nat (Z.log2 d))) 1 n d ltac:(lia)) as [Hk Hlow].
    { simpl. lia. }
    pose proof (weight_down_reaches (S (Z.to_nat (Z.log2 d))) 1 n d Hn ltac:(lia)) as Hhigh.
    split; [lia|]. intros _.
    replace (- - Z.of_nat (weight_down (S (Z.to_nat (Z.log2 d))) 1 n d) - 1)
      with (Z.of_nat (weight_down (S (Z.to_nat (Z.log2 d))) 1 n d - 1)) by lia.
    rewrite Z.opp_involutive. split; [assumption|].
    apply Hhigh; [simpl; lia|].
    replace (1 + S (Z.to_nat (Z.log2 d)) - 1)%nat with (S (Z.to_nat (Z.log2 d))) by lia.
    pose proof (log2_fuel d Hd) as Hf. nia.
Qed.











(** The scales and quotients PostgreSQL gives: [1/3] has 20 digits,
    [10/3.0] has 16, [100000/3.0] has 12, and [2/3] is rounded up in the
    last one; [0.1] and [78.22] as doubles, and the first value that is
    infinite. *)
Lemma numeric_div_examples :
  select_div_scale 1 3 0 0 = 20%nat
  /\ select_div_scale 10 3 0 1 = 16%nat
  /\ select_div_scale 100000 3 0 1 = 12%nat
  /\ (numeric_div 2 3 0 0 == 66666666666666666667 # 100000000000000000000)%Q.
Proof. vm_compute. repeat split; reflexivity. Qed.

Lemma binary64_examples :
  binary64 (1 # 10) = Finite (3602879701896397 # 36028797018963968)
  /\ binary64 (7822 # 100) = Finite (2752121584788439 # 35184372088832)
  /\ binary64 (inject_Z (2 ^ 1024 - 2 ^ 970)) = PosInfinity
  /\ binary64 (inject_Z (2 ^ 1024 - 2 ^ 970 - 1))
     = Finite (inject_Z (2 ^ 1024 - 2 ^ 971)).
Proof. vm_compute. repeat split; reflexivity. Qed.




(** On the sample database: 6.61 kWh DC against 8.45 kWh AC is 78.22 %. *)
Lemma sample_efficiency_ratio :
  match (AnalyticsService.getVehiclePerformance sample_database 1770890460000 "V001").1
  with
  | Ok p => efficiencyRatio p = binary64 (7822 # 100)
  | Err _ => False
  end.
Proof. vm_compute. reflexivity. Qed.

(** C8.  For a vehicle without a row in the link table the performance
    query throws a not-found exception (404) after the link lookup alone:
    the aggregation over the history tables is not sent. *)
Theorem C8_unlinked_vehicle_is_not_found (db : Database) (now : Z) (vehicleId : string) :
  vehicle_meter_link db !! vehicleId = None ->
  exists message,
    AnalyticsService.getVehiclePerformance db now vehicleId
    = (Err (NotFoundException message), [SelectVehicleMeterLink vehicleId])
    /\ getStatus (NotFoundException message) = 404
    /\ forall v m, SelectPerformance v m
                   ∉ (AnalyticsService.getVehiclePerformance db now vehicleId).2.
Proof.
  intros Hlink. unfold AnalyticsService.getVehiclePerformance. rewrite Hlink. cbn.
  eexists. split; [reflexivity|]. split; [reflexivity|].
  intros v m Hin. apply list_elem_of_singleton in Hin. discriminate.
Qed.

Lemma C8_unlinked_vehicle_witness :
  exists message,
    AnalyticsService.getVehiclePerformance sample_database 1770890460000 "V002"
    = (Err (NotFoundException message), [SelectVehicleMeterLink "V002"]).
Proof.
  destruct (C8_unlinked_vehicle_is_not_found sample_database 1770890460000 "V002")
    as (message & Hq & _).
  - vm_compute. reflexivity.
  - exists message. exact Hq.
Defined.

(** C10.  For every device type other than [VEHICLE], valid or not, the
    live-status lookup reads the meter current table and returns the row of
    the device or null; the history and the fleet-summary query reject a
    device type that is neither [VEHICLE] nor [METER] with a 400. *)
Theorem C10_live_status_falls_back_to_meter (db : Database)
    (deviceType deviceId : string) :
  deviceType <> "VEHICLE" ->
  AnalyticsService.getLiveStatus db deviceType deviceId
  = (Ok (MeterStatus <$> hot (meters db) !! deviceId),
     [SelectMeterCurrentStatus deviceId])
  /\ (deviceType <> "METER" ->
      (forall from to limit,
          exists e, AnalyticsService.getDeviceHistory db deviceType deviceId from to limit
                    = (Err e, []) /\ getStatus e = 400)
      /\ (forall (R : Type) (rollup : Query -> list R) from to,
          exists e, AnalyticsService.getFleetSummary rollup deviceType from to
                    = (Err e, []) /\ getStatus e = 400)).
Proof.
  intros Hv. apply String.eqb_neq in Hv. split.
  - unfold AnalyticsService.getLiveStatus. rewrite Hv.
    destruct (hot (meters db) !! deviceId); reflexivity.
  - intros Hm. apply String.eqb_neq in Hm. split.
    + intros from to limit. unfold AnalyticsService.getDeviceHistory.
      rewrite Hv, Hm. eexists. split; reflexivity.
    + intros R rollup from to. unfold AnalyticsService.getFleetSummary.
      rewrite Hv, Hm. eexists. split; reflexivity.
Qed.

Lemma C10_live_status_witness :
  AnalyticsService.getLiveStatus sample_database "BICYCLE" "M001"
  = (Ok (MeterStatus <$> hot (meters sample_database) !! "M001"),
     [SelectMeterCurrentStatus "M001"]).
Proof.
  apply (C10_live_status_falls_back_to_meter sample_database "BICYCLE" "M001").
  discriminate.
Defined.

(* ===================================================================== *)
(** * Part III: further properties of the code                            *)
(* ===================================================================== *)

(** ** The batch repositories *)

Lemma traverse_length {E A B} (f : A -> result E B) (l : list A) (bs : list B) :
  traverse f l = Ok bs -> length bs = length l.
Proof.
  intros Htr. apply traverse_Ok_Forall2 in Htr.
  symmetry. eapply Forall2_length, Htr.
Qed.

Section RepositoryFurther.
Context `{L : TelemetryLaws D H C V}.

(** If the history rows can be built, so can the current rows. *)
Lemma current_rows_exist date now (records : list D) (hs : list H) :
  traverse (history_row date now) records = Ok hs ->
  exists cs, traverse (current_row date now) records = Ok cs.
Proof.
  revert hs. induction records as [|r records IH]; intros hs Hh; simpl in *.
  - eauto.
  - apply bind_Ok_inv in Hh as (h & Hh1 & Hh).
    apply bind_Ok_inv in Hh as (hs' & Hh2 & Hh).
    destruct (IH _ Hh2) as (cs & Hcs).
    pose proof (rows_agree date now r) as Hag. rewrite Hh1 in Hag.
    destruct (current_row date now r) as [c|e] eqn:Hc; [|contradiction].
    exists (c :: cs). simpl. rewrite Hcs. reflexivity.
Qed.

(** The history only grows, by one row per record of a committed batch. *)
Lemma history_grows env (records : list D) (t : Tables H C) :
  cold t `prefix_of` cold (run_ingestBatch env records t).1.2
  /\ ((run_ingestBatch env records t).1.1 = Ok () ->
      length (cold (run_ingestBatch env records t).1.2)
      = (length (cold t) + length records)%nat)
  /\ ((run_ingestBatch env records t).1.1 <> Ok () ->
      cold (run_ingestBatch env records t).1.2 = cold t).
Proof.
  destruct (run_ingestBatch env records t) as [[r t'] s] eqn:Hrun.
  apply run_ingestBatch_spec in Hrun. simpl.
  destruct r as [[]|e].
  - destruct Hrun as (hs & cs & hot' & Hhs & _ & _ & ->). simpl.
    split; [apply prefix_app_r; reflexivity|]. split; [|congruence].
    intros _. rewrite length_app, (traverse_length _ _ _ Hhs). reflexivity.
  - subst t'. split; [reflexivity|]. split; [discriminate|reflexivity].
Qed.

Lemma history_grows_all (calls : list (Env * list D)) (t : Tables H C) :
  cold t `prefix_of` cold (ingest_all calls t).
Proof.
  revert t. induction calls as [|[env records] calls IH]; intros t; simpl.
  - reflexivity.
  - etransitivity; [|apply IH]. apply history_grows.
Qed.

(** A call never removes a device from the current table and never lowers
    its [last_seen_at]. *)
Lemma current_only_advances env (records : list D) (t : Tables H C) d c :
  hot t !! d = Some c ->
  exists c', hot (run_ingestBatch env records t).1.2 !! d = Some c'
             /\ hot_last_seen_at c <= hot_last_seen_at c'.
Proof.
  intros Hd.
  destruct (run_ingestBatch env records t) as [[r t'] s] eqn:Hrun.
  apply run_ingestBatch_spec in Hrun. simpl.
  destruct r as [u|e].
  - destruct Hrun as (hs & cs & hot' & _ & _ & Hup & ->). simpl.
    eapply upsert_monotone; eassumption.
  - subst t'. exists c. split; [assumption|lia].
Qed.

Lemma current_only_advances_all (calls : list (Env * list D)) :
  forall (t : Tables H C) d c,
    hot t !! d = Some c ->
    exists c', hot (ingest_all calls t) !! d = Some c'
               /\ hot_last_seen_at c <= hot_last_seen_at c'.
Proof.
  induction calls as [|[env records] calls IH]; intros t d c Hd; simpl.
  - exists c. split; [assumption|lia].
  - destruct (current_only_advances env records t d c Hd) as (c1 & H1 & Hle1).
    destruct (IH _ d c1 H1) as (c2 & H2 & Hle2).
    exists c2. split; [assumption|lia].
Qed.

(** The statement leaves the devices alone that it proposes no row for. *)
Lemma upsert_other_devices (cs : list C) :
  forall touched (m m' : gmap string C) d,
    on_conflict_do_update cs touched m = Ok m' ->
    d ∉ hot_id <$> cs ->
    m' !! d = m !! d.
Proof.
  induction cs as [|x cs IH]; intros touched m m' d Hup Hd; simpl in Hup.
  - injection Hup as <-. reflexivity.
  - rewrite fmap_cons, not_elem_of_cons in Hd. destruct Hd as [Hne Hd].
    destruct (m !! hot_id x) as [existing|] eqn:Hex.
    + destruct (decide (hot_id x ∈ touched)); [discriminate|].
      destruct (hot_last_seen_at existing <? hot_last_seen_at x).
      * rewrite (IH _ _ _ _ Hup Hd). apply lookup_insert_ne. congruence.
      * apply (IH _ _ _ _ Hup Hd).
    + rewrite (IH _ _ _ _ Hup Hd). apply lookup_insert_ne. congruence.
Qed.

Lemma ingestBatch_other_devices env (records : list D) (t : Tables H C) d :
  (forall rows, traverse (current_row (Date env) (NOW env)) records = Ok rows ->
                d ∉ hot_id <$> rows) ->
  hot (run_ingestBatch env records t).1.2 !! d = hot t !! d.
Proof.
  intros Hd.
  destruct (run_ingestBatch env records t) as [[r t'] s] eqn:Hrun.
  apply run_ingestBatch_spec in Hrun. simpl.
  destruct r as [u|e]; [|subst; reflexivity].
  destruct Hrun as (hs & cs & hot' & _ & Hcs & Hup & ->). simpl.
  eapply upsert_other_devices; eauto.
Qed.

(** Rows for pairwise different devices are all accepted. *)
Lemma upsert_distinct_devices_succeeds (cs : list C) :
  forall touched (m : gmap string C),
    NoDup (hot_id <$> cs) ->
    (forall x, x ∈ cs -> hot_id x ∉ touched) ->
    exists m', on_conflict_do_update cs touched m = Ok m'.
Proof.
  induction cs as [|x cs IH]; intros touched m Hnd Hfresh; simpl.
  - eauto.
  - rewrite fmap_cons in Hnd. apply NoDup_cons in Hnd as [Hx Hnd].
    assert (forall y, y ∈ cs -> hot_id y ∉ {[hot_id x]} ∪ touched) as Hfresh'.
    { intros y Hy Hin. apply elem_of_union in Hin as [Hin|Hin].
      - apply elem_of_singleton in Hin. apply Hx. rewrite <- Hin.
        apply list_elem_of_fmap. eauto.
      - apply (Hfresh y); [right; assumption|assumption]. }
    assert (forall y, y ∈ cs -> hot_id y ∉ touched) as Hfresh''
        by (intros y Hy; apply Hfresh; right; assumption).
    destruct (m !! hot_id x) as [existing|] eqn:Hex.
    + destruct (decide (hot_id x ∈ touched)) as [Hin|_].
      { exfalso. apply (Hfresh x); [left|assumption]. }
      destruct (hot_last_seen_at existing <? hot_last_seen_at x); apply IH; assumption.
    + apply IH; assumption.
Qed.

(** A batch whose values fit their columns and whose devices are pairwise
    different is committed when no step fails. *)
Lemma ingestBatch_succeeds env (records : list D) (t : Tables H C) hs :
  records <> [] ->
  no_failure env ->
  traverse (history_row (Date env) (NOW env)) records = Ok hs ->
  NoDup (cold_id <$> hs) ->
  exists hot',
    run_ingestBatch env records t
    = (Ok (), {| cold := cold t ++ hs; hot := hot' |}, committed_steps).
Proof.
  intros Hne Hno Hhs Hnd.
  destruct (current_rows_exist _ _ _ _ Hhs) as (cs & Hcs).
  pose proof (rows_agree_all _ _ _ _ _ Hhs Hcs) as Hag.
  assert (hot_id <$> cs = cold_id <$> hs) as Hids.
  { clear -Hag. induction Hag as [|h c hs cs (Hid & _) _ IH]; [reflexivity|].
    rewrite !fmap_cons. congruence. }
  destruct (upsert_distinct_devices_succeeds cs ∅ (hot t)) as (hot' & Hup).
  { rewrite Hids. assumption. }
  { intros x _. apply not_elem_of_empty. }
  exists hot'.
  assert ((length records =? 0)%nat = false) as Hlen
      by (destruct records; [contradiction|reflexivity]).
  unfold run_ingestBatch, ingestBatch. rewrite Hlen.
  unfold mbind, Tx_bind, connect, startTransaction, try_finally, try_catch,
    release, rollbackTransaction, throw, query, commitTransaction, record_step,
    insert_history, upsert_current.
  cbn -[traverse]. rewrite !Hno. cbn -[traverse]. rewrite Hhs.
  cbn -[traverse]. rewrite Hcs. cbn -[traverse]. rewrite Hup. reflexivity.
Qed.

(** The query runner is released exactly when the transaction was started:
    a failure of [connect] or [startTransaction] leaves it unreleased. *)
Lemma release_iff_started env (records : list D) (t : Tables H C) :
  records <> [] ->
  let s := (run_ingestBatch env records t).2 in
  (Release ∈ s <-> fails env Connect = false /\ fails env StartTransaction = false)
  /\ (fails env Connect = false -> fails env StartTransaction = false ->
      last s = Some Release).
Proof.
  intros Hne. unfold run_ingestBatch, ingestBatch.
  destruct records as [|r0 records]; [contradiction|]. cbn [length Nat.eqb].
  set (rs := r0 :: records).
  change (query env InsertHistory (insert_history env rs);;
          query env UpsertCurrent (upsert_current env rs);;
          commitTransaction env) with (writes env rs).
  unfold mbind, Tx_bind, connect, startTransaction, try_finally, try_catch,
    release, rollbackTransaction, throw, record_step. cbn -[writes].
  destruct (fails env Connect).
  { cbn. split; [|discriminate]. split; [|intros [? _]; discriminate].
    intros Hin. apply list_elem_of_singleton in Hin. discriminate. }
  destruct (fails env StartTransaction).
  { cbn. split; [|discriminate]. split; [|intros [_ ?]; discriminate].
    intros Hin. apply elem_of_cons in Hin as [?|Hin]; [discriminate|].
    apply list_elem_of_singleton in Hin. discriminate. }
  cbn -[writes].
  destruct (writes env rs _) as [[u|e] q]; [|destruct (fails env RollbackTransaction)];
    cbn; (split; [split; [auto|]; intros _; apply elem_of_app; right; left|]);
    intros _ _; apply last_snoc.
Qed.

End RepositoryFurther.

(** X1.  The history tables are append-only: whatever calls are made, the
    rows that were there stay, in place and unchanged, as a prefix of the
    table; a call that returns adds exactly one row per record of its
    batch, and a call that throws adds none. *)
Theorem X1_history_is_append_only :
  (forall (calls : list (Env * list VehiclePayloadDto)) (t : VehicleTables),
      cold t `prefix_of` cold (ingest_all calls t))
  /\ (forall (calls : list (Env * list MeterPayloadDto)) (t : MeterTables),
      cold t `prefix_of` cold (ingest_all calls t))
  /\ (forall env (records : list VehiclePayloadDto) (t : VehicleTables),
      ((run_ingestBatch env records t).1.1 = Ok () ->
       length (cold (run_ingestBatch env records t).1.2)
       = (length (cold t) + length records)%nat)
      /\ ((run_ingestBatch env records t).1.1 <> Ok () ->
          cold (run_ingestBatch env records t).1.2 = cold t))
  /\ (forall env (records : list MeterPayloadDto) (t : MeterTables),
      ((run_ingestBatch env records t).1.1 = Ok () ->
       length (cold (run_ingestBatch env records t).1.2)
       = (length (cold t) + length records)%nat)
      /\ ((run_ingestBatch env records t).1.1 <> Ok () ->
          cold (run_ingestBatch env records t).1.2 = cold t)).
Proof.
  split; [|split; [|split]].
  - intros calls t. apply history_grows_all.
  - intros calls t. apply history_grows_all.
  - intros env records t. apply history_grows.
  - intros env records t. apply history_grows.
Qed.

Lemma X1_history_witness :
  length (cold (run_ingestBatch sample_env [V001_at_10_00_00; V002_at_10_00_00]
                  vehicle_tables_after_10_00_30).1.2) = 3%nat.
Proof.
  apply (proj1 (proj1 (proj2 (proj2 X1_history_is_append_only)) sample_env
                  [V001_at_10_00_00; V002_at_10_00_00] vehicle_tables_after_10_00_30)).
  vm_compute. reflexivity.
Defined.

(** X2.  A device that has a current row keeps one through every sequence
    of calls, and its [last_seen_at] never goes down. *)
Theorem X2_current_row_only_advances :
  (forall (calls : list (Env * list VehiclePayloadDto)) (t : VehicleTables) d c,
      hot t !! d = Some c ->
      exists c', hot (ingest_all calls t) !! d = Some c'
                 /\ vc_last_seen_at c <= vc_last_seen_at c')
  /\ (forall (calls : list (Env * list MeterPayloadDto)) (t : MeterTables) d c,
      hot t !! d = Some c ->
      exists c', hot (ingest_all calls t) !! d = Some c'
                 /\ mc_last_seen_at c <= mc_last_seen_at c').
Proof.
  split; intros calls t d c; exact (current_only_advances_all calls t d c).
Qed.

Lemma X2_current_row_witness :
  exists c', hot (ingest_all [(sample_env, [V001_at_10_00_00]);
                              (failing_env, [V002_at_10_00_00])]
                    vehicle_tables_after_10_00_30) !! "V001" = Some c'
             /\ 1770890430000 <= vc_last_seen_at c'.
Proof.
  destruct (proj1 X2_current_row_only_advances
              [(sample_env, [V001_at_10_00_00]); (failing_env, [V002_at_10_00_00])]
              vehicle_tables_after_10_00_30 "V001"
              {| vc_vehicle_id := "V001"; vc_soc := 7300; vc_kwh_delivered_dc := 34000;
                 vc_battery_temp := 3160; vc_last_seen_at := 1770890430000;
                 vc_updated_at := 1770890460000 |})
    as (c' & Hc & Hle).
  - vm_compute. reflexivity.
  - exists c'. split; assumption.
Defined.

(** X3.  A call leaves the current row of every device untouched for which
    its batch has no record: the row, or its absence, is the same after the
    call, whether the call returns or throws. *)
Theorem X3_other_devices_untouched :
  (forall env (records : list VehiclePayloadDto) (t : VehicleTables) d,
      (forall rows, traverse (current_row (Date env) (NOW env)) records = Ok rows ->
                    d ∉ vc_vehicle_id <$> rows) ->
      hot (run_ingestBatch env records t).1.2 !! d = hot t !! d)
  /\ (forall env (records : list MeterPayloadDto) (t : MeterTables) d,
      (forall rows, traverse (current_row (Date env) (NOW env)) records = Ok rows ->
                    d ∉ mc_meter_id <$> rows) ->
      hot (run_ingestBatch env records t).1.2 !! d = hot t !! d).
Proof.
  split; intros env records t d; exact (ingestBatch_other_devices env records t d).
Qed.

Lemma X3_other_devices_witness :
  hot (run_ingestBatch sample_env [V002_at_10_00_00]
         vehicle_tables_after_10_00_30).1.2 !! "V001"
  = hot vehicle_tables_after_10_00_30 !! "V001".
Proof.
  apply (proj1 X3_other_devices_untouched).
  intros rows Hrows. vm_compute in Hrows. injection Hrows as <-.
  intros Hin. apply list_elem_of_singleton in Hin. discriminate.
Defined.

(** X4.  A non-empty batch whose values fit their columns and whose records
    belong to pairwise different devices is committed whenever no step of
    the call fails: the call returns, the history gains the rows of the
    batch, and the steps are connect, start, the two statements, commit,
    release. *)
Theorem X4_distinct_devices_are_committed :
  (forall env (records : list VehiclePayloadDto) (t : VehicleTables) rows,
      records <> [] -> no_failure env ->
      traverse (history_row (Date env) (NOW env)) records = Ok rows ->
      NoDup (vh_vehicle_id <$> rows) ->
      exists hot',
        run_ingestBatch env records t
        = (Ok (), {| cold := cold t ++ rows; hot := hot' |}, committed_steps))
  /\ (forall env (records : list MeterPayloadDto) (t : MeterTables) rows,
      records <> [] -> no_failure env ->
      traverse (history_row (Date env) (NOW env)) records = Ok rows ->
      NoDup (mh_meter_id <$> rows) ->
      exists hot',
        run_ingestBatch env records t
        = (Ok (), {| cold := cold t ++ rows; hot := hot' |}, committed_steps)).
Proof.
  split; intros env records t rows; exact (ingestBatch_succeeds env records t rows).
Qed.

Lemma X4_distinct_devices_witness :
  exists rows hot',
    run_ingestBatch sample_env [V001_at_10_00_00; V002_at_10_00_00]
      vehicle_tables_after_10_00_30
    = (Ok (), {| cold := cold vehicle_tables_after_10_00_30 ++ rows; hot := hot' |},
       committed_steps).
Proof.
  eexists.
  eapply (proj1 X4_distinct_devices_are_committed sample_env
            [V001_at_10_00_00; V002_at_10_00_00] vehicle_tables_after_10_00_30).
  - discriminate.
  - intros s. reflexivity.
  - vm_compute. reflexivity.
  - apply (bool_decide_unpack _). vm_compute. reflexivity.
Defined.

(** X5.  The query runner of a non-empty batch is released exactly when the
    transaction was started, and then as the last step: [connect] and
    [startTransaction] run before the [try], so a failure of either leaves
    the runner unreleased. *)
Theorem X5_released_iff_transaction_started :
  (forall env (records : list VehiclePayloadDto) (t : VehicleTables),
      records <> [] ->
      let s := (run_ingestBatch env records t).2 in
      (Release ∈ s <-> fails env Connect = false /\ fails env StartTransaction = false)
      /\ (fails env Connect = false -> fails env StartTransaction = false ->
          last s = Some Release))
  /\ (forall env (records : list MeterPayloadDto) (t : MeterTables),
      records <> [] ->
      let s := (run_ingestBatch env records t).2 in
      (Release ∈ s <-> fails env Connect = false /\ fails env StartTransaction = false)
      /\ (fails env Connect = false -> fails env StartTransaction = false ->
          last s = Some Release)).
Proof.
  split; intros env records t; apply release_iff_started.
Qed.

Lemma X5_released_witness :
  last (run_ingestBatch failing_env [V001_at_10_00_00]
          (empty_tables : VehicleTables)).2 = Some Release.
Proof.
  apply (proj1 X5_released_iff_transaction_started failing_env [V001_at_10_00_00]
           empty_tables); [discriminate|reflexivity|reflexivity].
Defined.

(** ** Validation against the column types *)

Lemma round_half_away_le (x : Q) (n : Z) :
  (0 <= x)%Q -> (x <= inject_Z n)%Q -> round_half_away x <= n.
Proof.
  destruct x as [a d]. unfold Qle, round_half_away. cbn [Qnum Qden inject_Z].
  intros Ha Hn. destruct (Z.leb_spec 0 a); [|lia].
  apply Z.lt_succ_r, Z.div_lt_upper_bound; nia.
Qed.

Lemma round_half_away_abs_ge (x : Q) (n : Z) :
  (inject_Z n <= Qabs x)%Q -> n <= Z.abs (round_half_away x).
Proof.
  destruct x as [a d]. unfold Qle, Qabs, round_half_away. cbn [Qnum Qden inject_Z].
  intros Hn.
  destruct (Z.leb_spec 0 a).
  - rewrite Z.abs_eq by (apply Z.div_pos; lia).
    apply Z.div_le_lower_bound; nia.
  - rewrite Z.abs_opp, Z.abs_eq by (apply Z.div_pos; lia).
    apply Z.div_le_lower_bound; nia.
Qed.

(** A number of magnitude [10^(p-s)] or more overflows [NUMERIC(p,s)]. *)
Lemma numeric_overflow (p s : nat) (q : Q) :
  (inject_Z (pow10 p) <= Qabs q * inject_Z (pow10 s))%Q ->
  numeric p s q = Err NumericValueOutOfRange.
Proof.
  intros Hq. unfold numeric.
  assert (pow10 p <= Z.abs (round_half_away (q * inject_Z (pow10 s)))) as Hge.
  { apply round_half_away_abs_ge. rewrite Qabs_Qmult.
    rewrite (Qabs_pos (inject_Z (pow10 s))); [assumption|].
    unfold Qle, pow10. simpl. pose proof (Z.pow_nonneg 10 (Z.of_nat s)). lia. }
  destruct (Z.ltb_spec (Z.abs (round_half_away (q * inject_Z (pow10 s)))) (pow10 p));
    [lia|reflexivity].
Qed.

(** A state of charge between 0 and 100 fits [NUMERIC(5,2)]. *)
Lemma soc_fits (q : Q) :
  (0 <= q)%Q -> (q <= 100)%Q ->
  exists v, numeric 5 2 q = Ok v /\ 0 <= v <= 10000.
Proof.
  intros H0 H100. unfold numeric.
  set (x := (q * inject_Z (pow10 2))%Q).
  assert (0 <= x)%Q as Hx0.
  { apply Qmult_le_0_compat; [assumption|]. vm_compute. discriminate. }
  assert (x <= inject_Z 10000)%Q as Hx1.
  { unfold x. assert (inject_Z 10000 == 100 * inject_Z (pow10 2))%Q as -> by reflexivity.
    apply Qmult_le_compat_r; [assumption|]. vm_compute. discriminate. }
  pose proof (round_half_away_le x 10000 Hx0 Hx1) as Hle.
  pose proof (round_half_away_nonneg x Hx0) as Hge.
  exists (round_half_away x).
  destruct (Z.ltb_spec (Z.abs (round_half_away x)) (pow10 5)) as [_|Hbad].
  - split; [reflexivity|lia].
  - change (pow10 5) with 100000 in Hbad. lia.
Qed.

(** X6.  A VEHICLE payload that passes validation carries a state of charge
    that fits its column: [soc] is stored as a value between 0.00 and
    100.00, and never overflows [NUMERIC(5,2)]. *)
Theorem X6_validated_soc_fits_its_column (isISO8601 : string -> bool)
    (o : gmap string JsValue) :
  validate isISO8601 VehiclePayloadDto_metadata o = [] ->
  exists dto v,
    as_VehiclePayloadDto o = Some dto
    /\ numeric 5 2 (soc dto) = Ok v
    /\ 0 <= v <= 10000.
Proof.
  intros Hv.
  apply validate_vehicle_accepts in Hv
    as ((id & Hid & _) & (q1 & Hq1 & Hlo & Hhi) & (q2 & Hq2 & _) & (q3 & Hq3)
        & (ts & Hts & _)).
  destruct (soc_fits q1 Hlo Hhi) as (v & Hv & Hrange).
  exists {| vehicleId := id; soc := q1; kwhDeliveredDc := q2; batteryTemp := q3;
            v_timestamp := ts |}, v.
  split; [|split; [exact Hv|exact Hrange]].
  unfold as_VehiclePayloadDto. rewrite Hid, Hq1, Hq2, Hq3, Hts. reflexivity.
Qed.

Lemma X6_validated_soc_witness :
  exists dto v,
    as_VehiclePayloadDto (vehicle_payload "V001") = Some dto
    /\ numeric 5 2 (soc dto) = Ok v
    /\ 0 <= v <= 10000.
Proof.
  apply (X6_validated_soc_fits_its_column sample_isISO8601 (vehicle_payload "V001")).
  vm_compute. reflexivity.
Defined.

(** A batch fails as a whole when a value of one record does not fit. *)
Lemma unstorable_vehicle_fails_batch env (records : list VehiclePayloadDto)
    (t : VehicleTables) r e :
  r ∈ records ->
  (forall date now, VehicleTelemetryRepository.history_values date now r = Err e) ->
  exists e', (run_ingestBatch env records t).1.1 = Err e'
             /\ (run_ingestBatch env records t).1.2 = t.
Proof.
  intros Hr Hbad.
  destruct (run_ingestBatch env records t) as [[o t'] s] eqn:Hrun.
  apply run_ingestBatch_spec in Hrun. simpl.
  destruct o as [u|e']; [|eauto].
  destruct Hrun as (hs & cs & hot' & Hhs & _).
  apply traverse_Ok_Forall2 in Hhs.
  apply list_elem_of_lookup in Hr as [i Hi].
  destruct (Forall2_lookup_l _ _ _ _ _ Hhs Hi) as (h & _ & Hrow).
  simpl in Hrow. rewrite Hbad in Hrow. discriminate.
Qed.

Lemma unstorable_meter_fails_batch env (records : list MeterPayloadDto)
    (t : MeterTables) r e :
  r ∈ records ->
  (forall date now, MeterTelemetryRepository.history_values date now r = Err e) ->
  exists e', (run_ingestBatch env records t).1.1 = Err e'
             /\ (run_ingestBatch env records t).1.2 = t.
Proof.
  intros Hr Hbad.
  destruct (run_ingestBatch env records t) as [[o t'] s] eqn:Hrun.
  apply run_ingestBatch_spec in Hrun. simpl.
  destruct o as [u|e']; [|eauto].
  destruct Hrun as (hs & cs & hot' & Hhs & _).
  apply traverse_Ok_Forall2 in Hhs.
  apply list_elem_of_lookup in Hr as [i Hi].
  destruct (Forall2_lookup_l _ _ _ _ _ Hhs Hi) as (h & _ & Hrow).
  simpl in Hrow. rewrite Hbad in Hrow. discriminate.
Qed.

(** Replacing the battery temperature of a well-formed payload by any
    finite number keeps it well-formed. *)
Lemma any_batteryTemp_is_valid isISO8601 (o : gmap string JsValue) (q : Q) :
  well_formed_vehicle isISO8601 o ->
  well_formed_vehicle isISO8601 (<["batteryTemp" := JsNumber (Finite q)]> o).
Proof.
  unfold well_formed_vehicle, property.
  intros (Hid & Hs & Hk & _ & Ht).
  rewrite lookup_insert_eq. rewrite !lookup_insert_ne by discriminate.
  repeat split; try assumption. simpl. eauto.
Qed.

(** X7.  Validation puts no bound on [batteryTemp], the column does: a
    record whose battery temperature has magnitude 1000 or more fails
    every batch it is part of, which is rolled back as a whole (nothing of
    the batch is persisted). *)
Theorem X7_unbounded_batteryTemp_fails_batch :
  (forall isISO8601 (o : gmap string JsValue) (q : Q),
      validate isISO8601 VehiclePayloadDto_metadata o = [] ->
      validate isISO8601 VehiclePayloadDto_metadata
               (<["batteryTemp" := JsNumber (Finite q)]> o) = [])
  /\ (forall env (records : list VehiclePayloadDto) (t : VehicleTables) r,
      r ∈ records ->
      (1000 <= Qabs (batteryTemp r))%Q ->
      exists e, (run_ingestBatch env records t).1.1 = Err e
                /\ (run_ingestBatch env records t).1.2 = t).
Proof.
  split.
  - intros isISO8601 o q. rewrite !validate_vehicle_accepts.
    apply any_batteryTemp_is_valid.
  - intros env records t r Hr Hq.
    assert (numeric 5 2 (batteryTemp r) = Err NumericValueOutOfRange) as Hnum.
    { apply numeric_overflow.
      assert (inject_Z (pow10 5) == 1000 * inject_Z (pow10 2))%Q as -> by reflexivity.
      apply Qmult_le_compat_r; [assumption|]. vm_compute. discriminate. }
    destruct (varchar 64 (vehicleId r)) as [id|e1] eqn:Hid.
    + destruct (numeric 5 2 (soc r)) as [s|e2] eqn:Hs.
      * destruct (numeric 10 4 (kwhDeliveredDc r)) as [k|e3] eqn:Hk.
        -- apply unstorable_vehicle_fails_batch with r NumericValueOutOfRange;
             [assumption|].
           intros date now. unfold VehicleTelemetryRepository.history_values.
           rewrite Hid, Hs, Hk, Hnum. reflexivity.
        -- apply unstorable_vehicle_fails_batch with r e3; [assumption|].
           intros date now. unfold VehicleTelemetryRepository.history_values.
           rewrite Hid, Hs, Hk. reflexivity.
      * apply unstorable_vehicle_fails_batch with r e2; [assumption|].
        intros date now. unfold VehicleTelemetryRepository.history_values.
        rewrite Hid, Hs. reflexivity.
    + apply unstorable_vehicle_fails_batch with r e1; [assumption|].
      intros date now. unfold VehicleTelemetryRepository.history_values.
      rewrite Hid. reflexivity.
Qed.

Lemma X7_unbounded_batteryTemp_witness :
  exists e,
    (run_ingestBatch sample_env [V001_at_10_00_00; V003_overheated]
       vehicle_tables_after_10_00_30).1.1 = Err e
    /\ (run_ingestBatch sample_env [V001_at_10_00_00; V003_overheated]
          vehicle_tables_after_10_00_30).1.2 = vehicle_tables_after_10_00_30.
Proof.
  apply (proj2 X7_unbounded_batteryTemp_fails_batch sample_env
           [V001_at_10_00_00; V003_overheated] vehicle_tables_after_10_00_30
           V003_overheated).
  - right. left.
  - vm_compute. discriminate.
Defined.

Lemma char_length_app (s1 s2 : string) :
  char_length (s1 +:+ s2) = (char_length s1 + char_length s2)%nat.
Proof.
  induction s1 as [|c s1 IH]; [reflexivity|].
  change (String c s1 +:+ s2) with (String c (s1 +:+ s2)).
  cbn [char_length]. rewrite IH. lia.
Qed.

Lemma char_length_take_continuation (s : string) :
  char_length (take_continuation s) = 0%nat.
Proof.
  induction s as [|c s IH]; [reflexivity|]. cbn [take_continuation].
  destruct (is_continuation c) eqn:Hc; [|reflexivity].
  cbn [char_length]. rewrite Hc, IH. reflexivity.
Qed.

Lemma char_length_take_chars (n : nat) (s : string) :
  (char_length (take_chars n s) <= n)%nat.
Proof.
  revert s. induction n as [|n IH]; intros s; [simpl; lia|].
  destruct s as [|c rest]; [simpl; lia|].
  cbn [take_chars char_length].
  rewrite char_length_app, char_length_take_continuation.
  specialize (IH (skip_continuation rest)).
  destruct (is_continuation c); lia.
Qed.

Lemma varchar_length (n : nat) (s s' : string) :
  varchar n s = Ok s' -> (char_length s' <= n)%nat.
Proof.
  unfold varchar. destruct (Nat.leb_spec (char_length s) n).
  - intros [= <-]. assumption.
  - destruct (all_spaces _); [|discriminate]. intros [= <-].
    apply char_length_take_chars.
Qed.

Lemma vehicle_row_identifier date now r h :
  VehicleTelemetryRepository.history_values date now r = Ok h ->
  (char_length (vh_vehicle_id h) <= 64)%nat.
Proof.
  unfold VehicleTelemetryRepository.history_values. intros Hrow.
  destruct (varchar 64 (vehicleId r)) as [id|] eqn:Hid; [|discriminate].
  apply varchar_length in Hid. simpl in Hrow.
  destruct (numeric 5 2 (soc r)); [|discriminate]. simpl in Hrow.
  destruct (numeric 10 4 (kwhDeliveredDc r)); [|discriminate]. simpl in Hrow.
  destruct (numeric 5 2 (batteryTemp r)); [|discriminate]. simpl in Hrow.
  destruct (timestamptz _); [|discriminate]. simpl in Hrow.
  injection Hrow as <-. exact Hid.
Qed.

Lemma meter_row_identifier date now r h :
  MeterTelemetryRepository.history_values date now r = Ok h ->
  (char_length (mh_meter_id h) <= 64)%nat.
Proof.
  unfold MeterTelemetryRepository.history_values. intros Hrow.
  destruct (varchar 64 (meterId r)) as [id|] eqn:Hid; [|discriminate].
  apply varchar_length in Hid. simpl in Hrow.
  destruct (numeric 10 4 (kwhConsumedAc r)); [|discriminate]. simpl in Hrow.
  destruct (numeric 6 2 (voltage r)); [|discriminate]. simpl in Hrow.
  destruct (timestamptz _); [|discriminate]. simpl in Hrow.
  injection Hrow as <-. exact Hid.
Qed.

Section Identifiers.
Context `{L : TelemetryLaws D H C V}.
Context (fits : forall date now (r : D) (h : H),
            history_row date now r = Ok h -> (char_length (cold_id h) <= 64)%nat).

Lemma identifiers_fit_ingestBatch env (records : list D) (t : Tables H C) :
  Forall (fun h => (char_length (cold_id h) <= 64)%nat) (cold t) ->
  Forall (fun h => (char_length (cold_id h) <= 64)%nat)
         (cold (run_ingestBatch env records t).1.2).
Proof.
  intros Hold.
  destruct (run_ingestBatch env records t) as [[r t'] s] eqn:Hrun.
  apply run_ingestBatch_spec in Hrun. simpl.
  destruct r as [u|e]; [|subst; assumption].
  destruct Hrun as (hs & cs & hot' & Hhs & _ & _ & ->). simpl.
  apply Forall_app. split; [assumption|].
  apply traverse_Ok_Forall2 in Hhs.
  apply Forall_forall. intros h Hh.
  apply list_elem_of_lookup in Hh as [i Hi].
  destruct (Forall2_lookup_r _ _ _ _ _ Hhs Hi) as (r & _ & Hrow).
  eapply fits, Hrow.
Qed.

Lemma identifiers_fit_all (calls : list (Env * list D)) (t : Tables H C) :
  Forall (fun h => (char_length (cold_id h) <= 64)%nat) (cold t) ->
  Forall (fun h => (char_length (cold_id h) <= 64)%nat) (cold (ingest_all calls t)).
Proof.
  revert t. induction calls as [|[env records] calls IH]; intros t Hold; simpl.
  - assumption.
  - apply IH, identifiers_fit_ingestBatch, Hold.
Qed.

Lemma identifiers_fit (calls : list (Env * list D)) :
  let t := ingest_all calls (empty_tables : Tables H C) in
  (forall h, h ∈ cold t -> (char_length (cold_id h) <= 64)%nat)
  /\ (forall d c, hot t !! d = Some c ->
        hot_id c = d /\ (char_length d <= 64)%nat).
Proof.
  intros t.
  assert (Forall (fun h => (char_length (cold_id h) <= 64)%nat) (cold t)) as Hcold
      by (apply identifiers_fit_all; constructor).
  rewrite Forall_forall in Hcold. split; [exact Hcold|].
  intros d c Hd.
  destruct (latest_wins_ingest_all calls _ latest_wins_empty) as [Hrow _].
  destruct (Hrow d c Hd) as (Hid & (h & Hin & Hhd & _) & _).
  split; [assumption|]. rewrite <- Hhd. apply Hcold, Hin.
Qed.

End Identifiers.

(** X8.  Starting from empty tables, whatever is ingested, no history row
    and no current row carries an identifier of more than 64 characters,
    and every current row is stored under its own identifier. *)
Theorem X8_stored_identifiers_fit :
  (forall calls : list (Env * list VehiclePayloadDto),
      let t := ingest_all calls (empty_tables : VehicleTables) in
      (forall h, h ∈ cold t -> (char_length (vh_vehicle_id h) <= 64)%nat)
      /\ (forall d c, hot t !! d = Some c ->
            vc_vehicle_id c = d /\ (char_length d <= 64)%nat))
  /\ (forall calls : list (Env * list MeterPayloadDto),
      let t := ingest_all calls (empty_tables : MeterTables) in
      (forall h, h ∈ cold t -> (char_length (mh_meter_id h) <= 64)%nat)
      /\ (forall d c, hot t !! d = Some c ->
            mc_meter_id c = d /\ (char_length d <= 64)%nat)).
Proof.
  split; intros calls.
  - exact (@identifiers_fit _ _ _ _ _ vehicle_laws vehicle_row_identifier calls).
  - exact (@identifiers_fit _ _ _ _ _ meter_laws meter_row_identifier calls).
Qed.

Lemma X8_stored_identifiers_witness :
  exists c,
    hot (ingest_all [(sample_env, [overlong_vehicle]); (sample_env, [V001_at_10_00_00])]
           (empty_tables : VehicleTables)) !! "V001" = Some c
    /\ vc_vehicle_id c = "V001" /\ (char_length "V001" <= 64)%nat.
Proof.
  eexists. split; [vm_compute; reflexivity|].
  apply (proj2 (proj1 X8_stored_identifiers_fit
                  [(sample_env, [overlong_vehicle]); (sample_env, [V001_at_10_00_00])])).
  vm_compute. reflexivity.
Defined.

(** The limit counts characters: an identifier of 33 two-byte characters
    is stored as it is. *)
Lemma two_byte_identifier_is_stored :
  String.length two_byte_identifier = 66%nat
  /\ char_length two_byte_identifier = 33%nat
  /\ varchar 64 two_byte_identifier = Ok two_byte_identifier
  /\ exists h, VehicleTelemetryRepository.history_values sample_Date 0
                 {| vehicleId := two_byte_identifier; soc := 50; kwhDeliveredDc := 1;
                    batteryTemp := 30; v_timestamp := "2026-02-12T10:00:00Z" |}
               = Ok h /\ vh_vehicle_id h = two_byte_identifier.
Proof.
  split; [reflexivity|]. split; [reflexivity|]. split; [reflexivity|].
  eexists. split; vm_compute; reflexivity.
Qed.

(** ** The ingestion buffer *)

Lemma held_vehicles_flushVehicles (b : IngestionBufferService) :
  held_vehicles (flushVehicles b) ≡ₚ held_vehicles b.
Proof.
  unfold held_vehicles, flushVehicles.
  destruct (vehicleBuffer b) as [|r l] eqn:Hb; simpl.
  - rewrite Hb. reflexivity.
  - rewrite join_app. simpl. rewrite app_nil_r.
    change (r :: l ++ mjoin (vehicleFlushes b))
      with ((r :: l) ++ mjoin (vehicleFlushes b)).
    apply Permutation_app_comm.
Qed.

Lemma held_meters_flushMeters (b : IngestionBufferService) :
  held_meters (flushMeters b) ≡ₚ held_meters b.
Proof.
  unfold held_meters, flushMeters.
  destruct (meterBuffer b) as [|r l] eqn:Hb; simpl.
  - rewrite Hb. reflexivity.
  - rewrite join_app. simpl. rewrite app_nil_r.
    change (r :: l ++ mjoin (meterFlushes b))
      with ((r :: l) ++ mjoin (meterFlushes b)).
    apply Permutation_app_comm.
Qed.

Lemma held_vehicles_flushMeters (b : IngestionBufferService) :
  held_vehicles (flushMeters b) = held_vehicles b.
Proof. unfold held_vehicles, flushMeters. destruct (_ =? _)%nat; reflexivity. Qed.

Lemma held_meters_flushVehicles (b : IngestionBufferService) :
  held_meters (flushVehicles b) = held_meters b.
Proof. unfold held_meters, flushVehicles. destruct (_ =? _)%nat; reflexivity. Qed.

Lemma held_vehicles_flushAll (b : IngestionBufferService) :
  held_vehicles (flushAll b) ≡ₚ held_vehicles b.
Proof.
  unfold flushAll. rewrite held_vehicles_flushMeters. apply held_vehicles_flushVehicles.
Qed.

Lemma held_meters_flushAll (b : IngestionBufferService) :
  held_meters (flushAll b) ≡ₚ held_meters b.
Proof.
  unfold flushAll. rewrite held_meters_flushMeters, held_meters_flushVehicles.
  reflexivity.
Qed.

Lemma held_vehicles_pushVehicle r (b : IngestionBufferService) :
  held_vehicles (pushVehicle r b) ≡ₚ held_vehicles b ++ [r].
Proof.
  unfold pushVehicle.
  assert (held_vehicles (set_vehicleBuffer (vehicleBuffer b ++ [r]) b)
          ≡ₚ held_vehicles b ++ [r]) as Hset.
  { unfold held_vehicles. simpl. rewrite <- !app_assoc.
    apply Permutation_app_head, Permutation_app_comm. }
  destruct (reaches_FLUSH_SIZE _ _); [|exact Hset].
  rewrite held_vehicles_flushVehicles. exact Hset.
Qed.

Lemma held_meters_pushMeter r (b : IngestionBufferService) :
  held_meters (pushMeter r b) ≡ₚ held_meters b ++ [r].
Proof.
  unfold pushMeter.
  assert (held_meters (set_meterBuffer (meterBuffer b ++ [r]) b)
          ≡ₚ held_meters b ++ [r]) as Hset.
  { unfold held_meters. simpl. rewrite <- !app_assoc.
    apply Permutation_app_head, Permutation_app_comm. }
  destruct (reaches_FLUSH_SIZE _ _); [|exact Hset].
  rewrite held_meters_flushMeters. exact Hset.
Qed.

Lemma held_vehicles_pushMeter r (b : IngestionBufferService) :
  held_vehicles (pushMeter r b) = held_vehicles b.
Proof.
  unfold pushMeter. destruct (reaches_FLUSH_SIZE _ _); [|reflexivity].
  rewrite held_vehicles_flushMeters. reflexivity.
Qed.

Lemma held_meters_pushVehicle r (b : IngestionBufferService) :
  held_meters (pushVehicle r b) = held_meters b.
Proof.
  unfold pushVehicle. destruct (reaches_FLUSH_SIZE _ _); [|reflexivity].
  rewrite held_meters_flushVehicles. reflexivity.
Qed.

(** One event: what is held afterwards, together with what the event got
    committed, is what was held before together with what it pushed. *)
Lemma step_conserves (e : Event) (s : System) :
  held_vehicles (buffer (step e s).1) ++ committed_vehicles (step e s).2
    ≡ₚ held_vehicles (buffer s) ++ pushed_vehicles [e]
  /\ held_meters (buffer (step e s).1) ++ committed_meters (step e s).2
    ≡ₚ held_meters (buffer s) ++ pushed_meters [e].
Proof.
  destruct e as [r|r| |i env|i env|]; simpl.
  - rewrite held_meters_pushVehicle, !app_nil_r. split; [|reflexivity].
    apply held_vehicles_pushVehicle.
  - rewrite held_vehicles_pushMeter, !app_nil_r. split; [reflexivity|].
    apply held_meters_pushMeter.
  - destruct (flushTimer (buffer s)); simpl; rewrite !app_nil_r;
      [|split; reflexivity].
    split; [apply held_vehicles_flushAll|apply held_meters_flushAll].
  - destruct (vehicleFlushes (buffer s) !! i) as [batch|] eqn:Hi; simpl;
      [|rewrite !app_nil_r; split; reflexivity].
    destruct (run_ingestBatch env batch (vehicle_tables s)) as [[o t'] tr]. simpl.
    rewrite !app_nil_r. split.
    + pose proof (join_Permutation _ _ (delete_Permutation _ _ _ Hi)) as Hj.
      simpl in Hj.
      destruct o as [u|err]; unfold held_vehicles; simpl; rewrite Hj.
      * rewrite <- app_assoc.
        apply Permutation_app_head, Permutation_app_comm.
      * rewrite app_nil_r, <- !app_assoc.
        apply Permutation_app_swap_app.
    + destruct o; reflexivity.
  - destruct (meterFlushes (buffer s) !! i) as [batch|] eqn:Hi; simpl;
      [|rewrite !app_nil_r; split; reflexivity].
    destruct (run_ingestBatch env batch (meter_tables s)) as [[o t'] tr]. simpl.
    rewrite !app_nil_r. split.
    + destruct o; reflexivity.
    + pose proof (join_Permutation _ _ (delete_Permutation _ _ _ Hi)) as Hj.
      simpl in Hj.
      destruct o as [u|err]; unfold held_meters; simpl; rewrite Hj.
      * rewrite <- app_assoc.
        apply Permutation_app_head, Permutation_app_comm.
      * rewrite app_nil_r, <- !app_assoc.
        apply Permutation_app_swap_app.
  - rewrite !app_nil_r. unfold onModuleDestroy. split.
    + rewrite held_vehicles_flushAll. reflexivity.
    + rewrite held_meters_flushAll. reflexivity.
Qed.

Lemma run_conserves (events : list Event) (s : System) :
  held_vehicles (buffer (run events s).1) ++ committed_vehicles (run events s).2
    ≡ₚ held_vehicles (buffer s) ++ pushed_vehicles events
  /\ held_meters (buffer (run events s).1) ++ committed_meters (run events s).2
    ≡ₚ held_meters (buffer s) ++ pushed_meters events.
Proof.
  revert s. induction events as [|e events IH]; intros s.
  - simpl. rewrite !app_nil_r. split; reflexivity.
  - destruct (step_conserves e s) as [Hv Hm].
    cbn [run]. destruct (step e s) as [s1 c1] eqn:Hstep.
    specialize (IH s1). destruct (run events s1) as [s2 c2] eqn:Hrun.
    destruct IH as [IHv IHm]. cbn [fst snd] in *.
    unfold committed_vehicles, committed_meters, pushed_vehicles, pushed_meters in *.
    change (e :: events) with ([e] ++ events).
    rewrite !flat_map_app.
    split.
    + rewrite (Permutation_app_comm (flat_map _ c1)), app_assoc, IHv.
      rewrite <- app_assoc, (Permutation_app_comm (flat_map _ events)), app_assoc, Hv.
      rewrite <- !app_assoc. reflexivity.
    + rewrite (Permutation_app_comm (flat_map _ c1)), app_assoc, IHm.
      rewrite <- app_assoc, (Permutation_app_comm (flat_map _ events)), app_assoc, Hm.
      rewrite <- !app_assoc. reflexivity.
Qed.

(** X9.  The buffer service neither loses nor duplicates a record: after
    any sequence of pushes, timer ticks, settled flushes and a shutdown,
    the records held (in a buffer or in the batch of a flush still under
    way) together with the records of the committed batches are, up to
    order, the records held at the start together with the records pushed
    since. *)
Theorem X9_no_record_lost_or_duplicated (events : list Event) (s : System) :
  held_vehicles (buffer (run events s).1) ++ committed_vehicles (run events s).2
    ≡ₚ held_vehicles (buffer s) ++ pushed_vehicles events
  /\ held_meters (buffer (run events s).1) ++ committed_meters (run events s).2
    ≡ₚ held_meters (buffer s) ++ pushed_meters events.
Proof. apply run_conserves. Qed.

Lemma pushVehicle_below_size r (b : IngestionBufferService) n :
  FLUSH_SIZE b = Some n -> 1 <= n ->
  Z.of_nat (length (vehicleBuffer (pushVehicle r b))) < n.
Proof.
  intros Hn H1. unfold pushVehicle, reaches_FLUSH_SIZE.
  cbn [FLUSH_SIZE set_vehicleBuffer vehicleBuffer]. rewrite Hn.
  destruct (Z.leb_spec n (Z.of_nat (length (vehicleBuffer b ++ [r])))).
  - unfold flushVehicles. cbn [vehicleBuffer set_vehicleBuffer].
    rewrite length_app. cbn [length]. rewrite Nat.add_1_r. simpl. lia.
  - simpl. assumption.
Qed.

Lemma pushMeter_below_size r (b : IngestionBufferService) n :
  FLUSH_SIZE b = Some n -> 1 <= n ->
  Z.of_nat (length (meterBuffer (pushMeter r b))) < n.
Proof.
  intros Hn H1. unfold pushMeter, reaches_FLUSH_SIZE.
  cbn [FLUSH_SIZE set_meterBuffer meterBuffer]. rewrite Hn.
  destruct (Z.leb_spec n (Z.of_nat (length (meterBuffer b ++ [r])))).
  - unfold flushMeters. cbn [meterBuffer set_meterBuffer].
    rewrite length_app. cbn [length]. rewrite Nat.add_1_r. simpl. lia.
  - simpl. assumption.
Qed.

(** X10.  With a threshold of at least one, a push always leaves its
    buffer shorter than the threshold, however long the buffer was before
    (a re-queued batch can make it longer than the threshold): either the
    record is appended below the threshold, or the whole buffer goes to a
    flush. *)
Theorem X10_push_leaves_buffer_below_threshold (b : IngestionBufferService) (n : Z) :
  FLUSH_SIZE b = Some n -> 1 <= n ->
  (forall r, Z.of_nat (getBufferDepth (pushVehicle r b)).1 < n)
  /\ (forall r, Z.of_nat (getBufferDepth (pushMeter r b)).2 < n).
Proof.
  intros Hn H1. split; intros r; simpl.
  - apply pushVehicle_below_size; assumption.
  - apply pushMeter_below_size; assumption.
Qed.

Lemma X10_push_witness :
  Z.of_nat (getBufferDepth
              (pushVehicle V001_at_10_00_30 (buffer system_during_flush))).1 < 500.
Proof.
  apply (X10_push_leaves_buffer_below_threshold (buffer system_during_flush) 500);
    [reflexivity|lia].
Defined.

Lemma run_pushes_without_size (rs : list VehiclePayloadDto) :
  forall s : System,
    FLUSH_SIZE (buffer s) = None ->
    run (map PushVehicle rs) s
    = ({| buffer := set_vehicleBuffer (vehicleBuffer (buffer s) ++ rs) (buffer s);
          vehicle_tables := vehicle_tables s;
          meter_tables := meter_tables s |}, []).
Proof.
  induction rs as [|r rs IH]; intros s Hn.
  - simpl. rewrite app_nil_r. destruct s as [[] ? ?]. reflexivity.
  - cbn [map run step]. unfold pushVehicle, reaches_FLUSH_SIZE.
    cbn [FLUSH_SIZE set_vehicleBuffer vehicleBuffer]. rewrite Hn.
    rewrite IH; cbn [buffer vehicleBuffer FLUSH_SIZE set_vehicleBuffer
                     vehicle_tables meter_tables]; [|exact Hn].
    rewrite <- app_assoc. reflexivity.
Qed.

Lemma run_meter_pushes_without_size (rs : list MeterPayloadDto) :
  forall s : System,
    FLUSH_SIZE (buffer s) = None ->
    run (map PushMeter rs) s
    = ({| buffer := set_meterBuffer (meterBuffer (buffer s) ++ rs) (buffer s);
          vehicle_tables := vehicle_tables s;
          meter_tables := meter_tables s |}, []).
Proof.
  induction rs as [|r rs IH]; intros s Hn.
  - simpl. rewrite app_nil_r. destruct s as [[] ? ?]. reflexivity.
  - cbn [map run step]. unfold pushMeter, reaches_FLUSH_SIZE.
    cbn [FLUSH_SIZE set_meterBuffer meterBuffer]. rewrite Hn.
    rewrite IH; cbn [buffer meterBuffer FLUSH_SIZE set_meterBuffer
                     vehicle_tables meter_tables]; [|exact Hn].
    rewrite <- app_assoc. reflexivity.
Qed.

(** X11.  When [BUFFER_FLUSH_SIZE] does not parse ([FLUSH_SIZE] is NaN) the
    size trigger never fires: any number of pushes only appends to the
    buffer, no flush is started and no repository is called. *)
Theorem X11_unparsable_threshold_disables_size_trigger (s : System) :
  FLUSH_SIZE (buffer s) = None ->
  (forall rs : list VehiclePayloadDto,
      run (map PushVehicle rs) s
      = ({| buffer := set_vehicleBuffer (vehicleBuffer (buffer s) ++ rs) (buffer s);
            vehicle_tables := vehicle_tables s;
            meter_tables := meter_tables s |}, []))
  /\ (forall rs : list MeterPayloadDto,
      run (map PushMeter rs) s
      = ({| buffer := set_meterBuffer (meterBuffer (buffer s) ++ rs) (buffer s);
            vehicle_tables := vehicle_tables s;
            meter_tables := meter_tables s |}, [])).
Proof.
  intros Hn. split; intros rs.
  - apply run_pushes_without_size, Hn.
  - apply run_meter_pushes_without_size, Hn.
Qed.

Lemma X11_unparsable_threshold_witness :
  let s := {| buffer := new_IngestionBufferService None;
              vehicle_tables := empty_tables; meter_tables := empty_tables |} in
  vehicleFlushes
    (buffer (run (map PushVehicle [V001_at_10_00_00; V002_at_10_00_00]) s).1) = [].
Proof.
  intros s.
  rewrite (proj1 (X11_unparsable_threshold_disables_size_trigger s eq_refl)).
  reflexivity.
Defined.

Lemma vehicle_step_keeps_meters (e : Event) (s : System) :
  vehicle_event e = true ->
  meterBuffer (buffer (step e s).1) = meterBuffer (buffer s)
  /\ meterFlushes (buffer (step e s).1) = meterFlushes (buffer s)
  /\ meter_tables (step e s).1 = meter_tables s
  /\ committed_meters (step e s).2 = [].
Proof.
  destruct e as [r|r| |i env|i env|]; try discriminate; intros _; simpl.
  - unfold pushVehicle. destruct (reaches_FLUSH_SIZE _ _); [|auto].
    unfold flushVehicles. destruct (_ =? _)%nat; auto.
  - destruct (vehicleFlushes (buffer s) !! i) as [batch|]; [|auto].
    destruct (run_ingestBatch env batch (vehicle_tables s)) as [[o t'] tr].
    destruct o; auto.
Qed.

Lemma meter_step_keeps_vehicles (e : Event) (s : System) :
  meter_event e = true ->
  vehicleBuffer (buffer (step e s).1) = vehicleBuffer (buffer s)
  /\ vehicleFlushes (buffer (step e s).1) = vehicleFlushes (buffer s)
  /\ vehicle_tables (step e s).1 = vehicle_tables s
  /\ committed_vehicles (step e s).2 = [].
Proof.
  destruct e as [r|r| |i env|i env|]; try discriminate; intros _; simpl.
  - unfold pushMeter. destruct (reaches_FLUSH_SIZE _ _); [|auto].
    unfold flushMeters. destruct (_ =? _)%nat; auto.
  - destruct (meterFlushes (buffer s) !! i) as [batch|]; [|auto].
    destruct (run_ingestBatch env batch (meter_tables s)) as [[o t'] tr].
    destruct o; auto.
Qed.

(** X12.  The two device classes do not interfere: pushes and settled
    flushes of vehicles leave the meter buffer, the suspended meter flushes
    and the meter tables as they are and commit no meter record, and the
    other way round. *)
Theorem X12_classes_are_independent (events : list Event) (s : System) :
  (forallb vehicle_event events = true ->
   meterBuffer (buffer (run events s).1) = meterBuffer (buffer s)
   /\ meterFlushes (buffer (run events s).1) = meterFlushes (buffer s)
   /\ meter_tables (run events s).1 = meter_tables s
   /\ committed_meters (run events s).2 = [])
  /\ (forallb meter_event events = true ->
      vehicleBuffer (buffer (run events s).1) = vehicleBuffer (buffer s)
      /\ vehicleFlushes (buffer (run events s).1) = vehicleFlushes (buffer s)
      /\ vehicle_tables (run events s).1 = vehicle_tables s
      /\ committed_vehicles (run events s).2 = []).
Proof.
  split; revert s; induction events as [|e events IH]; intros s Hall; simpl in *;
    try (repeat split; reflexivity).
  - apply andb_prop in Hall as [He Hall].
    destruct (vehicle_step_keeps_meters e s He) as (H1 & H2 & H3 & H4).
    destruct (step e s) as [s1 c1]. specialize (IH s1 Hall).
    destruct (run events s1) as [s2 c2]. cbn [fst snd] in *.
    destruct IH as (I1 & I2 & I3 & I4).
    unfold committed_meters in *. rewrite flat_map_app, H4, I4.
    repeat split; congruence.
  - apply andb_prop in Hall as [He Hall].
    destruct (meter_step_keeps_vehicles e s He) as (H1 & H2 & H3 & H4).
    destruct (step e s) as [s1 c1]. specialize (IH s1 Hall).
    destruct (run events s1) as [s2 c2]. cbn [fst snd] in *.
    destruct IH as (I1 & I2 & I3 & I4).
    unfold committed_vehicles in *. rewrite flat_map_app, H4, I4.
    repeat split; congruence.
Qed.

Lemma X12_classes_witness :
  meterBuffer (buffer (run [PushVehicle V001_at_10_00_30;
                            VehicleFlushSettles 0 sample_env] system_during_flush).1)
  = meterBuffer (buffer system_during_flush).
Proof.
  apply (proj1 (X12_classes_are_independent
                  [PushVehicle V001_at_10_00_30; VehicleFlushSettles 0 sample_env]
                  system_during_flush)).
  reflexivity.
Defined.

(** X13.  Shutdown is best effort.  [onModuleDestroy] stops the timer and
    starts a last flush; when the repository call of that flush throws, the
    batch is put back in the buffer, the tables are unchanged, nothing is
    left under way, and a timer tick no longer flushes: the records stay in
    memory, unpersisted. *)
Theorem X13_failed_drain_leaves_records_unpersisted (s : System) (env : Env) e :
  vehicleBuffer (buffer s) <> [] ->
  vehicleFlushes (buffer s) = [] ->
  (run_ingestBatch env (vehicleBuffer (buffer s)) (vehicle_tables s)).1.1 = Err e ->
  let s' := (run [Shutdown; VehicleFlushSettles 0 env; TimerFires] s).1 in
  flushTimer (buffer s') = false
  /\ vehicleBuffer (buffer s') = vehicleBuffer (buffer s)
  /\ vehicleFlushes (buffer s') = []
  /\ vehicle_tables s' = vehicle_tables s.
Proof.
  intros Hne Hnone Herr.
  cbn [run step]. unfold onModuleDestroy, flushAll.
  destruct (flushVehicles_detaches (set_flushTimer false (buffer s)) Hne)
    as (Hb & Hf & Hmb & Hmf & Hsz).
  cbn [vehicleFlushes set_flushTimer vehicleBuffer] in Hf. rewrite Hnone in Hf.
  assert (vehicleFlushes (flushMeters (flushVehicles (set_flushTimer false (buffer s))))
          = [vehicleBuffer (buffer s)]) as Hf'.
  { unfold flushMeters. destruct (_ =? _)%nat; exact Hf. }
  assert (vehicleBuffer (flushMeters (flushVehicles (set_flushTimer false (buffer s))))
          = []) as Hb'.
  { unfold flushMeters. destruct (_ =? _)%nat; exact Hb. }
  assert (flushTimer (flushMeters (flushVehicles (set_flushTimer false (buffer s))))
          = false) as Ht'.
  { unfold flushMeters, flushVehicles.
    destruct (_ =? _)%nat; destruct (_ =? _)%nat; reflexivity. }
  cbn [buffer vehicle_tables meter_tables]. rewrite Hf'. cbn [lookup list_lookup].
  destruct (run_ingestBatch env (vehicleBuffer (buffer s)) (vehicle_tables s))
    as [[o t'] tr] eqn:Hrun.
  pose proof (run_ingestBatch_spec _ _ _ _ _ _ Hrun) as Hspec.
  cbn [fst snd] in Herr. subst o. cbn in Hspec. subst t'.
  cbn [buffer flushVehicles_resume set_vehicleFlushes set_vehicleBuffer flushTimer
       vehicleBuffer vehicleFlushes vehicle_tables meter_tables fst snd].
  rewrite Ht', Hb'. cbn. rewrite app_nil_r. auto.
Qed.

Lemma X13_failed_drain_witness :
  let s := (run [PushVehicle V001_at_10_00_00] sample_system).1 in
  vehicleBuffer (buffer (run [Shutdown; VehicleFlushSettles 0 failing_env; TimerFires]
                             s).1)
  = [V001_at_10_00_00].
Proof.
  intros s.
  eapply (X13_failed_drain_leaves_records_unpersisted s failing_env
            (ConnectionFailure InsertHistory)).
  - discriminate.
  - reflexivity.
  - vm_compute. reflexivity.
Defined.

(** ** Payloads of any type and the dispatch of [ingest] *)

Lemma validate_meter_accepts isISO8601 (o : gmap string JsValue) :
  validate isISO8601 MeterPayloadDto_metadata o = []
  <-> well_formed_meter isISO8601 o.
Proof.
  rewrite validate_nil_iff. unfold MeterPayloadDto_metadata, well_formed_meter.
  rewrite !Forall_cons, !Forall_nil. cbn [fst snd].
  rewrite !Forall_cons, !Forall_nil.
  split.
  - intros ((Hid1 & Hid2 & _) & (Hk1 & Hk2 & _) & (Hv1 & Hv2 & _) & (Ht & _) & _).
    repeat split.
    + destruct (property o "meterId"); try discriminate. eexists. split; [reflexivity|].
      simpl in Hid2. intros ->. discriminate.
    + destruct (property o "kwhConsumedAc") as [| | |[]| |]; try discriminate.
      simpl in Hk2. apply Qle_bool_iff in Hk2. eauto.
    + destruct (property o "voltage") as [| | |[]| |]; try discriminate.
      simpl in Hv2. apply Qle_bool_iff in Hv2. eauto.
    + destruct (property o "timestamp"); try discriminate. simpl in Ht. eauto.
  - intros ((id & -> & Hid) & (q1 & -> & Hq1) & (q2 & -> & Hq2) & (ts & -> & Hts)).
    simpl. repeat split; try assumption; try (apply Qle_bool_iff; assumption).
    destruct id; [contradiction|reflexivity].
Qed.

Lemma validated_meter_is_typed isISO8601 (o : gmap string JsValue) :
  validate isISO8601 MeterPayloadDto_metadata o = [] ->
  is_Some (as_MeterPayloadDto o).
Proof.
  intros Hv. apply validate_meter_accepts in Hv
    as ((id & Hid & _) & (q1 & Hq1 & _) & (q2 & Hq2 & _) & (ts & Hts & _)).
  unfold as_MeterPayloadDto. rewrite Hid, Hq1, Hq2, Hts. simpl. eauto.
Qed.

Lemma ingestMeter_outcome isISO8601 (o : gmap string JsValue)
    (b : IngestionBufferService) :
  (well_formed_meter isISO8601 o ->
   exists dto, as_MeterPayloadDto o = Some dto
               /\ TelemetryService.ingestMeter isISO8601 (PObject o) b
                  = Ok (pushMeter dto b))
  /\ (~ well_formed_meter isISO8601 o ->
      exists messages,
        TelemetryService.ingestMeter isISO8601 (PObject o) b
        = Err (Http (BadRequestException "Invalid METER payload" messages))
        /\ messages <> []).
Proof.
  unfold TelemetryService.ingestMeter. cbn [plainToInstance class_validate
    MeterPayloadDto_metadata]. fold MeterPayloadDto_metadata.
  cbn [mbind result_bind]. split.
  - intros Hwf. apply validate_meter_accepts in Hwf.
    destruct (validated_meter_is_typed _ _ Hwf) as [dto Hdto].
    exists dto. rewrite Hwf, Hdto. simpl. auto.
  - intros Hwf. rewrite <- validate_meter_accepts in Hwf.
    pose proof (validate_messages_nonempty _ _ _ Hwf) as Hmsg.
    destruct (validate isISO8601 MeterPayloadDto_metadata o) as [|e errors] eqn:Hv;
      [contradiction|].
    simpl. eauto.
Qed.

(** X14.  The outcomes of [ingestMeter], for a payload of any type.  A
    plain object is buffered exactly when its [meterId] is a non-empty
    string, its [kwhConsumedAc] and [voltage] are finite numbers that are
    not negative and its [timestamp] is an ISO 8601 string; any other plain
    object is answered with a 400 that carries at least one message.  An
    array, a number or a boolean is answered with a 400 whose only message
    is that of an unknown value.  A string, [null] or [undefined] makes
    [validate] throw a TypeError, which the exception filter answers with a
    500.  Only the first case buffers anything. *)
Theorem X14_ingestMeter_outcomes (isISO8601 : string -> bool) (payload : Payload)
    (b : IngestionBufferService) :
  match payload with
  | PObject o =>
      (well_formed_meter isISO8601 o ->
       exists dto, as_MeterPayloadDto o = Some dto
                   /\ TelemetryService.ingestMeter isISO8601 payload b
                      = Ok (pushMeter dto b))
      /\ (~ well_formed_meter isISO8601 o ->
          exists messages,
            TelemetryService.ingestMeter isISO8601 payload b
            = Err (Http (BadRequestException "Invalid METER payload" messages))
            /\ messages <> [])
  | PArray _ | PNumber _ | PBoolean _ =>
      TelemetryService.ingestMeter isISO8601 payload b
      = Err (Http (BadRequestException "Invalid METER payload"
                     ["an unknown value was passed to the validate function"%string]))
  | PString _ | PNull | PUndefined =>
      exists message,
        TelemetryService.ingestMeter isISO8601 payload b = Err (TypeError message)
        /\ status_of (TelemetryService.ingestMeter isISO8601 payload b) = 500
  end.
Proof.
  destruct payload as [o|items|s|n|flag| |]; try reflexivity;
    try (eexists; split; reflexivity).
  apply ingestMeter_outcome.
Qed.

Lemma X14_ingestMeter_witness :
  exists dto,
    as_MeterPayloadDto (meter_payload "M001") = Some dto
    /\ TelemetryService.ingestMeter sample_isISO8601 (PObject (meter_payload "M001"))
         (buffer sample_system)
       = Ok (pushMeter dto (buffer sample_system)).
Proof.
  apply (proj1 (X14_ingestMeter_outcomes sample_isISO8601
                  (PObject (meter_payload "M001")) (buffer sample_system))).
  unfold well_formed_meter.
  repeat split; eexists; (split; [vm_compute; reflexivity|]); try discriminate;
    try (vm_compute; discriminate); try reflexivity.
Defined.

Lemma ingestVehicle_Ok_inv isISO8601 (payload : Payload) (b b' : IngestionBufferService) :
  TelemetryService.ingestVehicle isISO8601 payload b = Ok b' ->
  exists o dto, payload = PObject o /\ as_VehiclePayloadDto o = Some dto
                /\ b' = pushVehicle dto b.
Proof.
  destruct payload as [o|items|s|n|flag| |]; try discriminate.
  unfold TelemetryService.ingestVehicle. cbn [plainToInstance class_validate
    VehiclePayloadDto_metadata]. fold VehiclePayloadDto_metadata.
  cbn [mbind result_bind].
  destruct (validate isISO8601 VehiclePayloadDto_metadata o) as [|e errors] eqn:Hval;
    [|discriminate].
  destruct (validated_vehicle_is_typed _ _ Hval) as [dto Hdto].
  simpl. rewrite Hdto. intros [= <-]. eauto.
Qed.

Lemma ingestMeter_Ok_inv isISO8601 (payload : Payload) (b b' : IngestionBufferService) :
  TelemetryService.ingestMeter isISO8601 payload b = Ok b' ->
  exists o dto, payload = PObject o /\ as_MeterPayloadDto o = Some dto
                /\ b' = pushMeter dto b.
Proof.
  destruct payload as [o|items|s|n|flag| |]; try discriminate.
  unfold TelemetryService.ingestMeter. cbn [plainToInstance class_validate
    MeterPayloadDto_metadata]. fold MeterPayloadDto_metadata.
  cbn [mbind result_bind].
  destruct (validate isISO8601 MeterPayloadDto_metadata o) as [|e errors] eqn:Hval;
    [|discriminate].
  destruct (validated_meter_is_typed _ _ Hval) as [dto Hdto].
  simpl. rewrite Hdto. intros [= <-]. eauto.
Qed.

Lemma ingestVehicle_TypeError isISO8601 (payload : Payload) (b : IngestionBufferService) :
  (exists message, TelemetryService.ingestVehicle isISO8601 payload b
                   = Err (TypeError message))
  <-> not_an_object_to_validate payload = true.
Proof.
  destruct payload as [o|items|s|n|flag| |]; cbn [not_an_object_to_validate];
    try (split; [reflexivity|intros _; eexists; reflexivity]);
    try (split; [intros (m & Hm); discriminate|discriminate]).
  split; [|discriminate]. intros (m & Hm). exfalso. revert Hm.
  unfold TelemetryService.ingestVehicle. cbn [plainToInstance class_validate
    VehiclePayloadDto_metadata]. fold VehiclePayloadDto_metadata.
  cbn [mbind result_bind].
  destruct (0 <? length _)%nat; [discriminate|].
  destruct (as_VehiclePayloadDto o); discriminate.
Qed.

Lemma ingestMeter_TypeError isISO8601 (payload : Payload) (b : IngestionBufferService) :
  (exists message, TelemetryService.ingestMeter isISO8601 payload b
                   = Err (TypeError message))
  <-> not_an_object_to_validate payload = true.
Proof.
  destruct payload as [o|items|s|n|flag| |]; cbn [not_an_object_to_validate];
    try (split; [reflexivity|intros _; eexists; reflexivity]);
    try (split; [intros (m & Hm); discriminate|discriminate]).
  split; [|discriminate]. intros (m & Hm). exfalso. revert Hm.
  unfold TelemetryService.ingestMeter. cbn [plainToInstance class_validate
    MeterPayloadDto_metadata]. fold MeterPayloadDto_metadata.
  cbn [mbind result_bind].
  destruct (0 <? length _)%nat; [discriminate|].
  destruct (as_MeterPayloadDto o); discriminate.
Qed.

Lemma ingestVehicle_Http isISO8601 (payload : Payload) (b : IngestionBufferService) e :
  TelemetryService.ingestVehicle isISO8601 payload b = Err (Http e) ->
  getStatus e = 400.
Proof.
  destruct payload as [o|items|s|n|flag| |]; try discriminate;
    try (intros [= <-]; reflexivity).
  unfold TelemetryService.ingestVehicle. cbn [plainToInstance class_validate
    VehiclePayloadDto_metadata]. fold VehiclePayloadDto_metadata.
  cbn [mbind result_bind].
  destruct (0 <? length _)%nat; [intros [= <-]; reflexivity|].
  destruct (as_VehiclePayloadDto o); discriminate.
Qed.

Lemma ingestMeter_Http isISO8601 (payload : Payload) (b : IngestionBufferService) e :
  TelemetryService.ingestMeter isISO8601 payload b = Err (Http e) ->
  getStatus e = 400.
Proof.
  destruct payload as [o|items|s|n|flag| |]; try discriminate;
    try (intros [= <-]; reflexivity).
  unfold TelemetryService.ingestMeter. cbn [plainToInstance class_validate
    MeterPayloadDto_metadata]. fold MeterPayloadDto_metadata.
  cbn [mbind result_bind].
  destruct (0 <? length _)%nat; [intros [= <-]; reflexivity|].
  destruct (as_MeterPayloadDto o); discriminate.
Qed.

(** X15.  The dispatch of [ingest], for a type and a payload of any kind.
    A call that returns has type VEHICLE or METER and a plain object for
    payload, with the property types of the DTO, and exactly this one record
    is added to what the service holds (the other class is untouched): no
    accepted request is dropped.  A call that throws an [HttpException] is
    answered with a 400.  A call throws a TypeError, answered with a 500,
    exactly when the type is VEHICLE or METER and the payload is a string,
    [null] or [undefined]. *)
Theorem X15_accepted_request_is_held (isISO8601 : string -> bool) (type : string)
    (payload : Payload) (b : IngestionBufferService) :
  match TelemetryService.ingest isISO8601 type payload b with
  | Ok b' =>
      (type = "VEHICLE"
       /\ exists o dto, payload = PObject o /\ as_VehiclePayloadDto o = Some dto
                        /\ held_vehicles b' ≡ₚ held_vehicles b ++ [dto]
                        /\ held_meters b' = held_meters b)
      \/ (type = "METER"
          /\ exists o dto, payload = PObject o /\ as_MeterPayloadDto o = Some dto
                           /\ held_meters b' ≡ₚ held_meters b ++ [dto]
                           /\ held_vehicles b' = held_vehicles b)
  | Err (Http e) =>
      getStatus e = 400
      /\ status_of (TelemetryService.ingest isISO8601 type payload b) = 400
  | Err (TypeError _) =>
      status_of (TelemetryService.ingest isISO8601 type payload b) = 500
  end
  /\ ((exists message,
         TelemetryService.ingest isISO8601 type payload b = Err (TypeError message))
      <-> (type = "VEHICLE" \/ type = "METER")
          /\ ((exists s, payload = PString s) \/ payload = PNull
              \/ payload = PUndefined)).
Proof.
  assert (not_an_object_to_validate payload = true
          <-> (exists s, payload = PString s) \/ payload = PNull \/ payload = PUndefined)
    as Hkind.
  { destruct payload; cbn; split; try discriminate; eauto;
      intros [(s0 & Hs)|[Hs|Hs]]; discriminate. }
  unfold TelemetryService.ingest.
  destruct (String.eqb type "VEHICLE") eqn:Hv.
  - apply String.eqb_eq in Hv. split.
    + destruct (TelemetryService.ingestVehicle isISO8601 payload b) as [b'|[e|m]] eqn:Hi.
      * apply ingestVehicle_Ok_inv in Hi as (o & dto & -> & Hdto & ->).
        left. split; [assumption|]. exists o, dto.
        split; [reflexivity|]. split; [assumption|]. split.
        -- apply held_vehicles_pushVehicle.
        -- apply held_meters_pushVehicle.
      * apply ingestVehicle_Http in Hi. cbn. auto.
      * reflexivity.
    + rewrite ingestVehicle_TypeError, Hkind. tauto.
  - destruct (String.eqb type "METER") eqn:Hm.
    + apply String.eqb_eq in Hm. split.
      * destruct (TelemetryService.ingestMeter isISO8601 payload b) as [b'|[e|m]] eqn:Hi.
        -- apply ingestMeter_Ok_inv in Hi as (o & dto & -> & Hdto & ->).
           right. split; [assumption|]. exists o, dto.
           split; [reflexivity|]. split; [assumption|]. split.
           ++ apply held_meters_pushMeter.
           ++ apply held_vehicles_pushMeter.
        -- apply ingestMeter_Http in Hi. cbn. auto.
        -- reflexivity.
      * rewrite ingestMeter_TypeError, Hkind. tauto.
    + apply String.eqb_neq in Hv, Hm. split; [split; reflexivity|].
      split; [intros (m & Hmsg); discriminate|]. intros [[?|?] _]; contradiction.
Qed.

(** ** The messages of a rejected payload *)

Lemma property_messages (name : string) (failed : list Decorator) m :
  m ∈ flat_map constraints
        (match failed with
         | [] => []
         | _ => [ {| ve_property := Some name;
                     constraints := map (fun d => defaultMessage d name) failed |} ]
         end)
  <-> m ∈ map (fun d => defaultMessage d name) failed.
Proof.
  destruct failed as [|d0 failed]; [reflexivity|].
  cbn [flat_map constraints]. rewrite app_nil_r. reflexivity.
Qed.

Lemma validate_messages isISO8601 (meta : Metadata) (o : gmap string JsValue) m :
  m ∈ flat_map constraints (validate isISO8601 meta o)
  <-> exists name ds d,
        (name, ds) ∈ meta /\ d ∈ ds
        /\ passes isISO8601 d (property o name) = false
        /\ m = defaultMessage d name.
Proof.
  unfold validate. induction meta as [|[name ds] meta IH]; simpl.
  - split; [intros H; inversion H|].
    intros (? & ? & ? & H & _). inversion H.
  - rewrite flat_map_app, elem_of_app, IH, property_messages. clear IH.
    change (map ?f ?l) with (f <$> l). rewrite list_elem_of_fmap. split.
    + intros [(d & -> & Hd)|(n & ds' & d & Hin & Hd & Hp & ->)].
      * apply list_elem_of_filter in Hd as [Hp Hd].
        exists name, ds, d. repeat split; [left|assumption|assumption].
      * exists n, ds', d. repeat split; [right|..]; assumption.
    + intros (n & ds' & d & Hin & Hd & Hp & ->).
      apply elem_of_cons in Hin as [Heq|Hin].
      * injection Heq as -> ->. left. exists d. split; [reflexivity|].
        apply list_elem_of_filter; auto.
      * right. exists n, ds', d. auto.
Qed.

(** X16.  The messages of a 400 of [ingestVehicle] and of [ingestMeter].
    For a plain object they are exactly the messages of the failed
    constraints: the default message of every decorator of the DTO class
    that a property of the payload fails, and no other message.  For any
    other payload that is answered with a 400 (an array, a number, a
    boolean) the only message is that of an unknown value. *)
Theorem X16_rejection_names_the_failed_constraints (isISO8601 : string -> bool)
    (payload : Payload) (b : IngestionBufferService) (e : HttpException) :
  (TelemetryService.ingestVehicle isISO8601 payload b = Err (Http e) ->
   exists messages,
     e = BadRequestException "Invalid VEHICLE payload" messages
     /\ match payload with
        | PObject o =>
            forall m, m ∈ messages
              <-> exists name ds d,
                    (name, ds) ∈ VehiclePayloadDto_metadata /\ d ∈ ds
                    /\ passes isISO8601 d (property o name) = false
                    /\ m = defaultMessage d name
        | _ => messages = ["an unknown value was passed to the validate function"%string]
        end)
  /\ (TelemetryService.ingestMeter isISO8601 payload b = Err (Http e) ->
      exists messages,
        e = BadRequestException "Invalid METER payload" messages
        /\ match payload with
           | PObject o =>
               forall m, m ∈ messages
                 <-> exists name ds d,
                       (name, ds) ∈ MeterPayloadDto_metadata /\ d ∈ ds
                       /\ passes isISO8601 d (property o name) = false
                       /\ m = defaultMessage d name
           | _ => messages = ["an unknown value was passed to the validate function"%string]
           end).
Proof.
  split.
  - destruct payload as [o|items|s|n|flag| |]; try discriminate;
      try (intros [= <-]; eexists; split; reflexivity).
    unfold TelemetryService.ingestVehicle. cbn [plainToInstance class_validate
      VehiclePayloadDto_metadata]. fold VehiclePayloadDto_metadata.
    cbn [mbind result_bind].
    pose proof (validate_messages isISO8601 VehiclePayloadDto_metadata o) as Hmsg.
    destruct (validate isISO8601 VehiclePayloadDto_metadata o) as [|e0 errors].
    + simpl. destruct (as_VehiclePayloadDto o); discriminate.
    + cbn [length Nat.ltb Nat.leb]. intros [= <-]. eexists. split; [reflexivity|].
      exact Hmsg.
  - destruct payload as [o|items|s|n|flag| |]; try discriminate;
      try (intros [= <-]; eexists; split; reflexivity).
    unfold TelemetryService.ingestMeter. cbn [plainToInstance class_validate
      MeterPayloadDto_metadata]. fold MeterPayloadDto_metadata.
    cbn [mbind result_bind].
    pose proof (validate_messages isISO8601 MeterPayloadDto_metadata o) as Hmsg.
    destruct (validate isISO8601 MeterPayloadDto_metadata o) as [|e0 errors].
    + simpl. destruct (as_MeterPayloadDto o); discriminate.
    + cbn [length Nat.ltb Nat.leb]. intros [= <-]. eexists. split; [reflexivity|].
      exact Hmsg.
Qed.

Lemma X16_rejection_witness :
  exists messages,
    BadRequestException "Invalid VEHICLE payload"
      ["vehicleId should not be empty"]%string
    = BadRequestException "Invalid VEHICLE payload" messages
    /\ forall m, m ∈ messages
         <-> exists name ds d,
               (name, ds) ∈ VehiclePayloadDto_metadata /\ d ∈ ds
               /\ passes sample_isISO8601 d (property (vehicle_payload EmptyString) name)
                  = false
               /\ m = defaultMessage d name.
Proof.
  apply (proj1 (X16_rejection_names_the_failed_constraints sample_isISO8601
                  (PObject (vehicle_payload EmptyString)) (buffer sample_system) _)).
  vm_compute. reflexivity.
Defined.

(** ** Reading back: the analytics service *)

#[local] Instance newer_first_transitive {A} (at_ : A -> Z) :
  Transitive (AnalyticsService.newer_first at_).
Proof. unfold AnalyticsService.newer_first. intros x y z Hxy Hyz. lia. Qed.

#[local] Instance newer_first_total {A} (at_ : A -> Z) :
  Total (AnalyticsService.newer_first at_).
Proof. unfold AnalyticsService.newer_first. intros x y. lia. Qed.

(** [WHERE id = $1 AND recorded_at >= $2 AND recorded_at < $3
     ORDER BY recorded_at DESC LIMIT $4] returns the newest rows of the
    device in the range. *)
Lemma newest_rows {A} (id_of : A -> string) (at_ : A -> Z) (table : list A)
    (deviceId : string) (from to : Z) (limit : nat) :
  newest_in_range id_of at_ table deviceId from to limit
    (take limit
       (merge_sort (AnalyticsService.newer_first at_)
          (filter (fun r => id_of r = deviceId /\ from <= at_ r /\ at_ r < to) table))).
Proof.
  set (P := fun r => id_of r = deviceId /\ from <= at_ r /\ at_ r < to).
  set (R := AnalyticsService.newer_first at_).
  set (sorted := merge_sort R (filter P table)).
  assert (sorted ≡ₚ filter P table) as Hperm by apply merge_sort_Permutation.
  assert (StronglySorted R sorted) as Hsorted
      by (apply StronglySorted_merge_sort; apply _).
  assert (forall r, r ∈ sorted <-> r ∈ table /\ P r) as Hin.
  { intros r. rewrite Hperm, list_elem_of_filter. tauto. }
  rewrite <- (take_drop limit sorted) in Hsorted.
  unfold newest_in_range. split; [|split; [|split; [|split]]].
  - transitivity sorted; [apply sublist_submseteq, sublist_take|].
    rewrite Hperm. apply sublist_submseteq, sublist_filter.
  - apply Forall_forall. intros r Hr.
    apply (elem_of_submseteq _ sorted) in Hr;
      [|apply sublist_submseteq, sublist_take].
    apply Hin in Hr. apply Hr.
  - eapply StronglySorted_app_1_l, Hsorted.
  - rewrite length_take. lia.
  - intros h Hh Hid Hfrom Hto.
    assert (h ∈ sorted) as Hs by (apply Hin; unfold P; auto).
    rewrite <- (take_drop limit sorted) in Hs.
    apply elem_of_app in Hs as [Hs|Hs]; [left; exact Hs|right]. split.
    + rewrite length_take.
      assert (length (drop limit sorted) <> 0)%nat as Hne
          by (destruct (drop limit sorted); [inversion Hs|discriminate]).
      rewrite length_drop in Hne. lia.
    + apply Forall_forall. intros r Hr.
      exact (StronglySorted_app_1_elem_of _ _ _ _ _ Hsorted Hr Hs).
Qed.

(** X17.  [getDeviceHistory] returns the newest readings of the device in
    the range [from, to), newest first and at most [limit] of them: each
    row is a row of the history table of the device type, none is returned
    twice, and a reading of the device and the range that is left out is no
    newer than any row returned (and then [limit] rows are returned). *)
Theorem X17_device_history_is_newest_in_range (db : Database) (deviceId : string)
    (from to : Z) (limit : nat) :
  (exists rows,
      AnalyticsService.getDeviceHistory db "VEHICLE" deviceId from to limit
      = (Ok (VehicleHistory
               (map (fun r => (vh_vehicle_id r, vh_soc r, vh_kwh_delivered_dc r,
                               vh_battery_temp r, vh_recorded_at r)) rows)),
         [SelectVehicleHistory deviceId from to limit])
      /\ newest_in_range vh_vehicle_id vh_recorded_at (cold (vehicles db))
           deviceId from to limit rows)
  /\ (exists rows,
         AnalyticsService.getDeviceHistory db "METER" deviceId from to limit
         = (Ok (MeterHistory
                  (map (fun r => (mh_meter_id r, mh_kwh_consumed_ac r, mh_voltage r,
                                  mh_recorded_at r)) rows)),
            [SelectMeterHistory deviceId from to limit])
         /\ newest_in_range mh_meter_id mh_recorded_at (cold (meters db))
              deviceId from to limit rows).
Proof.
  split; eexists; (split; [reflexivity|]).
  - apply (newest_rows vh_vehicle_id vh_recorded_at).
  - apply (newest_rows mh_meter_id mh_recorded_at).
Qed.

Section ReadBack.
Context `{L : TelemetryLaws D H C V}.

(** Every record of a committed batch has its history row in the table and
    a current row of its device that is at least as recent. *)
Lemma committed_readings_visible env (records : list D) (t t' : Tables H C) s :
  run_ingestBatch env records t = (Ok (), t', s) ->
  forall r, r ∈ records ->
    exists h c,
      history_row (Date env) (NOW env) r = Ok h
      /\ h ∈ cold t'
      /\ hot t' !! cold_id h = Some c
      /\ cold_recorded_at h <= hot_last_seen_at c.
Proof.
  intros Hrun r Hr.
  assert (records <> []) as Hne by (intros ->; inversion Hr).
  pose proof (ingestBatch_all_or_nothing env records t Hne) as Haon.
  unfold all_or_nothing in Haon. rewrite Hrun in Haon.
  destruct Haon as [(hs & Hhs & Hcold & Hvis) _].
  apply traverse_Ok_Forall2 in Hhs.
  apply list_elem_of_lookup in Hr as [i Hi].
  destruct (Forall2_lookup_l _ _ _ _ _ Hhs Hi) as (h & Hh & Hrow).
  assert (h ∈ hs) as Hin by (eapply list_elem_of_lookup_2, Hh).
  destruct (Hvis h Hin) as (c & Hc & Hle).
  exists h, c. repeat split; try assumption.
  rewrite Hcold. apply elem_of_app. right. exact Hin.
Qed.

End ReadBack.

(** X18.  What a committed batch wrote can be read back: for every record
    of a batch that [ingestBatch] committed, the history table holds its
    row, and [getLiveStatus] for the stored identifier returns a current
    row that is at least as recent as the record. *)
Theorem X18_committed_batch_is_readable (db : Database) (env : Env) :
  (forall (records : list VehiclePayloadDto) q,
      VehicleTelemetryRepository.ingestBatch env records
        {| committed := vehicles db; transaction := None; steps := [] |}
      = (Ok (), q) ->
      forall r, r ∈ records ->
        exists h c,
          VehicleTelemetryRepository.history_values (Date env) (NOW env) r = Ok h
          /\ h ∈ cold (committed q)
          /\ AnalyticsService.getLiveStatus
               {| vehicles := committed q; meters := meters db;
                  vehicle_meter_link := vehicle_meter_link db |}
               "VEHICLE" (vh_vehicle_id h)
             = (Ok (Some (VehicleStatus c)),
                [SelectVehicleCurrentStatus (vh_vehicle_id h)])
          /\ vh_recorded_at h <= vc_last_seen_at c)
  /\ (forall (records : list MeterPayloadDto) q,
      MeterTelemetryRepository.ingestBatch env records
        {| committed := meters db; transaction := None; steps := [] |}
      = (Ok (), q) ->
      forall r, r ∈ records ->
        exists h c,
          MeterTelemetryRepository.history_values (Date env) (NOW env) r = Ok h
          /\ h ∈ cold (committed q)
          /\ AnalyticsService.getLiveStatus
               {| vehicles := vehicles db; meters := committed q;
                  vehicle_meter_link := vehicle_meter_link db |}
               "METER" (mh_meter_id h)
             = (Ok (Some (MeterStatus c)),
                [SelectMeterCurrentStatus (mh_meter_id h)])
          /\ mh_recorded_at h <= mc_last_seen_at c).
Proof.
  split; intros records q Hrun r Hr.
  - destruct (committed_readings_visible (L := vehicle_laws) env records
                (vehicles db) (committed q) (steps q)) with (r := r)
      as (h & c & Hrow & Hin & Hc & Hle); [|assumption|].
    { unfold run_ingestBatch.
      change (ingestBatch env records)
        with (VehicleTelemetryRepository.ingestBatch env records).
      rewrite Hrun. reflexivity. }
    exists h, c. repeat split; try assumption.
    unfold AnalyticsService.getLiveStatus. simpl in *. rewrite Hc. reflexivity.
  - destruct (committed_readings_visible (L := meter_laws) env records
                (meters db) (committed q) (steps q)) with (r := r)
      as (h & c & Hrow & Hin & Hc & Hle); [|assumption|].
    { unfold run_ingestBatch.
      change (ingestBatch env records)
        with (MeterTelemetryRepository.ingestBatch env records).
      rewrite Hrun. reflexivity. }
    exists h, c. repeat split; try assumption.
    unfold AnalyticsService.getLiveStatus. simpl in *. rewrite Hc. reflexivity.
Qed.

Lemma X18_committed_batch_witness :
  exists h c,
    VehicleTelemetryRepository.history_values (Date sample_env) (NOW sample_env)
      V001_at_10_00_30 = Ok h
    /\ h ∈ cold vehicle_tables_after_10_00_30
    /\ AnalyticsService.getLiveStatus
         {| vehicles := vehicle_tables_after_10_00_30;
            meters := meters sample_database;
            vehicle_meter_link := vehicle_meter_link sample_database |}
         "VEHICLE" (vh_vehicle_id h)
       = (Ok (Some (VehicleStatus c)), [SelectVehicleCurrentStatus (vh_vehicle_id h)])
    /\ vh_recorded_at h <= vc_last_seen_at c.
Proof.
  apply (proj1 (X18_committed_batch_is_readable
                  {| vehicles := empty_tables; meters := meters sample_database;
                     vehicle_meter_link := vehicle_meter_link sample_database |}
                  sample_env)
           [V001_at_10_00_30]
           {| committed := vehicle_tables_after_10_00_30; transaction := None;
              steps := committed_steps |}).
  - vm_compute. reflexivity.
  - left.
Defined.

(** ** The performance summary *)

Lemma round_half_away_zero (q : Q) : Qnum q = 0 -> round_half_away q = 0.
Proof.
  intros Hq. unfold round_half_away. rewrite Hq. simpl.
  apply Z.div_small. lia.
Qed.

Lemma Qnum_zero (q : Q) : (q == 0)%Q <-> Qnum q = 0.
Proof. unfold Qeq. simpl. lia. Qed.

Lemma ROUND2_zero (q : Q) : (q == 0)%Q -> (ROUND2 (q * 100) == 0)%Q.
Proof.
  intros Hq. apply Qnum_zero in Hq. unfold ROUND2.
  rewrite round_half_away_zero; [reflexivity|].
  cbn [Qmult Qnum]. rewrite Hq. reflexivity.
Qed.

Lemma numeric_div_zero (y : Q) (dscale_x dscale_y : nat) :
  (numeric_div 0 y dscale_x dscale_y == 0)%Q.
Proof.
  unfold numeric_div. rewrite round_half_away_zero; [|reflexivity].
  apply Qnum_zero. reflexivity.
Qed.

Lemma binary64_not_NaN (x : Q) : binary64 x <> NaN.
Proof.
  unfold binary64.
  destruct (_ =? 0); [discriminate|].
  destruct (_ <=? _); [destruct (0 <=? _); discriminate|discriminate].
Qed.

Lemma no_rows_iff {A} (id_of : A -> string) (at_ : A -> Z) (table : list A)
    (device : string) (now : Z) :
  filter (fun r => id_of r = device /\ now - hours_24 <= at_ r) table = []
  <-> ~ has_reading_24h id_of at_ table device now.
Proof.
  unfold has_reading_24h. change (now - 86400000) with (now - hours_24). split.
  - intros Hnil (r & Hr & Hid & Hat).
    exact (filter_nil_not_elem_of _ _ r Hnil (conj Hid Hat) Hr).
  - intros Hno. destruct (filter _ table) as [|r rows] eqn:Hf; [reflexivity|].
    exfalso. apply Hno. exists r.
    assert (r ∈ filter (fun r => id_of r = device /\ now - hours_24 <= at_ r) table)
      as Hin by (rewrite Hf; left).
    apply list_elem_of_filter in Hin as [[Hid Hat] Hin]. auto.
Qed.

(** X19.  The performance of a linked vehicle without readings.  The
    response is always produced; [averageBatteryTemp] is NaN exactly when
    the history holds no reading of the vehicle that is at most 24 hours
    old; then the DC total and the ratio are 0; and when the history holds
    no such reading of the linked meter the AC total and the ratio are 0. *)
Theorem X19_performance_without_readings (db : Database) (now : Z)
    (vehicleId : string) (link : VehicleMeterLink) :
  vehicle_meter_link db !! vehicleId = Some link ->
  exists p,
    AnalyticsService.getVehiclePerformance db now vehicleId
    = (Ok p, [SelectVehicleMeterLink vehicleId;
              SelectPerformance vehicleId (l_meter_id link)])
    /\ p_vehicleId p = vehicleId /\ p_meterId p = l_meter_id link
    /\ (averageBatteryTemp p = NaN
        <-> ~ has_reading_24h vh_vehicle_id vh_recorded_at (cold (vehicles db))
                              vehicleId now)
    /\ (~ has_reading_24h vh_vehicle_id vh_recorded_at (cold (vehicles db))
                          vehicleId now ->
        totalDcDelivered p = Finite 0 /\ efficiencyRatio p = Finite 0)
    /\ (~ has_reading_24h mh_meter_id mh_recorded_at (cold (meters db))
                          (l_meter_id link) now ->
        totalAcConsumed p = Finite 0 /\ efficiencyRatio p = Finite 0).
Proof.
  intros Hlink. unfold AnalyticsService.getVehiclePerformance.
  rewrite Hlink. cbn [fmap option_fmap option_map option_list].
  eexists. split; [reflexivity|]. cbn [p_vehicleId p_meterId averageBatteryTemp
    totalDcDelivered totalAcConsumed efficiencyRatio].
  split; [reflexivity|]. split; [reflexivity|].
  rewrite <- !no_rows_iff.
  fold (AnalyticsService.vehicle_stats_rows db now vehicleId).
  fold (AnalyticsService.meter_stats_rows db now (l_meter_id link)).
  split; [|split].
  - unfold AnalyticsService.avg_battery_temp.
    destruct (AnalyticsService.vehicle_stats_rows db now vehicleId) as [|h hs].
    + simpl. tauto.
    + cbn [map AVG fmap option_fmap option_map parseFloat].
      split; [intros Hnan; exfalso; exact (binary64_not_NaN _ Hnan)|discriminate].
  - intros Hvs. unfold AnalyticsService.total_dc_delivered. rewrite Hvs.
    cbn [map SUM COALESCE default parseFloat].
    split; [reflexivity|].
    destruct (Qlt_le_dec 0 _); [|reflexivity].
    apply binary64_zero, ROUND2_zero, numeric_div_zero.
  - intros Hms. unfold AnalyticsService.total_ac_consumed. rewrite Hms.
    cbn [map SUM COALESCE default parseFloat].
    split; reflexivity.
Qed.

Lemma X19_performance_witness :
  let db := {| vehicles := empty_tables; meters := meters sample_database;
               vehicle_meter_link := vehicle_meter_link sample_database |} in
  exists p,
    (AnalyticsService.getVehiclePerformance db 1770890460000 "V001").1 = Ok p
    /\ averageBatteryTemp p = NaN.
Proof.
  intros db.
  destruct (X19_performance_without_readings db 1770890460000 "V001"
              {| l_vehicle_id := "V001"; l_meter_id := "M001";
                 l_linked_at := 1770804000000 |} eq_refl)
    as (p & Hp & _ & _ & Hnan & _).
  exists p. split; [rewrite Hp; reflexivity|].
  apply Hnan. intros (r & Hr & _). inversion Hr.
Defined.

(** ** The materialized view against the service *)

Lemma sum_app (l1 l2 : list Q) :
  (foldr Qplus 0 (l1 ++ l2) == foldr Qplus 0 l1 + foldr Qplus 0 l2)%Q.
Proof.
  induction l1 as [|x l1 IH]; simpl; [ring|].
  apply (Qeq_trans _ (x + (foldr Qplus 0 l1 + foldr Qplus 0 l2))%Q);
    [apply Qplus_comp; [reflexivity|exact IH]|ring].
Qed.

Lemma sum_constant {B} (x : Q) (ms : list B) :
  (foldr Qplus 0 (map (fun _ => x) ms) == inject_Z (Z.of_nat (length ms)) * x)%Q.
Proof.
  induction ms as [|m ms IH]; [simpl; ring|].
  cbn [map foldr length]. rewrite Nat2Z.inj_succ. unfold Z.succ.
  rewrite inject_Z_plus.
  apply (Qeq_trans _ (x + inject_Z (Z.of_nat (length ms)) * x)%Q);
    [apply Qplus_comp; [reflexivity|exact IH]|ring].
Qed.

(** In the join every vehicle reading occurs once per meter reading, and
    every meter reading once per vehicle reading. *)
Lemma sum_joined_vehicle {A B} (f : A -> Q) (vs : list A) (ms : list B) :
  (foldr Qplus 0 (map (fun p => f p.1) (flat_map (fun v => map (fun m => (v, m)) ms) vs))
   == inject_Z (Z.of_nat (length ms)) * foldr Qplus 0 (map f vs))%Q.
Proof.
  induction vs as [|v vs IH]; [simpl; ring|].
  cbn [flat_map]. rewrite map_app, map_map. cbn [fst map foldr].
  apply (Qeq_trans _ _ _ (sum_app _ _)).
  apply (Qeq_trans _ (inject_Z (Z.of_nat (length ms)) * f v
                      + inject_Z (Z.of_nat (length ms)) * foldr Qplus 0 (map f vs))%Q);
    [apply Qplus_comp; [apply sum_constant|exact IH]|ring].
Qed.

Lemma sum_joined_meter {A B} (g : B -> Q) (vs : list A) (ms : list B) :
  (foldr Qplus 0 (map (fun p => g p.2) (flat_map (fun v => map (fun m => (v, m)) ms) vs))
   == inject_Z (Z.of_nat (length vs)) * foldr Qplus 0 (map g ms))%Q.
Proof.
  induction vs as [|v vs IH]; [simpl; ring|].
  cbn [flat_map]. rewrite map_app, map_map. cbn [snd length].
  rewrite Nat2Z.inj_succ. unfold Z.succ. rewrite inject_Z_plus.
  apply (Qeq_trans _ _ _ (sum_app _ _)).
  apply (Qeq_trans _ (foldr Qplus 0 (map g ms)
                      + inject_Z (Z.of_nat (length vs)) * foldr Qplus 0 (map g ms))%Q);
    [apply Qplus_comp; [reflexivity|exact IH]|ring].
Qed.

Lemma joined_rows_nil {A B} (vs : list A) (ms : list B) :
  flat_map (fun v => map (fun m => (v, m)) ms) vs = [] <-> vs = [] \/ ms = [].
Proof.
  split.
  - destruct vs as [|v vs]; [auto|]. destruct ms as [|m ms]; [auto|discriminate].
  - intros [->| ->]; [reflexivity|]. induction vs; simpl; auto.
Qed.

(** X20.  The materialized view [mv_vehicle_performance_24h] does not hold
    what [getVehiclePerformance] returns.  The view joins the readings of
    the vehicle with the readings of the meter before it sums: it has no
    row for a linked vehicle as soon as one of the two has no reading in
    the window (the service answers with zero totals), and otherwise its AC
    total is the total of the service times the number of vehicle readings,
    and its DC total the total of the service times the number of meter
    readings. *)
Theorem X20_view_multiplies_the_totals (db : Database) (now : Z) (vehicleId : string)
    (link : VehicleMeterLink) :
  vehicle_meter_link db !! vehicleId = Some link ->
  let vs := AnalyticsService.vehicle_stats_rows db now vehicleId in
  let ms := AnalyticsService.meter_stats_rows db now (l_meter_id link) in
  match mv_vehicle_performance_24h db now vehicleId with
  | None => vs = [] \/ ms = []
  | Some row =>
      vs <> [] /\ ms <> []
      /\ mv_vehicle_id row = vehicleId /\ mv_meter_id row = l_meter_id link
      /\ (mv_total_ac_consumed row
          == inject_Z (Z.of_nat (length vs))
             * AnalyticsService.total_ac_consumed db now (l_meter_id link))%Q
      /\ (mv_total_dc_delivered row
          == inject_Z (Z.of_nat (length ms))
             * AnalyticsService.total_dc_delivered db now vehicleId)%Q
  end.
Proof.
  intros Hlink vs ms. unfold mv_vehicle_performance_24h. rewrite Hlink.
  cbn [mbind option_bind]. unfold mv_joined_rows. fold vs ms.
  destruct (flat_map (fun v => map (fun m => (v, m)) ms) vs) as [|p group] eqn:Hj.
  - apply joined_rows_nil in Hj. exact Hj.
  - assert (vs <> [] /\ ms <> []) as [Hvs Hms].
    { split; intros Heq;
        assert (flat_map (fun v => map (fun m => (v, m)) ms) vs = []) as Hnil
          by (apply joined_rows_nil; auto);
        rewrite Hnil in Hj; discriminate. }
    rewrite <- Hj. clear Hj.
    cbn [mv_vehicle_id mv_meter_id mv_total_ac_consumed mv_total_dc_delivered].
    split; [assumption|]. split; [assumption|].
    split; [reflexivity|]. split; [reflexivity|].
    unfold AnalyticsService.total_ac_consumed, AnalyticsService.total_dc_delivered.
    fold vs ms. split.
    + pose proof (sum_joined_meter (fun m => of_numeric 4 (mh_kwh_consumed_ac m)) vs ms)
        as Hsum.
      destruct vs as [|v vs']; [contradiction|]. destruct ms as [|m ms']; [contradiction|].
      exact Hsum.
    + pose proof (sum_joined_vehicle (fun v => of_numeric 4 (vh_kwh_delivered_dc v)) vs ms)
        as Hsum.
      destruct vs as [|v vs']; [contradiction|]. destruct ms as [|m ms']; [contradiction|].
      exact Hsum.
Qed.

Lemma X20_view_witness :
  match mv_vehicle_performance_24h unbalanced_database 1770890460000 "V001" with
  | Some row =>
      (mv_total_ac_consumed row
       == 2 * AnalyticsService.total_ac_consumed unbalanced_database 1770890460000 "M001")%Q
  | None => False
  end.
Proof.
  pose proof (X20_view_multiplies_the_totals unbalanced_database 1770890460000 "V001"
                {| l_vehicle_id := "V001"; l_meter_id := "M001";
                   l_linked_at := 1770804000000 |} eq_refl) as Hview.
  cbv zeta in Hview.
  destruct (mv_vehicle_performance_24h unbalanced_database 1770890460000 "V001")
    as [row|].
  - destruct Hview as (_ & _ & _ & _ & Hac & _). exact Hac.
  - destruct Hview as [Hnil|Hnil]; vm_compute in Hnil; discriminate.
Defined.
